(** * Input reassembly and keyboard translation in the mywayland examples

    A shallow embedding of the input handling code of
    [waylandbook.example.c] (pointer frame aggregation, keyboard listener,
    seat capabilities), of its shared memory code (the file behind a
    frame and the frame itself) and of [gettext.c] (keymap installation,
    key translation, the seat listener, the dispatch loop), followed by
    the properties that the specification states about them and by
    further properties of the same code.

    Conventions.  C integers ([uint32_t], [int32_t], [wl_fixed_t]) are
    values of [Z]; where the C code computes on them the 32-bit wrap-around
    is written out.  Pointers to library objects are [option] of an object
    identifier, [None] being [NULL].  A handler is a computation in a small
    state-and-fault monad: it either returns with a new state or stops at a
    fault (an out-of-bounds array access, a null object handed to a library
    entry point that needs one, a failed [assert]) with the state reached
    at that point. *)

From Stdlib Require Import ZArith List Bool Lia String Ascii DecimalString.
From stdpp Require Import base option list gmap sets strings.

Local Open Scope Z_scope.

(** ** Faults and the handler monad *)

Inductive fault : Type :=
| OutOfBounds (array : string) (index : Z)
| NullArgument (callee : string)
| DanglingObject (callee : string)
| AssertionFailed (expr : string).

Inductive result (S A : Type) : Type :=
| Ok (a : A) (s : S)
| Fault (f : fault) (s : S).

Arguments Ok {S A} a s.
Arguments Fault {S A} f s.

Definition M (S A : Type) : Type := S -> result S A.

Definition ret {S A} (a : A) : M S A := fun s => Ok a s.

Definition bind {S A B} (m : M S A) (k : A -> M S B) : M S B :=
  fun s => match m s with
           | Ok a s' => k a s'
           | Fault f s' => Fault f s'
           end.

Definition get {S} : M S S := fun s => Ok s s.
Definition put {S} (s : S) : M S unit := fun _ => Ok tt s.
Definition modify {S} (f : S -> S) : M S unit := fun s => Ok tt (f s).
Definition raise {S A} (f : fault) : M S A := fun s => Fault f s.

(** The state a computation stops in, returned or faulted. *)
Definition final_state {S A} (r : result S A) : S :=
  match r with
  | Ok _ s => s
  | Fault _ s => s
  end.

(** [m] keeps [P] wherever it stops. *)
Definition preserves {S A} (m : M S A) (P : S -> Prop) : Prop :=
  forall s, P s -> P (final_state (m s)).

Declare Scope handler_scope.
Delimit Scope handler_scope with handler.
Notation "x <- m ;; k" := (bind m (fun x => k))
  (at level 100, m at next level, right associativity) : handler_scope.
Notation "m ;; k" := (bind m (fun _ => k))
  (at level 100, right associativity) : handler_scope.
Local Open Scope handler_scope.

(** [when b m] is the C statement [if (b) m;]. *)
Definition when {S} (b : bool) (m : M S unit) : M S unit :=
  if b then m else ret tt.

(** [mask & bit] used as a C condition. *)
Definition has (mask bit : Z) : bool := negb (Z.land mask bit =? 0).

(** [uint32_t] arithmetic. *)
Definition u32 (z : Z) : Z := z mod 2 ^ 32.

(** ** The pointer frame aggregator of waylandbook.example.c *)

Module Pointer.

(** [enum pointer_event_mask] *)
Definition POINTER_EVENT_ENTER : Z := Z.shiftl 1 0.
Definition POINTER_EVENT_LEAVE : Z := Z.shiftl 1 1.
Definition POINTER_EVENT_MOTION : Z := Z.shiftl 1 2.
Definition POINTER_EVENT_BUTTON : Z := Z.shiftl 1 3.
Definition POINTER_EVENT_AXIS : Z := Z.shiftl 1 4.
Definition POINTER_EVENT_AXIS_SOURCE : Z := Z.shiftl 1 5.
Definition POINTER_EVENT_AXIS_STOP : Z := Z.shiftl 1 6.
Definition POINTER_EVENT_AXIS_DISCRETE : Z := Z.shiftl 1 7.

(** Protocol constant of wayland-client-protocol.h. *)
Definition WL_POINTER_BUTTON_STATE_RELEASED : Z := 0.

(** One element of [axes[2]]. *)
Record axis_entry : Type := {
  valid : bool;
  value : Z;
  discrete : Z
}.

(** [struct pointer_event] *)
Record pointer_event : Type := {
  event_mask : Z;
  surface_x : Z;
  surface_y : Z;
  button : Z;
  state : Z;
  time : Z;
  serial : Z;
  axes : list axis_entry;
  axis_source : Z
}.

Definition axis_zero : axis_entry :=
  {| valid := false; value := 0; discrete := 0 |}.

(** The all-zero struct: the initial [{ 0 }] of [main] and the result of
    the [memset] that ends [wl_pointer_frame]. *)
Definition pointer_event_zero : pointer_event :=
  {| event_mask := 0; surface_x := 0; surface_y := 0; button := 0;
     state := 0; time := 0; serial := 0;
     axes := [axis_zero; axis_zero]; axis_source := 0 |}.

(** Field assignments. *)
Definition set_event_mask (v : Z) (e : pointer_event) : pointer_event :=
  {| event_mask := v; surface_x := surface_x e; surface_y := surface_y e;
     button := button e; state := state e; time := time e;
     serial := serial e; axes := axes e; axis_source := axis_source e |}.
Definition set_surface_x (v : Z) (e : pointer_event) : pointer_event :=
  {| event_mask := event_mask e; surface_x := v; surface_y := surface_y e;
     button := button e; state := state e; time := time e;
     serial := serial e; axes := axes e; axis_source := axis_source e |}.
Definition set_surface_y (v : Z) (e : pointer_event) : pointer_event :=
  {| event_mask := event_mask e; surface_x := surface_x e; surface_y := v;
     button := button e; state := state e; time := time e;
     serial := serial e; axes := axes e; axis_source := axis_source e |}.
Definition set_button (v : Z) (e : pointer_event) : pointer_event :=
  {| event_mask := event_mask e; surface_x := surface_x e;
     surface_y := surface_y e; button := v; state := state e;
     time := time e; serial := serial e; axes := axes e;
     axis_source := axis_source e |}.
Definition set_state (v : Z) (e : pointer_event) : pointer_event :=
  {| event_mask := event_mask e; surface_x := surface_x e;
     surface_y := surface_y e; button := button e; state := v;
     time := time e; serial := serial e; axes := axes e;
     axis_source := axis_source e |}.
Definition set_time (v : Z) (e : pointer_event) : pointer_event :=
  {| event_mask := event_mask e; surface_x := surface_x e;
     surface_y := surface_y e; button := button e; state := state e;
     time := v; serial := serial e; axes := axes e;
     axis_source := axis_source e |}.
Definition set_serial (v : Z) (e : pointer_event) : pointer_event :=
  {| event_mask := event_mask e; surface_x := surface_x e;
     surface_y := surface_y e; button := button e; state := state e;
     time := time e; serial := v; axes := axes e;
     axis_source := axis_source e |}.
Definition set_axes (v : list axis_entry) (e : pointer_event) : pointer_event :=
  {| event_mask := event_mask e; surface_x := surface_x e;
     surface_y := surface_y e; button := button e; state := state e;
     time := time e; serial := serial e; axes := v;
     axis_source := axis_source e |}.
Definition set_axis_source (v : Z) (e : pointer_event) : pointer_event :=
  {| event_mask := event_mask e; surface_x := surface_x e;
     surface_y := surface_y e; button := button e; state := state e;
     time := time e; serial := serial e; axes := axes e;
     axis_source := v |}.

Definition set_valid (v : bool) (a : axis_entry) : axis_entry :=
  {| valid := v; value := value a; discrete := discrete a |}.
Definition set_value (v : Z) (a : axis_entry) : axis_entry :=
  {| valid := valid a; value := v; discrete := discrete a |}.
Definition set_discrete (v : Z) (a : axis_entry) : axis_entry :=
  {| valid := valid a; value := value a; discrete := v |}.

(** [event_mask |= bit] *)
Definition mark (bit : Z) : M pointer_event unit :=
  modify (fun e => set_event_mask (Z.lor (event_mask e) bit) e).

(** [axes[axis].field = v].  [axis] is the [uint32_t] received from the
    transport and indexes the two-element array as it is: an index past
    the array is an out-of-bounds store. *)
Definition axes_store (axis : Z) (f : axis_entry -> axis_entry)
  : M pointer_event unit :=
  fun e =>
    match axes e !! Z.to_nat axis with
    | Some a => Ok tt (set_axes (<[Z.to_nat axis := f a]> (axes e)) e)
    | None => Fault (OutOfBounds "axes" axis) e
    end.

(** The handlers take the arguments of the C callbacks but for [data] and
    the [wl_pointer] proxy; [surface] stands for the surface pointer. *)

Definition wl_pointer_enter (serial surface surface_x surface_y : Z)
  : M pointer_event unit :=
  mark POINTER_EVENT_ENTER ;;
  modify (set_serial serial) ;;
  modify (set_surface_x surface_x) ;;
  modify (set_surface_y surface_y).

Definition wl_pointer_leave (serial surface : Z) : M pointer_event unit :=
  modify (set_serial serial) ;;
  mark POINTER_EVENT_LEAVE.

Definition wl_pointer_motion (time surface_x surface_y : Z)
  : M pointer_event unit :=
  mark POINTER_EVENT_MOTION ;;
  modify (set_time time) ;;
  modify (set_surface_x surface_x) ;;
  modify (set_surface_y surface_y).

Definition wl_pointer_button (serial time button state : Z)
  : M pointer_event unit :=
  mark POINTER_EVENT_BUTTON ;;
  modify (set_time time) ;;
  modify (set_serial serial) ;;
  modify (set_button button) ;;
  modify (set_state state).

Definition wl_pointer_axis (time axis value : Z) : M pointer_event unit :=
  mark POINTER_EVENT_AXIS ;;
  modify (set_time time) ;;
  axes_store axis (set_valid true) ;;
  axes_store axis (set_value value).

Definition wl_pointer_axis_source (axis_source : Z) : M pointer_event unit :=
  mark POINTER_EVENT_AXIS_SOURCE ;;
  modify (set_axis_source axis_source).

Definition wl_pointer_axis_stop (time axis : Z) : M pointer_event unit :=
  modify (set_time time) ;;
  mark POINTER_EVENT_AXIS_STOP ;;
  axes_store axis (set_valid true).

Definition wl_pointer_axis_discrete (axis discrete : Z)
  : M pointer_event unit :=
  mark POINTER_EVENT_AXIS_DISCRETE ;;
  axes_store axis (set_valid true) ;;
  axes_store axis (set_discrete discrete).

(** What [wl_pointer_frame] writes to stderr, one item per [fprintf].
    Coordinates and axis values are kept as the [wl_fixed_t] handed to
    [wl_fixed_to_double]. *)
Inductive axis_field : Type :=
| AValue (v : Z)
| ADiscrete (d : Z)
| AVia (source : string)
| AStopped.

Inductive item : Type :=
| Header (time : Z)
| Entered (x y : Z)
| Leave
| Motion (x y : Z)
| Button (button : Z) (state : string)
| AxisReport (name : string) (fields : list axis_field)
| Newline.

Definition axis_name : list string := ["vertical"; "horizontal"]%string.
Definition axis_source_name : list string :=
  ["wheel"; "finger"; "continuous"; "wheel tilt"]%string.

(** [table[i]] for a read-only table. *)
Definition table_read {S} (name : string) (table : list string) (i : Z)
  : M S string :=
  match table !! Z.to_nat i with
  | Some s => ret s
  | None => raise (OutOfBounds name i)
  end.

(** The body of the [for] loop of [wl_pointer_frame] at index [i]. *)
Definition frame_axis (event : pointer_event) (i : nat)
  : M pointer_event (list item) :=
  match axes event !! i with
  | None => raise (OutOfBounds "axes" (Z.of_nat i))
  | Some a =>
      if negb (valid a) then ret []
      else
        name <- table_read "axis_name" axis_name (Z.of_nat i) ;;
        via <- (if has (event_mask event) POINTER_EVENT_AXIS_SOURCE
                then s <- table_read "axis_source" axis_source_name
                            (axis_source event) ;;
                     ret [AVia s]
                else ret []) ;;
        ret [AxisReport name
               ((if has (event_mask event) POINTER_EVENT_AXIS
                 then [AValue (value a)] else [])
                ++ (if has (event_mask event) POINTER_EVENT_AXIS_DISCRETE
                    then [ADiscrete (discrete a)] else [])
                ++ via
                ++ (if has (event_mask event) POINTER_EVENT_AXIS_STOP
                    then [AStopped] else []))]
  end.

Definition axis_events : Z :=
  Z.lor (Z.lor (Z.lor POINTER_EVENT_AXIS POINTER_EVENT_AXIS_SOURCE)
           POINTER_EVENT_AXIS_STOP) POINTER_EVENT_AXIS_DISCRETE.

(** [wl_pointer_frame]: returns what was printed and leaves the struct
    zeroed. *)
Definition wl_pointer_frame : M pointer_event (list item) :=
  event <- get ;;
  let mask := event_mask event in
  let entered :=
    if has mask POINTER_EVENT_ENTER
    then [Entered (surface_x event) (surface_y event)] else [] in
  let leave := if has mask POINTER_EVENT_LEAVE then [Leave] else [] in
  let motion :=
    if has mask POINTER_EVENT_MOTION
    then [Motion (surface_x event) (surface_y event)] else [] in
  let button :=
    if has mask POINTER_EVENT_BUTTON
    then [Button (button event)
            (if state event =? WL_POINTER_BUTTON_STATE_RELEASED
             then "released"%string else "pressed"%string)]
    else [] in
  axis_items <- (if has mask axis_events
                 then a0 <- frame_axis event 0 ;;
                      a1 <- frame_axis event 1 ;;
                      ret (a0 ++ a1)
                 else ret []) ;;
  put pointer_event_zero ;;
  ret ([Header (time event)] ++ entered ++ leave ++ motion ++ button
       ++ axis_items ++ [Newline]).

(** The calls that [wl_pointer_listener] routes to the handlers above,
    [frame] apart. *)
Inductive fragment : Type :=
| FEnter (serial surface x y : Z)
| FLeave (serial surface : Z)
| FMotion (time x y : Z)
| FButton (serial time button state : Z)
| FAxis (time axis value : Z)
| FAxisSource (source : Z)
| FAxisStop (time axis : Z)
| FAxisDiscrete (axis discrete : Z).

Definition deliver (f : fragment) : M pointer_event unit :=
  match f with
  | FEnter serial surface x y => wl_pointer_enter serial surface x y
  | FLeave serial surface => wl_pointer_leave serial surface
  | FMotion time x y => wl_pointer_motion time x y
  | FButton serial time button state =>
      wl_pointer_button serial time button state
  | FAxis time axis value => wl_pointer_axis time axis value
  | FAxisSource source => wl_pointer_axis_source source
  | FAxisStop time axis => wl_pointer_axis_stop time axis
  | FAxisDiscrete axis discrete => wl_pointer_axis_discrete axis discrete
  end.

Fixpoint deliver_all (fs : list fragment) : M pointer_event unit :=
  match fs with
  | [] => ret tt
  | f :: fs' => deliver f ;; deliver_all fs'
  end.

(** One frame as the transport delivers it: the fragments, then [frame]. *)
Definition run_frame (fs : list fragment) : M pointer_event (list item) :=
  deliver_all fs ;; wl_pointer_frame.

(** *** Vocabulary for statements about a frame *)

Inductive field_kind : Type :=
| KEnter | KLeave | KMotion | KButton
| KAxis | KAxisSource | KAxisStop | KAxisDiscrete.

#[global] Instance field_kind_eq_dec : EqDecision field_kind.
Proof. solve_decision. Defined.

Definition kind_of (f : fragment) : field_kind :=
  match f with
  | FEnter _ _ _ _ => KEnter
  | FLeave _ _ => KLeave
  | FMotion _ _ _ => KMotion
  | FButton _ _ _ _ => KButton
  | FAxis _ _ _ => KAxis
  | FAxisSource _ => KAxisSource
  | FAxisStop _ _ => KAxisStop
  | FAxisDiscrete _ _ => KAxisDiscrete
  end.

Definition bit_of (k : field_kind) : Z :=
  match k with
  | KEnter => POINTER_EVENT_ENTER
  | KLeave => POINTER_EVENT_LEAVE
  | KMotion => POINTER_EVENT_MOTION
  | KButton => POINTER_EVENT_BUTTON
  | KAxis => POINTER_EVENT_AXIS
  | KAxisSource => POINTER_EVENT_AXIS_SOURCE
  | KAxisStop => POINTER_EVENT_AXIS_STOP
  | KAxisDiscrete => POINTER_EVENT_AXIS_DISCRETE
  end.

(** A fragment of kind [k] occurs in [fs]. *)
Definition touched (k : field_kind) (fs : list fragment) : bool :=
  existsb (fun f => bool_decide (kind_of f = k)) fs.

(** The axis a fragment addresses. *)
Definition axis_of (f : fragment) : option Z :=
  match f with
  | FAxis _ axis _ | FAxisStop _ axis | FAxisDiscrete axis _ => Some axis
  | _ => None
  end.

Definition axis_touched (i : nat) (fs : list fragment) : bool :=
  existsb (fun f => bool_decide (axis_of f = Some (Z.of_nat i))) fs.

(** [f] is an [axis] call on axis [i]. *)
Definition writes_value (i : nat) (f : fragment) : bool :=
  match f with
  | FAxis _ axis _ => bool_decide (axis = Z.of_nat i)
  | _ => false
  end.

(** [f] is a call that stores the pointer position. *)
Definition writes_position (f : fragment) : bool :=
  match f with
  | FEnter _ _ _ _ | FMotion _ _ _ => true
  | _ => false
  end.

(** What the protocol allows the transport to send: one of the two axes,
    one of the four axis sources. *)
Definition conforming (f : fragment) : Prop :=
  match f with
  | FAxis _ axis _ | FAxisStop _ axis | FAxisDiscrete axis _ => 0 <= axis < 2
  | FAxisSource source => 0 <= source < 4
  | _ => True
  end.

(** *** The accumulator as a function

    What the handlers compute when every array access is in range; the
    handlers are shown to agree with it on conforming fragments. *)

Definition absorb (f : fragment) (e : pointer_event) : pointer_event :=
  match f with
  | FEnter serial _ x y =>
      set_surface_y y (set_surface_x x (set_serial serial
        (set_event_mask (Z.lor (event_mask e) POINTER_EVENT_ENTER) e)))
  | FLeave serial _ =>
      set_event_mask (Z.lor (event_mask e) POINTER_EVENT_LEAVE)
        (set_serial serial e)
  | FMotion time x y =>
      set_surface_y y (set_surface_x x (set_time time
        (set_event_mask (Z.lor (event_mask e) POINTER_EVENT_MOTION) e)))
  | FButton serial time button state =>
      set_state state (set_button button (set_serial serial (set_time time
        (set_event_mask (Z.lor (event_mask e) POINTER_EVENT_BUTTON) e))))
  | FAxis time axis value =>
      set_axes
        (alter (fun a => set_value value (set_valid true a))
           (Z.to_nat axis) (axes e))
        (set_time time
           (set_event_mask (Z.lor (event_mask e) POINTER_EVENT_AXIS) e))
  | FAxisSource source =>
      set_axis_source source
        (set_event_mask (Z.lor (event_mask e) POINTER_EVENT_AXIS_SOURCE) e)
  | FAxisStop time axis =>
      set_axes (alter (set_valid true) (Z.to_nat axis) (axes e))
        (set_event_mask (Z.lor (event_mask e) POINTER_EVENT_AXIS_STOP)
           (set_time time e))
  | FAxisDiscrete axis discrete =>
      set_axes
        (alter (fun a => set_discrete discrete (set_valid true a))
           (Z.to_nat axis) (axes e))
        (set_event_mask (Z.lor (event_mask e) POINTER_EVENT_AXIS_DISCRETE) e)
  end.

Definition absorb_all (fs : list fragment) (e : pointer_event)
  : pointer_event :=
  fold_left (fun e f => absorb f e) fs e.

(** What a fragment does to the entry of axis [i]. *)
Definition entry_after (i : nat) (f : fragment) (a : axis_entry)
  : axis_entry :=
  match f with
  | FAxis _ axis value =>
      if bool_decide (axis = Z.of_nat i)
      then set_value value (set_valid true a) else a
  | FAxisStop _ axis =>
      if bool_decide (axis = Z.of_nat i) then set_valid true a else a
  | FAxisDiscrete axis discrete =>
      if bool_decide (axis = Z.of_nat i)
      then set_discrete discrete (set_valid true a) else a
  | _ => a
  end.

Definition entry_after_all (i : nat) (fs : list fragment) (a : axis_entry)
  : axis_entry :=
  fold_left (fun a f => entry_after i f a) fs a.

(** The fields printed for a valid axis; [via] is the name read from the
    source table. *)
Definition axis_fields (mask : Z) (a : axis_entry) (via : string)
  : list axis_field :=
  (if has mask POINTER_EVENT_AXIS then [AValue (value a)] else [])
  ++ (if has mask POINTER_EVENT_AXIS_DISCRETE
      then [ADiscrete (discrete a)] else [])
  ++ (if has mask POINTER_EVENT_AXIS_SOURCE then [AVia via] else [])
  ++ (if has mask POINTER_EVENT_AXIS_STOP then [AStopped] else []).

Definition axis_items (mask : Z) (a : axis_entry) (name via : string)
  : list item :=
  if valid a then [AxisReport name (axis_fields mask a via)] else [].

(** What [wl_pointer_frame] prints for a struct whose two axes are [a0]
    and [a1]. *)
Definition frame_items (e : pointer_event) (a0 a1 : axis_entry)
    (via : string) : list item :=
  [Header (time e)]
  ++ (if has (event_mask e) POINTER_EVENT_ENTER
      then [Entered (surface_x e) (surface_y e)] else [])
  ++ (if has (event_mask e) POINTER_EVENT_LEAVE then [Leave] else [])
  ++ (if has (event_mask e) POINTER_EVENT_MOTION
      then [Motion (surface_x e) (surface_y e)] else [])
  ++ (if has (event_mask e) POINTER_EVENT_BUTTON
      then [Button (button e)
              (if state e =? WL_POINTER_BUTTON_STATE_RELEASED
               then "released"%string else "pressed"%string)]
      else [])
  ++ (if has (event_mask e) axis_events
      then axis_items (event_mask e) a0 "vertical" via
           ++ axis_items (event_mask e) a1 "horizontal" via
      else [])
  ++ [Newline].

(** *** More vocabulary: the time and the button of a frame, several
    frames *)

(** The time a fragment stores, when it stores one. *)
Definition time_of (f : fragment) : option Z :=
  match f with
  | FMotion time _ _ | FButton _ time _ _ | FAxis time _ _
  | FAxisStop time _ => Some time
  | _ => None
  end.

(** The time the accumulator holds after [fs], when it held [t]. *)
Definition last_time (fs : list fragment) (t : Z) : Z :=
  fold_left (fun t f => default t (time_of f)) fs t.

(** [f] is a [button] call. *)
Definition writes_button (f : fragment) : bool :=
  match f with
  | FButton _ _ _ _ => true
  | _ => false
  end.

(** Frames one after the other, as the transport delivers them: what each
    [frame] call emitted. *)
Fixpoint run_frames (frames : list (list fragment))
  : M pointer_event (list (list item)) :=
  match frames with
  | [] => ret []
  | fs :: rest =>
      out <- run_frame fs ;;
      outs <- run_frames rest ;;
      ret (out :: outs)
  end.

End Pointer.

(** ** The process environment: descriptors, xkbcommon objects, output *)

(** A modifier mask as [xkb_state_update_mask] receives it. *)
Record mods : Type := {
  depressed : Z;
  latched : Z;
  locked : Z;
  group : Z
}.

Definition mods_zero : mods :=
  {| depressed := 0; latched := 0; locked := 0; group := 0 |}.

(** What xkbcommon computes from a keymap text.  The library is not part of
    the repository; the handlers are verified for every such library. *)
Class XkbLib : Type := {
  (** whether [xkb_keymap_new_from_string] accepts the text *)
  xkb_compiles : string -> bool;
  (** [xkb_state_key_get_syms] on a state of that keymap *)
  xkb_syms : string -> mods -> Z -> list Z;
  (** [xkb_state_key_get_one_sym] *)
  xkb_one_sym : string -> mods -> Z -> Z;
  (** [xkb_state_key_get_utf8] *)
  xkb_utf8 : string -> mods -> Z -> string;
  (** [xkb_keysym_get_name] *)
  xkb_keysym_name : Z -> string
}.

(** A reference-counted [struct xkb_keymap]. *)
Record keymap_obj : Type := {
  km_refcnt : nat;
  km_text : string
}.

(** A reference-counted [struct xkb_state]; it holds a reference on its
    keymap. *)
Record state_obj : Type := {
  st_refcnt : nat;
  st_keymap : nat;
  st_mods : mods
}.

(** What is behind a file descriptor. *)
Record file : Type := {
  content : string;
  mappable : bool
}.

Inductive proxy_kind : Type := PointerProxy | KeyboardProxy.

Record proxy : Type := {
  kind : proxy_kind;
  listening : bool
}.

Inductive request : Type :=
| GetPointer (id : nat)
| GetKeyboard (id : nat)
| PointerRelease (id : nat)
| KeyboardRelease (id : nat).

Record world : Type := {
  fds : gmap Z file;             (* open descriptors *)
  mappings : nat;                (* live mmap regions *)
  keymaps : gmap nat keymap_obj; (* live keymaps *)
  states : gmap nat state_obj;   (* live states *)
  next_id : nat;                 (* next xkb object *)
  state_alloc : list bool;       (* outcomes of the coming xkb_state_new *)
  proxies : gmap nat proxy;      (* live wl_pointer / wl_keyboard proxies *)
  next_proxy : nat;
  requests : list request;       (* requests sent to the compositor *)
  stdout : list string;
  stderr : list string
}.

Definition world_empty : world :=
  {| fds := ∅; mappings := 0%nat; keymaps := ∅; states := ∅;
     next_id := 0%nat; state_alloc := []; proxies := ∅;
     next_proxy := 0%nat; requests := []; stdout := []; stderr := [] |}.

Definition set_fds (v : gmap Z file) (w : world) : world :=
  {| fds := v; mappings := mappings w; keymaps := keymaps w;
     states := states w; next_id := next_id w;
     state_alloc := state_alloc w; proxies := proxies w;
     next_proxy := next_proxy w; requests := requests w;
     stdout := stdout w; stderr := stderr w |}.
Definition set_mappings (v : nat) (w : world) : world :=
  {| fds := fds w; mappings := v; keymaps := keymaps w;
     states := states w; next_id := next_id w;
     state_alloc := state_alloc w; proxies := proxies w;
     next_proxy := next_proxy w; requests := requests w;
     stdout := stdout w; stderr := stderr w |}.
Definition set_keymaps (v : gmap nat keymap_obj) (w : world) : world :=
  {| fds := fds w; mappings := mappings w; keymaps := v;
     states := states w; next_id := next_id w;
     state_alloc := state_alloc w; proxies := proxies w;
     next_proxy := next_proxy w; requests := requests w;
     stdout := stdout w; stderr := stderr w |}.
Definition set_states (v : gmap nat state_obj) (w : world) : world :=
  {| fds := fds w; mappings := mappings w; keymaps := keymaps w;
     states := v; next_id := next_id w;
     state_alloc := state_alloc w; proxies := proxies w;
     next_proxy := next_proxy w; requests := requests w;
     stdout := stdout w; stderr := stderr w |}.
Definition set_next_id (v : nat) (w : world) : world :=
  {| fds := fds w; mappings := mappings w; keymaps := keymaps w;
     states := states w; next_id := v;
     state_alloc := state_alloc w; proxies := proxies w;
     next_proxy := next_proxy w; requests := requests w;
     stdout := stdout w; stderr := stderr w |}.
Definition set_state_alloc (v : list bool) (w : world) : world :=
  {| fds := fds w; mappings := mappings w; keymaps := keymaps w;
     states := states w; next_id := next_id w;
     state_alloc := v; proxies := proxies w;
     next_proxy := next_proxy w; requests := requests w;
     stdout := stdout w; stderr := stderr w |}.
Definition set_proxies (v : gmap nat proxy) (w : world) : world :=
  {| fds := fds w; mappings := mappings w; keymaps := keymaps w;
     states := states w; next_id := next_id w;
     state_alloc := state_alloc w; proxies := v;
     next_proxy := next_proxy w; requests := requests w;
     stdout := stdout w; stderr := stderr w |}.
Definition set_next_proxy (v : nat) (w : world) : world :=
  {| fds := fds w; mappings := mappings w; keymaps := keymaps w;
     states := states w; next_id := next_id w;
     state_alloc := state_alloc w; proxies := proxies w;
     next_proxy := v; requests := requests w;
     stdout := stdout w; stderr := stderr w |}.
Definition set_requests (v : list request) (w : world) : world :=
  {| fds := fds w; mappings := mappings w; keymaps := keymaps w;
     states := states w; next_id := next_id w;
     state_alloc := state_alloc w; proxies := proxies w;
     next_proxy := next_proxy w; requests := v;
     stdout := stdout w; stderr := stderr w |}.
Definition set_stdout (v : list string) (w : world) : world :=
  {| fds := fds w; mappings := mappings w; keymaps := keymaps w;
     states := states w; next_id := next_id w;
     state_alloc := state_alloc w; proxies := proxies w;
     next_proxy := next_proxy w; requests := requests w;
     stdout := v; stderr := stderr w |}.
Definition set_stderr (v : list string) (w : world) : world :=
  {| fds := fds w; mappings := mappings w; keymaps := keymaps w;
     states := states w; next_id := next_id w;
     state_alloc := state_alloc w; proxies := proxies w;
     next_proxy := next_proxy w; requests := requests w;
     stdout := stdout w; stderr := v |}.

(** A handler works on its program's globals and on the environment. *)
Definition in_world {G A} (m : M world A) : M (G * world) A :=
  fun s => match m (snd s) with
           | Ok a w' => Ok a (fst s, w')
           | Fault f w' => Fault f (fst s, w')
           end.

Definition globals_get {G} : M (G * world) G := fun s => Ok (fst s) s.
Definition globals_set {G} (f : G -> G) : M (G * world) unit :=
  fun s => Ok tt (f (fst s), snd s).

(** [p == NULL] *)
Definition is_null {A} (p : option A) : bool :=
  match p with None => true | Some _ => false end.

(** [assert(b)] *)
Definition assert {S} (b : bool) (expr : string) : M S unit :=
  if b then ret tt else raise (AssertionFailed expr).

Definition nl : string := String (ascii_of_nat 10) EmptyString.

(** *** libc *)

Definition printf (s : string) : M world unit :=
  modify (fun w => set_stdout (stdout w ++ [s]) w).

Definition fprintf_stderr (s : string) : M world unit :=
  modify (fun w => set_stderr (stderr w ++ [s]) w).

(** [mmap(NULL, size, PROT_READ, MAP_SHARED, fd, 0)]: [None] is
    [MAP_FAILED], returned for a descriptor that is not open or that
    refuses to be mapped. *)
Definition mmap (size fd : Z) : M world (option string) :=
  fun w =>
    match fds w !! fd with
    | Some f =>
        if mappable f
        then Ok (Some (content f)) (set_mappings (S (mappings w)) w)
        else Ok None w
    | None => Ok None w
    end.

Definition munmap (size : Z) : M world unit :=
  modify (fun w => set_mappings (pred (mappings w)) w).

Definition close (fd : Z) : M world unit :=
  modify (fun w => set_fds (delete fd (fds w)) w).

(** [%d] of a 32-bit value and [%-12s]. *)
Definition fmt_d (z : Z) : string :=
  let v := u32 z in
  NilZero.string_of_int (Z.to_int (if v <? 2 ^ 31 then v else v - 2 ^ 32)).

Fixpoint spaces (n : nat) : string :=
  match n with
  | O => EmptyString
  | S n' => String " " (spaces n')
  end.

Definition fmt_s12 (s : string) : string :=
  String.append s (spaces (12 - String.length s)).

(** *** xkbcommon *)

Section Xkbcommon.
Context {lib : XkbLib}.

(** The entry points below dereference the objects they are given; only
    the two [unref] functions accept [NULL] (wl_keyboard_keymap relies on
    it the first time a keymap arrives). *)

Definition xkb_keymap_new_from_string (context : option nat) (text : string)
  : M world (option nat) :=
  match context with
  | None => raise (NullArgument "xkb_keymap_new_from_string")
  | Some _ =>
      if xkb_compiles text
      then fun w =>
             Ok (Some (next_id w))
               (set_next_id (S (next_id w))
                  (set_keymaps
                     (<[next_id w := {| km_refcnt := 1; km_text := text |}]>
                        (keymaps w)) w))
      else ret None
  end.

Definition xkb_keymap_unref (keymap : option nat) : M world unit :=
  match keymap with
  | None => ret tt
  | Some k =>
      fun w =>
        match keymaps w !! k with
        | None => Fault (DanglingObject "xkb_keymap_unref") w
        | Some o =>
            if (km_refcnt o <=? 1)%nat
            then Ok tt (set_keymaps (delete k (keymaps w)) w)
            else Ok tt (set_keymaps
                          (<[k := {| km_refcnt := pred (km_refcnt o);
                                     km_text := km_text o |}]> (keymaps w)) w)
        end
  end.

Definition xkb_state_new (keymap : option nat) : M world (option nat) :=
  match keymap with
  | None => raise (NullArgument "xkb_state_new")
  | Some k =>
      fun w =>
        match keymaps w !! k with
        | None => Fault (DanglingObject "xkb_state_new") w
        | Some o =>
            match state_alloc w with
            | false :: rest => Ok None (set_state_alloc rest w)
            | _ =>
                Ok (Some (next_id w))
                  (set_next_id (S (next_id w))
                     (set_state_alloc (tail (state_alloc w))
                        (set_states
                           (<[next_id w := {| st_refcnt := 1; st_keymap := k;
                                              st_mods := mods_zero |}]>
                              (states w))
                           (set_keymaps
                              (<[k := {| km_refcnt := S (km_refcnt o);
                                         km_text := km_text o |}]>
                                 (keymaps w)) w))))
            end
        end
  end.

Definition xkb_state_unref (state : option nat) : M world unit :=
  match state with
  | None => ret tt
  | Some s =>
      fun w =>
        match states w !! s with
        | None => Fault (DanglingObject "xkb_state_unref") w
        | Some o =>
            if (st_refcnt o <=? 1)%nat
            then xkb_keymap_unref (Some (st_keymap o))
                   (set_states (delete s (states w)) w)
            else Ok tt (set_states
                          (<[s := {| st_refcnt := pred (st_refcnt o);
                                     st_keymap := st_keymap o;
                                     st_mods := st_mods o |}]> (states w)) w)
        end
  end.

(** The keymap text and the modifiers a live state translates with. *)
Definition state_view (state : option nat) (callee : string)
  : M world (string * mods) :=
  match state with
  | None => raise (NullArgument callee)
  | Some s =>
      fun w =>
        match states w !! s with
        | None => Fault (DanglingObject callee) w
        | Some o =>
            match keymaps w !! st_keymap o with
            | None => Fault (DanglingObject callee) w
            | Some k => Ok (km_text k, st_mods o) w
            end
        end
  end.

(** [xkb_state_update_mask(state, depressed, latched, locked, 0, 0, group)]:
    the three layout arguments are the handlers' [0, 0, group]. *)
Definition xkb_state_update_mask (state : option nat)
    (mods_depressed mods_latched mods_locked : Z)
    (depressed_layout latched_layout locked_layout : Z) : M world unit :=
  match state with
  | None => raise (NullArgument "xkb_state_update_mask")
  | Some s =>
      fun w =>
        match states w !! s with
        | None => Fault (DanglingObject "xkb_state_update_mask") w
        | Some o =>
            Ok tt (set_states
                     (<[s := {| st_refcnt := st_refcnt o;
                                st_keymap := st_keymap o;
                                st_mods := {| depressed := mods_depressed;
                                              latched := mods_latched;
                                              locked := mods_locked;
                                              group := locked_layout |} |}]>
                        (states w)) w)
        end
  end.

Definition xkb_state_key_get_syms (state : option nat) (key : Z)
  : M world (list Z) :=
  v <- state_view state "xkb_state_key_get_syms" ;;
  ret (xkb_syms (fst v) (snd v) key).

Definition xkb_state_key_get_one_sym (state : option nat) (key : Z)
  : M world Z :=
  v <- state_view state "xkb_state_key_get_one_sym" ;;
  ret (xkb_one_sym (fst v) (snd v) key).

Definition xkb_state_key_get_utf8 (state : option nat) (key : Z)
  : M world string :=
  v <- state_view state "xkb_state_key_get_utf8" ;;
  ret (xkb_utf8 (fst v) (snd v) key).

End Xkbcommon.

(** The pair a translator holds is usable: nothing installed, or a live
    keymap alone (after a state could not be built), or a live keymap with
    a live state built from that same keymap, each holding a reference on
    it. *)
Definition installed (keymap xkb_state : option nat) (w : world) : Prop :=
  match keymap, xkb_state with
  | None, None => True
  | Some k, None => is_Some (keymaps w !! k)
  | Some k, Some s =>
      exists ko so,
        keymaps w !! k = Some ko /\ states w !! s = Some so
        /\ st_keymap so = k /\ (1 < km_refcnt ko)%nat
  | None, Some _ => False
  end.

(** The xkbcommon heap holds the translator's pair and nothing else: no
    object at all, or one keymap with the translator's reference, or one
    keymap referenced by the translator and by the one state. *)
Definition holds_only (keymap xkb_state : option nat) (w : world) : Prop :=
  match keymap, xkb_state with
  | None, None => keymaps w = ∅ /\ states w = ∅
  | Some k, None =>
      exists text,
        keymaps w = {[ k := {| km_refcnt := 1; km_text := text |} ]}
        /\ states w = ∅
  | Some k, Some s =>
      exists text m,
        keymaps w = {[ k := {| km_refcnt := 2; km_text := text |} ]}
        /\ states w = {[ s := {| st_refcnt := 1; st_keymap := k;
                                 st_mods := m |} ]}
  | None, Some _ => False
  end.

(** Descriptor [fd] is not open. *)
Definition closed (fd : Z) (w : world) : Prop := fds w !! fd = None.

(** The part of the environment that xkbcommon does not own. *)
Definition outside_heap (w : world) :=
  (fds w, mappings w, next_id w, state_alloc w, proxies w, next_proxy w,
   requests w, stdout w, stderr w).

(** Object identifiers are handed out in increasing order. *)
Definition heap_ok (w : world) : Prop :=
  (forall id o, keymaps w !! id = Some o -> (id < next_id w)%nat)
  /\ (forall id o, states w !! id = Some o -> (id < next_id w)%nat).

(** Protocol and keysym constants (wayland-client-protocol.h,
    xkbcommon-keysyms.h). *)
Definition WL_KEYBOARD_KEY_STATE_PRESSED : Z := 1.
Definition WL_KEYBOARD_KEYMAP_FORMAT_XKB_V1 : Z := 1.
Definition WL_SEAT_CAPABILITY_POINTER : Z := 1.
Definition WL_SEAT_CAPABILITY_KEYBOARD : Z := 2.
Definition XKB_KEY_BackSpace : Z := 0xff08.

(** ** gettext.c *)

Module Gettext.

(** [struct globals], input part. *)
Record globals : Type := {
  keyboard : option nat;
  pointer : option nat;
  touch : option nat;
  error : bool;
  xkb_context : option nat;
  keymap : option nat;
  xkb_state : option nat;
  focused_surface : option Z
}.

(** [struct globals globals = {0};] *)
Definition globals_zero : globals :=
  {| keyboard := None; pointer := None; touch := None; error := false;
     xkb_context := None; keymap := None; xkb_state := None;
     focused_surface := None |}.

Definition set_error (v : bool) (g : globals) : globals :=
  {| keyboard := keyboard g; pointer := pointer g; touch := touch g;
     error := v; xkb_context := xkb_context g; keymap := keymap g;
     xkb_state := xkb_state g; focused_surface := focused_surface g |}.
Definition set_xkb_context (v : option nat) (g : globals) : globals :=
  {| keyboard := keyboard g; pointer := pointer g; touch := touch g;
     error := error g; xkb_context := v; keymap := keymap g;
     xkb_state := xkb_state g; focused_surface := focused_surface g |}.
Definition set_keymap (v : option nat) (g : globals) : globals :=
  {| keyboard := keyboard g; pointer := pointer g; touch := touch g;
     error := error g; xkb_context := xkb_context g; keymap := v;
     xkb_state := xkb_state g; focused_surface := focused_surface g |}.
Definition set_xkb_state (v : option nat) (g : globals) : globals :=
  {| keyboard := keyboard g; pointer := pointer g; touch := touch g;
     error := error g; xkb_context := xkb_context g; keymap := keymap g;
     xkb_state := v; focused_surface := focused_surface g |}.
Definition set_focused_surface (v : option Z) (g : globals) : globals :=
  {| keyboard := keyboard g; pointer := pointer g; touch := touch g;
     error := error g; xkb_context := xkb_context g; keymap := keymap g;
     xkb_state := xkb_state g; focused_surface := v |}.

Section Handlers.
Context {lib : XkbLib}.

Definition errorOccurred : M (globals * world) unit :=
  globals_set (set_error true).

Definition keyboard_handle_keymap (format fd size : Z)
  : M (globals * world) unit :=
  keymap_string <- in_world (mmap size fd) ;;
  match keymap_string with
  | None =>
      in_world (fprintf_stderr (String.append "Failed to mmap keymap" nl)) ;;
      in_world (close fd)
  | Some text =>
      g <- globals_get ;;
      new_keymap <- in_world (xkb_keymap_new_from_string (xkb_context g) text) ;;
      in_world (munmap size) ;;
      in_world (close fd) ;;
      match new_keymap with
      | None =>
          in_world
            (fprintf_stderr (String.append "Failed to compile keymap" nl)) ;;
          errorOccurred
      | Some _ =>
          g <- globals_get ;;
          when (negb (is_null (xkb_state g)))
            (in_world (xkb_state_unref (xkb_state g))) ;;
          when (negb (is_null (keymap g)))
            (in_world (xkb_keymap_unref (keymap g))) ;;
          globals_set (set_keymap new_keymap) ;;
          new_state <- in_world (xkb_state_new new_keymap) ;;
          globals_set (set_xkb_state new_state) ;;
          when (is_null new_state)
            (in_world
               (fprintf_stderr
                  (String.append "Failed to create XKB state" nl)) ;;
             errorOccurred)
      end
  end.

Definition pressed_or_released (state : Z) : string :=
  if state =? WL_KEYBOARD_KEY_STATE_PRESSED then "pressed" else "released".

(** What [keyboard_handle_key] prints for the symbols of a key. *)
Definition key_report (syms : list Z) (state : Z) : list string :=
  match syms with
  | [] => []
  | sym :: _ =>
      if sym =? XKB_KEY_BackSpace
      then [String.append "Backspace "
              (String.append (pressed_or_released state) nl)]
      else [String.append "Key "
              (String.append (xkb_keysym_name sym)
                 (String.append " "
                    (String.append (pressed_or_released state) nl)))]
  end.

(** The environment after [lines] went to stdout. *)
Definition emit_stdout (lines : list string) (w : world) : world :=
  match lines with
  | [] => w
  | _ :: _ => set_stdout (stdout w ++ lines) w
  end.

Definition keyboard_handle_key (serial time key state : Z)
  : M (globals * world) unit :=
  g <- globals_get ;;
  let keycode := u32 (key + 8) in
  syms <- in_world (xkb_state_key_get_syms (xkb_state g) keycode) ;;
  match syms with
  | [] => ret tt
  | sym :: _ =>
      if sym =? XKB_KEY_BackSpace
      then
        if state =? WL_KEYBOARD_KEY_STATE_PRESSED
        then in_world (printf (String.append "Backspace pressed" nl))
        else in_world (printf (String.append "Backspace released" nl))
      else
        let name := xkb_keysym_name sym in
        in_world
          (printf (String.append "Key "
                     (String.append name
                        (String.append " "
                           (String.append
                              (if state =? WL_KEYBOARD_KEY_STATE_PRESSED
                               then "pressed" else "released") nl)))))
  end.

Definition keyboard_handle_enter (serial surface : Z) (keys : list Z)
  : M (globals * world) unit :=
  globals_set (set_focused_surface (Some surface)) ;;
  in_world (printf (String.append "Keyboard entered a surface" nl)).

Definition keyboard_handle_leave (serial surface : Z)
  : M (globals * world) unit :=
  globals_set (set_focused_surface None) ;;
  in_world (printf (String.append "Keyboard left a surface" nl)).

Definition keyboard_handle_modifiers
    (serial mods_depressed mods_latched mods_locked group : Z)
  : M (globals * world) unit :=
  g <- globals_get ;;
  in_world (xkb_state_update_mask (xkb_state g)
              mods_depressed mods_latched mods_locked 0 0 group).

(** The events that [keyboard_listener] routes. *)
Inductive event : Type :=
| Keymap (format fd size : Z)
| Enter (serial surface : Z) (keys : list Z)
| Leave (serial surface : Z)
| Key (serial time key state : Z)
| Modifiers (serial mods_depressed mods_latched mods_locked group : Z).

Definition keyboard_listener (e : event) : M (globals * world) unit :=
  match e with
  | Keymap format fd size => keyboard_handle_keymap format fd size
  | Enter serial surface keys => keyboard_handle_enter serial surface keys
  | Leave serial surface => keyboard_handle_leave serial surface
  | Key serial time key state => keyboard_handle_key serial time key state
  | Modifiers serial d l k g => keyboard_handle_modifiers serial d l k g
  end.

Fixpoint dispatch_all (batch : list event) : M (globals * world) unit :=
  match batch with
  | [] => ret tt
  | e :: batch' => keyboard_listener e ;; dispatch_all batch'
  end.

(** The surface that has the keyboard focus after the events of [batch],
    [focus] having it before: the surface of the last enter event that no
    leave event follows. *)
Definition focus_after (batch : list event) (focus : option Z) : option Z :=
  fold_left
    (fun f e =>
       match e with
       | Enter _ surface _ => Some surface
       | Leave _ _ => None
       | _ => f
       end) batch focus.

(** The loop of [main]:
    [while (wl_display_dispatch(display) != -1 && !globals.error)].
    The connection is the list of what the coming calls of
    [wl_display_dispatch] do: [Some batch] delivers the events of [batch]
    to the listener, [None] is the return value -1, as is the end of the
    list.  The loop returns what it left on the connection. *)
Fixpoint event_loop (incoming : list (option (list event)))
  : M (globals * world) (list (option (list event))) :=
  match incoming with
  | [] => ret []
  | None :: rest => ret rest
  | Some batch :: rest =>
      dispatch_all batch ;;
      g <- globals_get ;;
      if error g then ret rest else event_loop rest
  end.

(** The xkb part of the cleanup that follows the loop. *)
Definition cleanup : M (globals * world) unit :=
  g <- globals_get ;;
  when (negb (is_null (xkb_state g)))
    (in_world (xkb_state_unref (xkb_state g))) ;;
  when (negb (is_null (keymap g)))
    (in_world (xkb_keymap_unref (keymap g))).

Definition main_loop (incoming : list (option (list event)))
  : M (globals * world) (list (option (list event))) :=
  rest <- event_loop incoming ;;
  cleanup ;;
  ret rest.

End Handlers.

(** What the keyboard listener works on once the seat listener has made
    the context: the xkbcommon heap holds the translator's pair and nothing
    else. *)
Definition tidy (s : globals * world) : Prop :=
  is_Some (xkb_context (fst s))
  /\ holds_only (keymap (fst s)) (xkb_state (fst s)) (snd s)
  /\ heap_ok (snd s).

(** The same without the context, which [seat_handle_capabilities] leaves
    null when it cannot be created. *)
Definition owns_heap (s : globals * world) : Prop :=
  holds_only (keymap (fst s)) (xkb_state (fst s)) (snd s)
  /\ heap_ok (snd s).

End Gettext.

(** ** The seat listener of gettext.c *)

Module GettextSeat.
Import Gettext.

Definition WL_SEAT_CAPABILITY_TOUCH : Z := 4.

Inductive device : Type := KeyboardDevice | PointerDevice | TouchDevice.

(** What the seat listener works on besides the globals: the proxies the
    seat has handed out, the keyboards that have a listener, the xkb
    contexts, the two output streams.  Proxies and contexts are numbered
    from one counter. *)
Record seat_env : Type := {
  devices : gmap nat device;
  listening_keyboards : gset nat;
  contexts : gset nat;
  next_object : nat;
  context_alloc : list bool;   (* outcomes of the coming xkb_context_new *)
  seat_stdout : list string;
  seat_stderr : list string
}.

Definition seat_env_empty : seat_env :=
  {| devices := ∅; listening_keyboards := ∅; contexts := ∅;
     next_object := 0%nat; context_alloc := []; seat_stdout := [];
     seat_stderr := [] |}.

Definition set_devices (v : gmap nat device) (e : seat_env) : seat_env :=
  {| devices := v; listening_keyboards := listening_keyboards e;
     contexts := contexts e; next_object := next_object e;
     context_alloc := context_alloc e; seat_stdout := seat_stdout e;
     seat_stderr := seat_stderr e |}.
Definition set_listening_keyboards (v : gset nat) (e : seat_env) : seat_env :=
  {| devices := devices e; listening_keyboards := v;
     contexts := contexts e; next_object := next_object e;
     context_alloc := context_alloc e; seat_stdout := seat_stdout e;
     seat_stderr := seat_stderr e |}.
Definition set_contexts (v : gset nat) (e : seat_env) : seat_env :=
  {| devices := devices e; listening_keyboards := listening_keyboards e;
     contexts := v; next_object := next_object e;
     context_alloc := context_alloc e; seat_stdout := seat_stdout e;
     seat_stderr := seat_stderr e |}.
Definition set_next_object (v : nat) (e : seat_env) : seat_env :=
  {| devices := devices e; listening_keyboards := listening_keyboards e;
     contexts := contexts e; next_object := v;
     context_alloc := context_alloc e; seat_stdout := seat_stdout e;
     seat_stderr := seat_stderr e |}.
Definition set_context_alloc (v : list bool) (e : seat_env) : seat_env :=
  {| devices := devices e; listening_keyboards := listening_keyboards e;
     contexts := contexts e; next_object := next_object e;
     context_alloc := v; seat_stdout := seat_stdout e;
     seat_stderr := seat_stderr e |}.
Definition set_seat_stdout (v : list string) (e : seat_env) : seat_env :=
  {| devices := devices e; listening_keyboards := listening_keyboards e;
     contexts := contexts e; next_object := next_object e;
     context_alloc := context_alloc e; seat_stdout := v;
     seat_stderr := seat_stderr e |}.
Definition set_seat_stderr (v : list string) (e : seat_env) : seat_env :=
  {| devices := devices e; listening_keyboards := listening_keyboards e;
     contexts := contexts e; next_object := next_object e;
     context_alloc := context_alloc e; seat_stdout := seat_stdout e;
     seat_stderr := v |}.

Definition set_keyboard (v : option nat) (g : globals) : globals :=
  {| keyboard := v; pointer := pointer g; touch := touch g;
     error := error g; xkb_context := xkb_context g; keymap := keymap g;
     xkb_state := xkb_state g; focused_surface := focused_surface g |}.
Definition set_pointer (v : option nat) (g : globals) : globals :=
  {| keyboard := keyboard g; pointer := v; touch := touch g;
     error := error g; xkb_context := xkb_context g; keymap := keymap g;
     xkb_state := xkb_state g; focused_surface := focused_surface g |}.
Definition set_touch (v : option nat) (g : globals) : globals :=
  {| keyboard := keyboard g; pointer := pointer g; touch := v;
     error := error g; xkb_context := xkb_context g; keymap := keymap g;
     xkb_state := xkb_state g; focused_surface := focused_surface g |}.

(** The handler works on the globals and on this environment. *)
Definition in_env {A} (m : M seat_env A) : M (globals * seat_env) A :=
  fun s => match m (snd s) with
           | Ok a e' => Ok a (fst s, e')
           | Fault f e' => Fault f (fst s, e')
           end.

Definition update (f : globals -> globals) : M (globals * seat_env) unit :=
  fun s => Ok tt (f (fst s), snd s).

(** [wl_seat_get_keyboard], [wl_seat_get_pointer], [wl_seat_get_touch] *)
Definition wl_seat_get (d : device) : M seat_env nat :=
  fun e =>
    Ok (next_object e)
      (set_next_object (S (next_object e))
         (set_devices (<[next_object e := d]> (devices e)) e)).

Definition wl_keyboard_add_listener (k : nat) : M seat_env unit :=
  modify (fun e => set_listening_keyboards ({[k]} ∪ listening_keyboards e) e).

(** [xkb_context_new(XKB_CONTEXT_NO_FLAGS)]: [None] is [NULL]. *)
Definition xkb_context_new : M seat_env (option nat) :=
  fun e =>
    match context_alloc e with
    | false :: rest => Ok None (set_context_alloc rest e)
    | _ =>
        Ok (Some (next_object e))
          (set_next_object (S (next_object e))
             (set_context_alloc (tail (context_alloc e))
                (set_contexts ({[next_object e]} ∪ contexts e) e)))
    end.

Definition seat_printf (line : string) : M seat_env unit :=
  modify (fun e => set_seat_stdout (seat_stdout e ++ [line]) e).
Definition seat_fprintf_stderr (line : string) : M seat_env unit :=
  modify (fun e => set_seat_stderr (seat_stderr e ++ [line]) e).

(** [errorOccurred(globals)] *)
Definition errorOccurred : M (globals * seat_env) unit :=
  update (set_error true).

(** The pointer and the touch part of [seat_handle_capabilities], which
    the early [return] of the keyboard part skips. *)
Definition pointer_and_touch (caps : Z) : M (globals * seat_env) unit :=
  (if has caps WL_SEAT_CAPABILITY_POINTER
   then
     p <- in_env (wl_seat_get PointerDevice) ;;
     update (set_pointer (Some p)) ;;
     in_env (seat_printf (String.append "Pointer capability present" nl))
   else update (set_pointer None)) ;;
  if has caps WL_SEAT_CAPABILITY_TOUCH
  then
    t <- in_env (wl_seat_get TouchDevice) ;;
    update (set_touch (Some t)) ;;
    in_env (seat_printf (String.append "Touch capability present" nl))
  else update (set_touch None).

Definition seat_handle_capabilities (caps : Z) : M (globals * seat_env) unit :=
  if has caps WL_SEAT_CAPABILITY_KEYBOARD
  then
    k <- in_env (wl_seat_get KeyboardDevice) ;;
    update (set_keyboard (Some k)) ;;
    in_env (wl_keyboard_add_listener k) ;;
    in_env (seat_printf (String.append "Keyboard capability present" nl)) ;;
    context <- in_env xkb_context_new ;;
    update (set_xkb_context context) ;;
    if is_null context
    then
      in_env
        (seat_fprintf_stderr
           (String.append "Failed to create XKB context" nl)) ;;
      errorOccurred
    else pointer_and_touch caps
  else
    update (set_keyboard None) ;;
    errorOccurred ;;
    pointer_and_touch caps.

(** How many of the three devices a capabilities word announces. *)
Definition announced (caps : Z) : nat :=
  ((if has caps WL_SEAT_CAPABILITY_KEYBOARD then 1 else 0)
   + (if has caps WL_SEAT_CAPABILITY_POINTER then 1 else 0)
   + (if has caps WL_SEAT_CAPABILITY_TOUCH then 1 else 0))%nat.

(** Object identifiers are handed out in increasing order. *)
Definition seat_ok (e : seat_env) : Prop :=
  (forall id, is_Some (devices e !! id) -> (id < next_object e)%nat)
  /\ (forall id, id ∈ contexts e -> (id < next_object e)%nat).

End GettextSeat.

(** ** The keyboard and seat listeners of waylandbook.example.c *)

Module Book.

(** [struct client_state], input part. *)
Record client_state : Type := {
  wl_keyboard : option nat;
  wl_pointer : option nat;
  pointer_event : Pointer.pointer_event;
  xkb_state : option nat;
  xkb_context : option nat;
  xkb_keymap : option nat
}.

Definition set_wl_keyboard (v : option nat) (c : client_state) : client_state :=
  {| wl_keyboard := v; wl_pointer := wl_pointer c;
     pointer_event := pointer_event c; xkb_state := xkb_state c;
     xkb_context := xkb_context c; xkb_keymap := xkb_keymap c |}.
Definition set_wl_pointer (v : option nat) (c : client_state) : client_state :=
  {| wl_keyboard := wl_keyboard c; wl_pointer := v;
     pointer_event := pointer_event c; xkb_state := xkb_state c;
     xkb_context := xkb_context c; xkb_keymap := xkb_keymap c |}.
Definition set_xkb_state (v : option nat) (c : client_state) : client_state :=
  {| wl_keyboard := wl_keyboard c; wl_pointer := wl_pointer c;
     pointer_event := pointer_event c; xkb_state := v;
     xkb_context := xkb_context c; xkb_keymap := xkb_keymap c |}.
Definition set_xkb_keymap (v : option nat) (c : client_state) : client_state :=
  {| wl_keyboard := wl_keyboard c; wl_pointer := wl_pointer c;
     pointer_event := pointer_event c; xkb_state := xkb_state c;
     xkb_context := xkb_context c; xkb_keymap := v |}.

(** *** libwayland-client requests used by the seat listener *)

Definition wl_seat_get (k : proxy_kind) : M world nat :=
  fun w =>
    Ok (next_proxy w)
      (set_next_proxy (S (next_proxy w))
         (set_requests
            (requests w ++ [match k with
                            | PointerProxy => GetPointer (next_proxy w)
                            | KeyboardProxy => GetKeyboard (next_proxy w)
                            end])
            (set_proxies
               (<[next_proxy w := {| kind := k; listening := false |}]>
                  (proxies w)) w))).

Definition wl_seat_get_pointer : M world nat := wl_seat_get PointerProxy.
Definition wl_seat_get_keyboard : M world nat := wl_seat_get KeyboardProxy.

Definition add_listener (p : nat) (callee : string) : M world unit :=
  fun w =>
    match proxies w !! p with
    | None => Fault (DanglingObject callee) w
    | Some o =>
        Ok tt (set_proxies
                 (<[p := {| kind := kind o; listening := true |}]>
                    (proxies w)) w)
    end.

Definition wl_pointer_add_listener (p : nat) : M world unit :=
  add_listener p "wl_pointer_add_listener".
Definition wl_keyboard_add_listener (p : nat) : M world unit :=
  add_listener p "wl_keyboard_add_listener".

Definition proxy_release (p : option nat) (r : nat -> request)
    (callee : string) : M world unit :=
  match p with
  | None => raise (NullArgument callee)
  | Some id =>
      fun w =>
        match proxies w !! id with
        | None => Fault (DanglingObject callee) w
        | Some _ =>
            Ok tt (set_requests (requests w ++ [r id])
                     (set_proxies (delete id (proxies w)) w))
        end
  end.

Definition wl_pointer_release (p : option nat) : M world unit :=
  proxy_release p PointerRelease "wl_pointer_release".
Definition wl_keyboard_release (p : option nat) : M world unit :=
  proxy_release p KeyboardRelease "wl_keyboard_release".

Definition wl_seat_capabilities (capabilities : Z)
  : M (client_state * world) unit :=
  state <- globals_get ;;
  let have_pointer := has capabilities WL_SEAT_CAPABILITY_POINTER in
  (if have_pointer && is_null (wl_pointer state)
   then
     p <- in_world wl_seat_get_pointer ;;
     globals_set (set_wl_pointer (Some p)) ;;
     in_world (wl_pointer_add_listener p)
   else if negb have_pointer && negb (is_null (wl_pointer state))
   then
     in_world (wl_pointer_release (wl_pointer state)) ;;
     globals_set (set_wl_pointer None)
   else ret tt) ;;
  state <- globals_get ;;
  let have_keyboard := has capabilities WL_SEAT_CAPABILITY_KEYBOARD in
  if have_keyboard && is_null (wl_keyboard state)
  then
    k <- in_world wl_seat_get_keyboard ;;
    globals_set (set_wl_keyboard (Some k)) ;;
    in_world (wl_keyboard_add_listener k)
  else if negb have_keyboard && negb (is_null (wl_keyboard state))
  then
    in_world (wl_keyboard_release (wl_keyboard state)) ;;
    globals_set (set_wl_keyboard None)
  else ret tt.

(** The proxies the client holds are live, each of its kind, and proxy
    identifiers are handed out in increasing order. *)
Definition attached (c : client_state) (w : world) : Prop :=
  (forall p, wl_pointer c = Some p ->
     exists o, proxies w !! p = Some o /\ kind o = PointerProxy)
  /\ (forall k, wl_keyboard c = Some k ->
        exists o, proxies w !! k = Some o /\ kind o = KeyboardProxy)
  /\ (forall id, is_Some (proxies w !! id) -> (id < next_proxy w)%nat).

(** The requests a capabilities event calls for: get a device that is
    announced and not held, release one that is held and no longer
    announced. *)
Definition pointer_requests (capabilities : Z) (c : client_state)
    (w : world) : list request :=
  match wl_pointer c with
  | None =>
      if has capabilities WL_SEAT_CAPABILITY_POINTER
      then [GetPointer (next_proxy w)] else []
  | Some p =>
      if has capabilities WL_SEAT_CAPABILITY_POINTER
      then [] else [PointerRelease p]
  end.

Definition keyboard_requests (capabilities : Z) (c : client_state)
    (w : world) : list request :=
  match wl_keyboard c with
  | None =>
      if has capabilities WL_SEAT_CAPABILITY_KEYBOARD
      then [GetKeyboard
              (if is_null (wl_pointer c)
                  && has capabilities WL_SEAT_CAPABILITY_POINTER
               then S (next_proxy w) else next_proxy w)]
      else []
  | Some k =>
      if has capabilities WL_SEAT_CAPABILITY_KEYBOARD
      then [] else [KeyboardRelease k]
  end.

Section Handlers.
Context {lib : XkbLib}.

Definition wl_keyboard_keymap (format fd size : Z)
  : M (client_state * world) unit :=
  assert (format =? WL_KEYBOARD_KEYMAP_FORMAT_XKB_V1)
    "format == WL_KEYBOARD_KEYMAP_FORMAT_XKB_V1" ;;
  map_shm <- in_world (mmap size fd) ;;
  match map_shm with
  | None => raise (AssertionFailed "map_shm != MAP_FAILED")
  | Some text =>
      c <- globals_get ;;
      new_keymap <- in_world (xkb_keymap_new_from_string (xkb_context c) text) ;;
      in_world (munmap size) ;;
      in_world (close fd) ;;
      new_state <- in_world (xkb_state_new new_keymap) ;;
      in_world (xkb_keymap_unref (xkb_keymap c)) ;;
      in_world (xkb_state_unref (xkb_state c)) ;;
      globals_set (set_xkb_keymap new_keymap) ;;
      globals_set (set_xkb_state new_state)
  end.

(** The two [fprintf] of [wl_keyboard_key]. *)
Definition key_line (action name : string) (sym : Z) : string :=
  String.append "[DEBUG] key "
    (String.append action
       (String.append ": sym: "
          (String.append (fmt_s12 name)
             (String.append " ("
                (String.append (fmt_d sym) "), "))))).

Definition utf8_line (text : string) : string :=
  String.append "[DEBUG] utf8: '"
    (String.append text (String.append "'" nl)).

Definition wl_keyboard_key (serial time key state : Z)
  : M (client_state * world) unit :=
  c <- globals_get ;;
  let keycode := u32 (key + 8) in
  sym <- in_world (xkb_state_key_get_one_sym (xkb_state c) keycode) ;;
  let name := xkb_keysym_name sym in
  let action :=
    if state =? WL_KEYBOARD_KEY_STATE_PRESSED
    then "press"%string else "release"%string in
  in_world (fprintf_stderr (key_line action name sym)) ;;
  text <- in_world (xkb_state_key_get_utf8 (xkb_state c) keycode) ;;
  in_world (fprintf_stderr (utf8_line text)).

Definition wl_keyboard_modifiers
    (serial mods_depressed mods_latched mods_locked group : Z)
  : M (client_state * world) unit :=
  c <- globals_get ;;
  in_world (xkb_state_update_mask (xkb_state c)
              mods_depressed mods_latched mods_locked 0 0 group).

(** The first [fprintf] of the loop of [wl_keyboard_enter]. *)
Definition sym_line (name : string) (sym : Z) : string :=
  String.append "[DEBUG] sym: "
    (String.append (fmt_s12 name)
       (String.append " ("
          (String.append (fmt_d sym) "), "))).

(** [wl_array_for_each(key, keys)] over an array of [uint32_t]. *)
Fixpoint wl_array_for_each {S} (keys : list Z) (body : Z -> M S unit)
  : M S unit :=
  match keys with
  | [] => ret tt
  | key :: keys' => body key ;; wl_array_for_each keys' body
  end.

Definition wl_keyboard_enter (serial surface : Z) (keys : list Z)
  : M (client_state * world) unit :=
  in_world
    (fprintf_stderr
       (String.append "[DEBUG] keyboard enter; keys pressed are:" nl)) ;;
  wl_array_for_each keys
    (fun key =>
       c <- globals_get ;;
       sym <- in_world
                (xkb_state_key_get_one_sym (xkb_state c) (u32 (key + 8))) ;;
       let name := xkb_keysym_name sym in
       in_world (fprintf_stderr (sym_line name sym)) ;;
       text <- in_world
                 (xkb_state_key_get_utf8 (xkb_state c) (u32 (key + 8))) ;;
       in_world (fprintf_stderr (utf8_line text))).

Definition wl_keyboard_leave (serial surface : Z)
  : M (client_state * world) unit :=
  in_world (fprintf_stderr (String.append "[DEBUG] keyboard leave" nl)).

End Handlers.

End Book.

(** ** Shared memory and the frame of waylandbook.example.c *)

Module Shm.

(** errno.h, wayland-client-protocol.h *)
Definition EINTR : Z := 4.
Definition EBADF : Z := 9.
Definition EEXIST : Z := 17.
Definition WL_SHM_FORMAT_XRGB8888 : Z := 1.

(** What the compositor knows of a [wl_buffer]. *)
Record wl_buffer : Type := {
  buf_object : nat;
  buf_offset : Z;
  buf_width : Z;
  buf_height : Z;
  buf_stride : Z;
  buf_format : Z;
  buf_listening : bool
}.

(** What [draw_frame] and the functions under it work on. *)
Record shm_env : Type := {
  (* tv_nsec of the coming clock_gettime calls *)
  clock : list Z;
  (* names in the shared memory namespace *)
  shm_names : gset string;
  (* errno of the coming shm_open calls on a free name, 0 for success *)
  shm_open_errno : list Z;
  (* errno of the coming ftruncate calls, 0 for success *)
  ftruncate_errno : list Z;
  (* whether the coming mmap calls fail *)
  mmap_refused : list bool;
  (* errno *)
  errno : Z;
  (* open descriptors and the object behind each *)
  open_fds : gmap Z nat;
  (* next descriptor *)
  next_fd : nat;
  (* shared memory objects, as 32-bit words *)
  objects : gmap nat (list Z);
  (* objects that are mapped, one entry for each mapping *)
  mappings : list nat;
  (* wl_shm_pool proxies and the object behind each *)
  pools : gmap nat nat;
  (* wl_buffer proxies *)
  buffers : gmap nat wl_buffer;
  (* next object, pool or buffer *)
  next_object : nat
}.

Definition shm_env_empty : shm_env :=
  {| clock := [];
     shm_names := ∅;
     shm_open_errno := [];
     ftruncate_errno := [];
     mmap_refused := [];
     errno := 0;
     open_fds := ∅;
     next_fd := 0%nat;
     objects := ∅;
     mappings := [];
     pools := ∅;
     buffers := ∅;
     next_object := 0%nat |}.

Definition set_clock (v : list Z) (e : shm_env) : shm_env :=
  {| clock := v;
     shm_names := shm_names e;
     shm_open_errno := shm_open_errno e;
     ftruncate_errno := ftruncate_errno e;
     mmap_refused := mmap_refused e;
     errno := errno e;
     open_fds := open_fds e;
     next_fd := next_fd e;
     objects := objects e;
     mappings := mappings e;
     pools := pools e;
     buffers := buffers e;
     next_object := next_object e |}.
Definition set_shm_names (v : gset string) (e : shm_env) : shm_env :=
  {| clock := clock e;
     shm_names := v;
     shm_open_errno := shm_open_errno e;
     ftruncate_errno := ftruncate_errno e;
     mmap_refused := mmap_refused e;
     errno := errno e;
     open_fds := open_fds e;
     next_fd := next_fd e;
     objects := objects e;
     mappings := mappings e;
     pools := pools e;
     buffers := buffers e;
     next_object := next_object e |}.
Definition set_shm_open_errno (v : list Z) (e : shm_env) : shm_env :=
  {| clock := clock e;
     shm_names := shm_names e;
     shm_open_errno := v;
     ftruncate_errno := ftruncate_errno e;
     mmap_refused := mmap_refused e;
     errno := errno e;
     open_fds := open_fds e;
     next_fd := next_fd e;
     objects := objects e;
     mappings := mappings e;
     pools := pools e;
     buffers := buffers e;
     next_object := next_object e |}.
Definition set_ftruncate_errno (v : list Z) (e : shm_env) : shm_env :=
  {| clock := clock e;
     shm_names := shm_names e;
     shm_open_errno := shm_open_errno e;
     ftruncate_errno := v;
     mmap_refused := mmap_refused e;
     errno := errno e;
     open_fds := open_fds e;
     next_fd := next_fd e;
     objects := objects e;
     mappings := mappings e;
     pools := pools e;
     buffers := buffers e;
     next_object := next_object e |}.
Definition set_mmap_refused (v : list bool) (e : shm_env) : shm_env :=
  {| clock := clock e;
     shm_names := shm_names e;
     shm_open_errno := shm_open_errno e;
     ftruncate_errno := ftruncate_errno e;
     mmap_refused := v;
     errno := errno e;
     open_fds := open_fds e;
     next_fd := next_fd e;
     objects := objects e;
     mappings := mappings e;
     pools := pools e;
     buffers := buffers e;
     next_object := next_object e |}.
Definition set_errno (v : Z) (e : shm_env) : shm_env :=
  {| clock := clock e;
     shm_names := shm_names e;
     shm_open_errno := shm_open_errno e;
     ftruncate_errno := ftruncate_errno e;
     mmap_refused := mmap_refused e;
     errno := v;
     open_fds := open_fds e;
     next_fd := next_fd e;
     objects := objects e;
     mappings := mappings e;
     pools := pools e;
     buffers := buffers e;
     next_object := next_object e |}.
Definition set_open_fds (v : gmap Z nat) (e : shm_env) : shm_env :=
  {| clock := clock e;
     shm_names := shm_names e;
     shm_open_errno := shm_open_errno e;
     ftruncate_errno := ftruncate_errno e;
     mmap_refused := mmap_refused e;
     errno := errno e;
     open_fds := v;
     next_fd := next_fd e;
     objects := objects e;
     mappings := mappings e;
     pools := pools e;
     buffers := buffers e;
     next_object := next_object e |}.
Definition set_next_fd (v : nat) (e : shm_env) : shm_env :=
  {| clock := clock e;
     shm_names := shm_names e;
     shm_open_errno := shm_open_errno e;
     ftruncate_errno := ftruncate_errno e;
     mmap_refused := mmap_refused e;
     errno := errno e;
     open_fds := open_fds e;
     next_fd := v;
     objects := objects e;
     mappings := mappings e;
     pools := pools e;
     buffers := buffers e;
     next_object := next_object e |}.
Definition set_objects (v : gmap nat (list Z)) (e : shm_env) : shm_env :=
  {| clock := clock e;
     shm_names := shm_names e;
     shm_open_errno := shm_open_errno e;
     ftruncate_errno := ftruncate_errno e;
     mmap_refused := mmap_refused e;
     errno := errno e;
     open_fds := open_fds e;
     next_fd := next_fd e;
     objects := v;
     mappings := mappings e;
     pools := pools e;
     buffers := buffers e;
     next_object := next_object e |}.
Definition set_mappings (v : list nat) (e : shm_env) : shm_env :=
  {| clock := clock e;
     shm_names := shm_names e;
     shm_open_errno := shm_open_errno e;
     ftruncate_errno := ftruncate_errno e;
     mmap_refused := mmap_refused e;
     errno := errno e;
     open_fds := open_fds e;
     next_fd := next_fd e;
     objects := objects e;
     mappings := v;
     pools := pools e;
     buffers := buffers e;
     next_object := next_object e |}.
Definition set_pools (v : gmap nat nat) (e : shm_env) : shm_env :=
  {| clock := clock e;
     shm_names := shm_names e;
     shm_open_errno := shm_open_errno e;
     ftruncate_errno := ftruncate_errno e;
     mmap_refused := mmap_refused e;
     errno := errno e;
     open_fds := open_fds e;
     next_fd := next_fd e;
     objects := objects e;
     mappings := mappings e;
     pools := v;
     buffers := buffers e;
     next_object := next_object e |}.
Definition set_buffers (v : gmap nat wl_buffer) (e : shm_env) : shm_env :=
  {| clock := clock e;
     shm_names := shm_names e;
     shm_open_errno := shm_open_errno e;
     ftruncate_errno := ftruncate_errno e;
     mmap_refused := mmap_refused e;
     errno := errno e;
     open_fds := open_fds e;
     next_fd := next_fd e;
     objects := objects e;
     mappings := mappings e;
     pools := pools e;
     buffers := v;
     next_object := next_object e |}.
Definition set_next_object (v : nat) (e : shm_env) : shm_env :=
  {| clock := clock e;
     shm_names := shm_names e;
     shm_open_errno := shm_open_errno e;
     ftruncate_errno := ftruncate_errno e;
     mmap_refused := mmap_refused e;
     errno := errno e;
     open_fds := open_fds e;
     next_fd := next_fd e;
     objects := objects e;
     mappings := mappings e;
     pools := pools e;
     buffers := buffers e;
     next_object := v |}.

(** *** libc *)

(** [clock_gettime(CLOCK_REALTIME, &ts)]: the [tv_nsec] it stores. *)
Definition clock_gettime : M shm_env Z :=
  fun e =>
    match clock e with
    | [] => Ok 0 e
    | t :: rest => Ok t (set_clock rest e)
    end.

(** [shm_open(name, O_RDWR | O_CREAT | O_EXCL, 0600)]: a name that is
    taken gives [EEXIST]; on a free name the call fails as the
    environment says, or makes an empty object under that name and opens
    it. *)
Definition shm_open (name : string) : M shm_env Z :=
  fun e =>
    if bool_decide (name ∈ shm_names e)
    then Ok (-1) (set_errno EEXIST e)
    else
      let err := hd 0 (shm_open_errno e) in
      let e1 := set_shm_open_errno (tail (shm_open_errno e)) e in
      if err =? 0
      then
        Ok (Z.of_nat (next_fd e))
          (set_next_fd (S (next_fd e))
             (set_next_object (S (next_object e))
                (set_open_fds
                   (<[Z.of_nat (next_fd e) := next_object e]> (open_fds e))
                   (set_objects (<[next_object e := []]> (objects e))
                      (set_shm_names ({[name]} ∪ shm_names e) e1)))))
      else Ok (-1) (set_errno err e1).

Definition shm_unlink (name : string) : M shm_env unit :=
  modify (fun e => set_shm_names (shm_names e ∖ {[name]}) e).

(** [ftruncate(fd, size)]: the object gets [size / 4] words, the new ones
    zero. *)
Definition ftruncate (fd size : Z) : M shm_env Z :=
  fun e =>
    let err := hd 0 (ftruncate_errno e) in
    let e1 := set_ftruncate_errno (tail (ftruncate_errno e)) e in
    if err =? 0
    then
      match open_fds e !! fd with
      | None => Ok (-1) (set_errno EBADF e1)
      | Some o =>
          Ok 0 (set_objects
                  (<[o := resize (Z.to_nat (size / 4)) 0
                            (default [] (objects e !! o))]> (objects e)) e1)
      end
    else Ok (-1) (set_errno err e1).

Definition close (fd : Z) : M shm_env unit :=
  modify (fun e => set_open_fds (delete fd (open_fds e)) e).

(** [mmap(NULL, size, PROT_READ | PROT_WRITE, MAP_SHARED, fd, 0)]: the
    pointer returned is the object that is mapped, [None] is
    [MAP_FAILED]. *)
Definition mmap (size fd : Z) : M shm_env (option nat) :=
  fun e =>
    let refused := hd false (mmap_refused e) in
    let e1 := set_mmap_refused (tail (mmap_refused e)) e in
    match open_fds e !! fd with
    | Some o =>
        if refused then Ok None e1
        else Ok (Some o) (set_mappings (o :: mappings e) e1)
    | None => Ok None e1
    end.

Fixpoint remove_one (o : nat) (l : list nat) : list nat :=
  match l with
  | [] => []
  | x :: l' => if Nat.eqb x o then l' else x :: remove_one o l'
  end.

Definition munmap (data : nat) (size : Z) : M shm_env unit :=
  modify (fun e => set_mappings (remove_one data (mappings e)) e).

(** [data[i] = v] through a mapping: outside of the object, or without
    the mapping, the store faults. *)
Definition store (data : nat) (i v : Z) : M shm_env unit :=
  fun e =>
    match objects e !! data with
    | Some ws =>
        if bool_decide (data ∈ mappings e)
           && (0 <=? i) && (i <? Z.of_nat (length ws))
        then Ok tt (set_objects
                      (<[data := <[Z.to_nat i := v]> ws]> (objects e)) e)
        else Fault (OutOfBounds "data" i) e
    | None => Fault (OutOfBounds "data" i) e
    end.

(** *** libwayland-client *)

Definition wl_shm_create_pool (wl_shm : option nat) (fd size : Z)
  : M shm_env nat :=
  match wl_shm with
  | None => raise (NullArgument "wl_shm_create_pool")
  | Some _ =>
      fun e =>
        match open_fds e !! fd with
        | None => Fault (DanglingObject "wl_shm_create_pool") e
        | Some o =>
            Ok (next_object e)
              (set_next_object (S (next_object e))
                 (set_pools (<[next_object e := o]> (pools e)) e))
        end
  end.

Definition wl_shm_pool_create_buffer (pool : nat)
    (offset width height stride format : Z) : M shm_env nat :=
  fun e =>
    match pools e !! pool with
    | None => Fault (DanglingObject "wl_shm_pool_create_buffer") e
    | Some o =>
        Ok (next_object e)
          (set_next_object (S (next_object e))
             (set_buffers
                (<[next_object e :=
                     {| buf_object := o; buf_offset := offset;
                        buf_width := width; buf_height := height;
                        buf_stride := stride; buf_format := format;
                        buf_listening := false |}]> (buffers e)) e))
    end.

Definition wl_shm_pool_destroy (pool : nat) : M shm_env unit :=
  fun e =>
    match pools e !! pool with
    | None => Fault (DanglingObject "wl_shm_pool_destroy") e
    | Some _ => Ok tt (set_pools (delete pool (pools e)) e)
    end.

Definition wl_buffer_add_listener (buffer : nat) : M shm_env unit :=
  fun e =>
    match buffers e !! buffer with
    | None => Fault (DanglingObject "wl_buffer_add_listener") e
    | Some b =>
        Ok tt (set_buffers
                 (<[buffer :=
                      {| buf_object := buf_object b;
                         buf_offset := buf_offset b;
                         buf_width := buf_width b;
                         buf_height := buf_height b;
                         buf_stride := buf_stride b;
                         buf_format := buf_format b;
                         buf_listening := true |}]> (buffers e)) e)
    end.

(** *** The program *)

(** ['A'+(r&15)+(r&16)*2] *)
Definition randname_char (r : Z) : Z := 65 + Z.land r 15 + Z.land r 16 * 2.

(** The loop of [randname]: [n] characters from [r], five bits each. *)
Fixpoint randname_chars (n : nat) (r : Z) : list Z :=
  match n with
  | O => []
  | S n' => randname_char r :: randname_chars n' (Z.shiftr r 5)
  end.

(** [randname(buf)]: the six characters written at [buf]. *)
Definition randname : M shm_env (list Z) :=
  r <- clock_gettime ;;
  ret (randname_chars 6 r).

(** ["/wl_shm-XXXXXX"] with the six characters over the [X]s. *)
Definition shm_name (suffix : list Z) : string :=
  String.append (substring 0 8 "/wl_shm-XXXXXX")
    (string_of_list_ascii (map (fun c => ascii_of_N (Z.to_N c)) suffix)).

(** The [do ... while] of [create_shm_file], entered with [retries]
    attempts left. *)
Fixpoint create_shm_loop (retries : nat) : M shm_env Z :=
  match retries with
  | O => ret (-1)
  | S retries' =>
      suffix <- randname ;;
      let name := shm_name suffix in
      fd <- shm_open name ;;
      if 0 <=? fd
      then shm_unlink name ;; ret fd
      else
        e <- get ;;
        if (0 <? Z.of_nat retries') && (errno e =? EEXIST)
        then create_shm_loop retries'
        else ret (-1)
  end.

Definition create_shm_file : M shm_env Z := create_shm_loop 100.

(** [do ret = ftruncate(fd, size); while (ret < 0 && errno == EINTR);]
    Every failed call uses up one entry of [ftruncate_errno], so one more
    round than there are entries is as many as the loop can make. *)
Fixpoint ftruncate_loop (rounds : nat) (fd size : Z) : M shm_env Z :=
  match rounds with
  | O => ftruncate fd size
  | S rounds' =>
      ret_ <- ftruncate fd size ;;
      e <- get ;;
      if (ret_ <? 0) && (errno e =? EINTR)
      then ftruncate_loop rounds' fd size
      else ret ret_
  end.

Definition allocate_shm_file (size : Z) : M shm_env Z :=
  fd <- create_shm_file ;;
  if fd <? 0 then ret (-1)
  else
    e <- get ;;
    ret_ <- ftruncate_loop (length (ftruncate_errno e)) fd size ;;
    if ret_ <? 0
    then close fd ;; ret (-1)
    else ret fd.

(** [for (int i = 0; i < bound; ++i) body] *)
Fixpoint for_from {S} (rounds : nat) (i : Z) (body : Z -> M S unit)
  : M S unit :=
  match rounds with
  | O => ret tt
  | S rounds' => body i ;; for_from rounds' (i + 1) body
  end.

Definition for_upto {S} (bound : Z) (body : Z -> M S unit) : M S unit :=
  for_from (Z.to_nat bound) 0 body.

(** The two loops of [draw_frame]. *)
Definition checkerboard (data : nat) (width height : Z) : M shm_env unit :=
  for_upto height
    (fun y =>
       for_upto width
         (fun x =>
            if (x + y / 8 * 8) mod 16 <? 8
            then store data (y * width + x) 0xFF666666
            else store data (y * width + x) 0xFFEEEEEE)).

(** [draw_frame(state)], with [state->wl_shm]; [None] is [NULL]. *)
Definition draw_frame (wl_shm : option nat) : M shm_env (option nat) :=
  let width := 640 in
  let height := 480 in
  let stride := width * 4 in
  let size := stride * height in
  fd <- allocate_shm_file size ;;
  if fd =? -1 then ret None
  else
    data <- mmap size fd ;;
    match data with
    | None => close fd ;; ret None
    | Some data =>
        pool <- wl_shm_create_pool wl_shm fd size ;;
        buffer <- wl_shm_pool_create_buffer pool 0 width height stride
                    WL_SHM_FORMAT_XRGB8888 ;;
        wl_shm_pool_destroy pool ;;
        close fd ;;
        checkerboard data width height ;;
        munmap data size ;;
        wl_buffer_add_listener buffer ;;
        ret (Some buffer)
    end.

(** The colour of the pixel in column [x] of row [y]. *)
Definition pixel (x y : Z) : Z :=
  if (x + y / 8 * 8) mod 16 <? 8 then 0xFF666666 else 0xFFEEEEEE.

(** Descriptors, pools and buffers are numbered in increasing order. *)
Definition env_ok (e : shm_env) : Prop :=
  (forall fd, is_Some (open_fds e !! fd) -> fd < Z.of_nat (next_fd e))
  /\ (forall id, is_Some (pools e !! id) -> (id < next_object e)%nat)
  /\ (forall id, is_Some (buffers e !! id) -> (id < next_object e)%nat).

End Shm.

(** ** A small keymap library to run the handlers on

    A text compiles when it starts with [xkb_keymap].  Code 22 is
    BackSpace, code 38 is the letter a, capital when the first modifier
    bit is depressed, code 7 is the letter b; no other code has a
    symbol. *)

Module Sample.

Definition shifted (m : mods) : bool := Z.testbit (depressed m) 0.

Definition syms (text : string) (m : mods) (key : Z) : list Z :=
  if key =? 22 then [XKB_KEY_BackSpace]
  else if key =? 38 then [if shifted m then 0x41 else 0x61]
  else if key =? 7 then [0x62]
  else [].

Definition one_sym (text : string) (m : mods) (key : Z) : Z :=
  match syms text m key with
  | [sym] => sym
  | _ => 0
  end.

Definition utf8 (text : string) (m : mods) (key : Z) : string :=
  if key =? 38 then (if shifted m then "A" else "a")%string
  else if key =? 7 then "b"%string
  else EmptyString.

Definition keysym_name (sym : Z) : string :=
  if sym =? XKB_KEY_BackSpace then "BackSpace"
  else if sym =? 0x41 then "A"
  else if sym =? 0x61 then "a"
  else if sym =? 0x62 then "b"
  else "NoSymbol".

Definition lib : XkbLib :=
  {| xkb_compiles := String.prefix "xkb_keymap";
     xkb_syms := syms;
     xkb_one_sym := one_sym;
     xkb_utf8 := utf8;
     xkb_keysym_name := keysym_name |}.

Definition good_file : file :=
  {| content := "xkb_keymap { us }"; mappable := true |}.
Definition bad_file : file :=
  {| content := "not a keymap"; mappable := true |}.
Definition pipe_file : file :=
  {| content := "xkb_keymap { us }"; mappable := false |}.

(** Descriptors 5, 6 and 7 are open on the three files. *)
Definition world0 : world :=
  set_fds (<[5 := good_file]> (<[6 := bad_file]> (<[7 := pipe_file]> ∅)))
    world_empty.

(** gettext.c after [seat_handle_capabilities] created the context. *)
Definition globals0 : Gettext.globals :=
  Gettext.set_xkb_context (Some 0%nat) Gettext.globals_zero.

(** waylandbook.example.c after [main] created the context. *)
Definition client0 : Book.client_state :=
  {| Book.wl_keyboard := None; Book.wl_pointer := None;
     Book.pointer_event := Pointer.pointer_event_zero;
     Book.xkb_state := None; Book.xkb_context := Some 0%nat;
     Book.xkb_keymap := None |}.

(** The globals and the environment once the keymap behind descriptor 5
    is installed: keymap 0, referenced by the translator and by state 1. *)
Definition ready_world : world :=
  set_next_id 2
    (set_states
       {[ 1%nat := {| st_refcnt := 1; st_keymap := 0;
                      st_mods := mods_zero |} ]}
       (set_keymaps
          {[ 0%nat := {| km_refcnt := 2; km_text := content good_file |} ]}
          (set_fds (delete 5 (fds world0)) world0))).

Definition ready_globals : Gettext.globals :=
  Gettext.set_xkb_state (Some 1%nat) (Gettext.set_keymap (Some 0%nat) globals0).

Definition ready_client : Book.client_state :=
  Book.set_xkb_state (Some 1%nat) (Book.set_xkb_keymap (Some 0%nat) client0).

End Sample.

(** * Properties *)

(** ** The event mask *)

Lemma has_lor_l (m b b' : Z) : has (Z.lor m b) b' = has m b' || has b b'.
Proof.
  unfold has. rewrite Z.land_lor_distr_l.
  destruct (Z.eqb_spec (Z.land m b') 0) as [->|Hm]; simpl.
  - reflexivity.
  - destruct (Z.eqb_spec (Z.lor (Z.land m b') (Z.land b b')) 0) as [E|]; [|done].
    apply Z.lor_eq_0_iff in E. tauto.
Qed.

Lemma has_lor_r (m b b' : Z) : has m (Z.lor b b') = has m b || has m b'.
Proof.
  unfold has. rewrite Z.land_lor_distr_r.
  destruct (Z.eqb_spec (Z.land m b) 0) as [->|Hm]; simpl.
  - reflexivity.
  - destruct (Z.eqb_spec (Z.lor (Z.land m b) (Z.land m b')) 0) as [E|]; [|done].
    apply Z.lor_eq_0_iff in E. tauto.
Qed.

Module PointerFacts.
Import Pointer.

Lemma has_bit_of (k k' : field_kind) :
  has (bit_of k) (bit_of k') = bool_decide (k = k').
Proof. destruct k, k'; reflexivity. Qed.

Lemma has_axis_events (m : Z) :
  has m axis_events
  = has m (bit_of KAxis) || has m (bit_of KAxisSource)
    || has m (bit_of KAxisStop) || has m (bit_of KAxisDiscrete).
Proof. unfold axis_events. rewrite !has_lor_r. reflexivity. Qed.

(** ** The handlers agree with the accumulator *)

Lemma axes_store_twice (axis : Z) (f g : axis_entry -> axis_entry)
    (e : pointer_event) (a : axis_entry) :
  axes e !! Z.to_nat axis = Some a ->
  (axes_store axis f ;; axes_store axis g) e
  = Ok tt (set_axes (alter (fun a => g (f a)) (Z.to_nat axis) (axes e)) e).
Proof.
  intros Ha. unfold bind, axes_store. rewrite Ha. simpl.
  rewrite list_lookup_insert_eq by (eapply lookup_lt_Some; eassumption).
  unfold set_axes; simpl. f_equal. f_equal.
  rewrite list_insert_insert_eq.
  apply list_eq. intros j. rewrite list_lookup_insert, list_lookup_alter.
  destruct (decide (Z.to_nat axis = j)) as [<-|]; simpl.
  - rewrite Ha. simpl. 
    rewrite decide_True; [done|]. split; [done|]. eapply lookup_lt_Some; eassumption.
  - rewrite decide_False; [done|]. tauto.
Qed.

Lemma axes_store_once (axis : Z) (f : axis_entry -> axis_entry)
    (e : pointer_event) (a : axis_entry) :
  axes e !! Z.to_nat axis = Some a ->
  axes_store axis f e
  = Ok tt (set_axes (alter f (Z.to_nat axis) (axes e)) e).
Proof.
  intros Ha. unfold axes_store. rewrite Ha. f_equal. f_equal.
  apply list_eq. intros j. rewrite list_lookup_insert, list_lookup_alter.
  destruct (decide (Z.to_nat axis = j)) as [<-|]; simpl.
  - rewrite Ha. simpl. 
    rewrite decide_True; [done|]. split; [done|]. eapply lookup_lt_Some; eassumption.
  - rewrite decide_False; [done|]. tauto.
Qed.

Lemma conforming_axis_lookup (axis : Z) (l : list axis_entry) :
  0 <= axis < 2 -> length l = 2%nat -> is_Some (l !! Z.to_nat axis).
Proof. intros Hr Hl. apply lookup_lt_is_Some. lia. Qed.

Lemma deliver_absorb (f : fragment) (e : pointer_event) :
  conforming f -> length (axes e) = 2%nat ->
  deliver f e = Ok tt (absorb f e).
Proof.
  intros Hc Hl. destruct f; simpl in *; try reflexivity.
  - destruct (conforming_axis_lookup axis _ Hc Hl) as [a Ha].
    unfold wl_pointer_axis, mark, modify, bind at 1 2. 
    erewrite axes_store_twice; [reflexivity|exact Ha].
  - destruct (conforming_axis_lookup axis _ Hc Hl) as [a Ha].
    unfold wl_pointer_axis_stop, mark, modify, bind.
    erewrite axes_store_once; [reflexivity|exact Ha].
  - destruct (conforming_axis_lookup axis _ Hc Hl) as [a Ha].
    unfold wl_pointer_axis_discrete, mark, modify, bind at 1.
    erewrite axes_store_twice; [reflexivity|exact Ha].
Qed.

Lemma absorb_length (f : fragment) (e : pointer_event) :
  length (axes (absorb f e)) = length (axes e).
Proof. destruct f; simpl; try reflexivity; apply length_alter. Qed.

Lemma deliver_all_absorb (fs : list fragment) (e : pointer_event) :
  Forall conforming fs -> length (axes e) = 2%nat ->
  deliver_all fs e = Ok tt (absorb_all fs e).
Proof.
  intros Hc. revert e. induction Hc as [|f fs Hf _ IH]; intros e Hl.
  - reflexivity.
  - simpl. unfold bind. rewrite (deliver_absorb f e Hf Hl).
    apply (IH (absorb f e)). rewrite absorb_length. exact Hl.
Qed.

(** ** What the accumulator holds after a list of fragments *)

Lemma absorb_all_cons (f : fragment) (fs : list fragment) (e : pointer_event) :
  absorb_all (f :: fs) e = absorb_all fs (absorb f e).
Proof. reflexivity. Qed.

Lemma entry_after_all_cons (i : nat) (f : fragment) (fs : list fragment)
    (a : axis_entry) :
  entry_after_all i (f :: fs) a = entry_after_all i fs (entry_after i f a).
Proof. reflexivity. Qed.

Lemma absorb_mask (f : fragment) (e : pointer_event) :
  event_mask (absorb f e) = Z.lor (event_mask e) (bit_of (kind_of f)).
Proof. destruct f; reflexivity. Qed.

Lemma absorb_all_mask (k : field_kind) (fs : list fragment) :
  forall e,
    has (event_mask (absorb_all fs e)) (bit_of k)
    = has (event_mask e) (bit_of k) || touched k fs.
Proof.
  induction fs as [|f fs IH]; intros e.
  - simpl. rewrite orb_false_r. reflexivity.
  - rewrite absorb_all_cons, IH, absorb_mask, has_lor_l, has_bit_of.
    simpl. rewrite orb_assoc. reflexivity.
Qed.

Lemma absorb_entry (i : nat) (f : fragment) (e : pointer_event) :
  conforming f ->
  axes (absorb f e) !! i = entry_after i f <$> axes e !! i.
Proof.
  intros Hc.
  destruct f; try (simpl; destruct (axes e !! i); reflexivity);
    unfold entry_after; cbn [absorb conforming axes set_axes] in *;
    rewrite list_lookup_alter;
    (destruct (decide (Z.to_nat axis = i)) as [E|E];
     [rewrite bool_decide_true by lia; subst i; reflexivity
     |rewrite bool_decide_false by lia; destruct (axes e !! i); reflexivity]).
Qed.

Lemma absorb_all_entry (i : nat) (fs : list fragment) :
  Forall conforming fs ->
  forall e, axes (absorb_all fs e) !! i = entry_after_all i fs <$> axes e !! i.
Proof.
  induction 1 as [|f fs Hf _ IH]; intros e.
  - simpl. destruct (axes e !! i); reflexivity.
  - rewrite absorb_all_cons, IH, absorb_entry by exact Hf.
    destruct (axes e !! i); reflexivity.
Qed.

Lemma entry_after_valid (i : nat) (f : fragment) (a : axis_entry) :
  valid (entry_after i f a)
  = valid a || bool_decide (axis_of f = Some (Z.of_nat i)).
Proof.
  destruct f; simpl; rewrite ?orb_false_r; try reflexivity;
    (destruct (decide (axis = Z.of_nat i)) as [->|E];
     [rewrite !bool_decide_true by reflexivity
     |rewrite !bool_decide_false by congruence]);
    simpl; rewrite ?orb_true_r, ?orb_false_r; reflexivity.
Qed.

Lemma entry_after_all_valid (i : nat) (fs : list fragment) :
  forall a,
    valid (entry_after_all i fs a) = valid a || axis_touched i fs.
Proof.
  induction fs as [|f fs IH]; intros a.
  - simpl. rewrite orb_false_r. reflexivity.
  - rewrite entry_after_all_cons, IH, entry_after_valid.
    simpl. rewrite orb_assoc. reflexivity.
Qed.

Lemma entry_after_all_value_kept (i : nat) (fs : list fragment) :
  Forall (fun f => writes_value i f = false) fs ->
  forall a, value (entry_after_all i fs a) = value a.
Proof.
  induction 1 as [|f fs Hf _ IH]; intros a.
  - reflexivity.
  - rewrite entry_after_all_cons, IH.
    destruct f; cbn [entry_after writes_value] in *; try reflexivity;
      destruct (bool_decide (axis = Z.of_nat i)); try reflexivity.
    discriminate.
Qed.

Lemma entry_after_all_app (i : nat) (fs gs : list fragment) (a : axis_entry) :
  entry_after_all i (fs ++ gs) a
  = entry_after_all i gs (entry_after_all i fs a).
Proof. apply fold_left_app. Qed.

Lemma entry_after_all_last_value (i : nat) (pre post : list fragment)
    (time value0 : Z) (a : axis_entry) :
  Forall (fun f => writes_value i f = false) post ->
  value (entry_after_all i (pre ++ FAxis time (Z.of_nat i) value0 :: post) a)
  = value0.
Proof.
  intros Hpost. rewrite entry_after_all_app, entry_after_all_cons.
  rewrite entry_after_all_value_kept by exact Hpost.
  cbn [entry_after]. rewrite bool_decide_true by reflexivity. reflexivity.
Qed.

Lemma absorb_all_app (fs gs : list fragment) (e : pointer_event) :
  absorb_all (fs ++ gs) e = absorb_all gs (absorb_all fs e).
Proof. apply fold_left_app. Qed.

Lemma absorb_all_position_kept (fs : list fragment) :
  Forall (fun f => writes_position f = false) fs ->
  forall e,
    surface_x (absorb_all fs e) = surface_x e
    /\ surface_y (absorb_all fs e) = surface_y e.
Proof.
  induction 1 as [|f fs Hf _ IH]; intros e.
  - split; reflexivity.
  - rewrite absorb_all_cons. destruct (IH (absorb f e)) as [-> ->].
    destruct f; simpl in *; try discriminate; split; reflexivity.
Qed.

Lemma absorb_source (f : fragment) (e : pointer_event) :
  conforming f -> 0 <= axis_source e < 4 -> 0 <= axis_source (absorb f e) < 4.
Proof. destruct f; simpl; intros; assumption. Qed.

Lemma absorb_all_source (fs : list fragment) :
  Forall conforming fs ->
  forall e, 0 <= axis_source e < 4 -> 0 <= axis_source (absorb_all fs e) < 4.
Proof.
  induction 1 as [|f fs Hf _ IH]; intros e He.
  - exact He.
  - rewrite absorb_all_cons. apply IH. apply absorb_source; assumption.
Qed.

Lemma absorb_all_length (fs : list fragment) :
  forall e, length (axes (absorb_all fs e)) = length (axes e).
Proof.
  induction fs as [|f fs IH]; intros e.
  - reflexivity.
  - rewrite absorb_all_cons, IH. apply absorb_length.
Qed.

(** ** The frame handler *)

Lemma axis_source_name_lookup (source : Z) :
  0 <= source < 4 -> is_Some (axis_source_name !! Z.to_nat source).
Proof. intros Hs. apply lookup_lt_is_Some. simpl. lia. Qed.

Lemma frame_axis_eval (e : pointer_event) (i : nat) (a : axis_entry)
    (name via : string) :
  axes e !! i = Some a ->
  axis_name !! i = Some name ->
  axis_source_name !! Z.to_nat (axis_source e) = Some via ->
  frame_axis e i e = Ok (axis_items (event_mask e) a name via) e.
Proof.
  intros Ha Hn Hv. unfold frame_axis, axis_items. rewrite Ha.
  destruct (valid a); simpl; [|reflexivity].
  unfold bind, table_read. rewrite Nat2Z.id, Hn. simpl.
  unfold axis_fields.
  destruct (has (event_mask e) POINTER_EVENT_AXIS_SOURCE).
  - rewrite Hv. reflexivity.
  - reflexivity.
Qed.

Lemma wl_pointer_frame_eval (e : pointer_event) (a0 a1 : axis_entry)
    (via : string) :
  axes e = [a0; a1] ->
  axis_source_name !! Z.to_nat (axis_source e) = Some via ->
  wl_pointer_frame e = Ok (frame_items e a0 a1 via) pointer_event_zero.
Proof.
  intros Ha Hv. unfold wl_pointer_frame, frame_items.
  unfold bind at 1. unfold get. unfold bind at 1.
  destruct (has (event_mask e) axis_events).
  - unfold bind at 1.
    rewrite (frame_axis_eval e 0 a0 "vertical" via);
      [|rewrite Ha; reflexivity|reflexivity|exact Hv].
    unfold bind at 1.
    rewrite (frame_axis_eval e 1 a1 "horizontal" via);
      [|rewrite Ha; reflexivity|reflexivity|exact Hv].
    reflexivity.
  - reflexivity.
Qed.

Lemma elem_of_if_singleton {A} (b : bool) (x y : A) :
  x ∈ (if b then [y] else []) <-> b = true /\ x = y.
Proof.
  destruct b.
  - rewrite list_elem_of_singleton. tauto.
  - rewrite elem_of_nil. split; [tauto | intros [? _]; discriminate].
Qed.

Lemma axis_fields_elem (mask : Z) (a : axis_entry) (via : string)
    (fld : axis_field) :
  fld ∈ axis_fields mask a via <->
    (has mask (bit_of KAxis) = true /\ fld = AValue (value a))
    \/ (has mask (bit_of KAxisDiscrete) = true /\ fld = ADiscrete (discrete a))
    \/ (has mask (bit_of KAxisSource) = true /\ fld = AVia via)
    \/ (has mask (bit_of KAxisStop) = true /\ fld = AStopped).
Proof.
  unfold axis_fields. rewrite !elem_of_app, !elem_of_if_singleton.
  reflexivity.
Qed.

Lemma axis_items_elem (mask : Z) (a : axis_entry) (name via : string)
    (it : item) :
  it ∈ axis_items mask a name via <->
    valid a = true /\ it = AxisReport name (axis_fields mask a via).
Proof. apply elem_of_if_singleton. Qed.

Lemma frame_items_elem (e : pointer_event) (a0 a1 : axis_entry)
    (via : string) (it : item) :
  it ∈ frame_items e a0 a1 via <->
    it = Header (time e)
    \/ (has (event_mask e) (bit_of KEnter) = true
        /\ it = Entered (surface_x e) (surface_y e))
    \/ (has (event_mask e) (bit_of KLeave) = true /\ it = Leave)
    \/ (has (event_mask e) (bit_of KMotion) = true
        /\ it = Motion (surface_x e) (surface_y e))
    \/ (has (event_mask e) (bit_of KButton) = true
        /\ it = Button (button e)
                  (if state e =? WL_POINTER_BUTTON_STATE_RELEASED
                   then "released"%string else "pressed"%string))
    \/ (has (event_mask e) axis_events = true
        /\ valid a0 = true
        /\ it = AxisReport "vertical" (axis_fields (event_mask e) a0 via))
    \/ (has (event_mask e) axis_events = true
        /\ valid a1 = true
        /\ it = AxisReport "horizontal" (axis_fields (event_mask e) a1 via))
    \/ it = Newline.
Proof.
  unfold frame_items. rewrite !elem_of_app, !elem_of_if_singleton.
  rewrite !list_elem_of_singleton.
  destruct (has (event_mask e) axis_events).
  - rewrite elem_of_app, !axis_items_elem. simpl. tauto.
  - rewrite elem_of_nil. simpl. intuition discriminate.
Qed.

Lemma has_zero (b : Z) : has 0 b = false.
Proof. reflexivity. Qed.

Lemma touched_mask (k : field_kind) (fs : list fragment) :
  has (event_mask (absorb_all fs pointer_event_zero)) (bit_of k)
  = touched k fs.
Proof. rewrite absorb_all_mask. reflexivity. Qed.

Lemma axis_touched_kinds (i : nat) (fs : list fragment) :
  axis_touched i fs = true ->
  touched KAxis fs || touched KAxisSource fs || touched KAxisStop fs
  || touched KAxisDiscrete fs = true.
Proof.
  induction fs as [|f fs IH]; simpl; [discriminate|].
  intros Ht. apply orb_true_iff in Ht as [Ht|Ht].
  - destruct f; simpl in *; try discriminate;
      rewrite ?orb_true_r; reflexivity.
  - apply IH in Ht. repeat (apply orb_true_iff in Ht as [Ht|Ht]);
      rewrite Ht, ?orb_true_r; reflexivity.
Qed.

(** Delivering conforming fragments and then [frame] to an empty
    accumulator returns: the result is the rendering of the accumulated
    struct, and the accumulator is empty again. *)
Lemma run_frame_conforming (fs : list fragment) :
  Forall conforming fs ->
  exists via,
    axes (absorb_all fs pointer_event_zero)
    = [entry_after_all 0 fs axis_zero; entry_after_all 1 fs axis_zero]
    /\ run_frame fs pointer_event_zero
       = Ok (frame_items (absorb_all fs pointer_event_zero)
               (entry_after_all 0 fs axis_zero)
               (entry_after_all 1 fs axis_zero) via)
            pointer_event_zero.
Proof.
  intros Hc.
  set (e := absorb_all fs pointer_event_zero).
  assert (Hl : length (axes e) = 2%nat)
    by (unfold e; rewrite absorb_all_length; reflexivity).
  assert (H0 : axes e !! 0%nat = Some (entry_after_all 0 fs axis_zero))
    by (unfold e; rewrite absorb_all_entry by exact Hc; reflexivity).
  assert (H1 : axes e !! 1%nat = Some (entry_after_all 1 fs axis_zero))
    by (unfold e; rewrite absorb_all_entry by exact Hc; reflexivity).
  assert (Ha : axes e
               = [entry_after_all 0 fs axis_zero;
                  entry_after_all 1 fs axis_zero]).
  { destruct (axes e) as [|b0 [|b1 [|b2 l]]]; try discriminate.
    simpl in H0, H1. congruence. }
  destruct (axis_source_name_lookup (axis_source e)) as [via Hv].
  { unfold e. apply absorb_all_source; [exact Hc | simpl; lia]. }
  exists via. split; [exact Ha|].
  unfold run_frame, bind.
  rewrite deliver_all_absorb by (exact Hc || reflexivity).
  fold e. apply wl_pointer_frame_eval; assumption.
Qed.

Lemma touched_cons (k : field_kind) (f : fragment) (fs : list fragment) :
  touched k (f :: fs) = bool_decide (kind_of f = k) || touched k fs.
Proof. reflexivity. Qed.

Lemma axis_touched_cons (i : nat) (f : fragment) (fs : list fragment) :
  axis_touched i (f :: fs)
  = bool_decide (axis_of f = Some (Z.of_nat i)) || axis_touched i fs.
Proof. reflexivity. Qed.

Lemma touched_app_cons (pre post : list fragment) (f : fragment) :
  touched (kind_of f) (pre ++ f :: post) = true.
Proof.
  induction pre as [|g pre IH].
  - cbn [app]. rewrite touched_cons, bool_decide_true by reflexivity.
    reflexivity.
  - cbn [app]. rewrite touched_cons, IH. apply orb_true_r.
Qed.

Lemma axis_touched_app_cons (i : nat) (pre post : list fragment)
    (f : fragment) :
  axis_of f = Some (Z.of_nat i) -> axis_touched i (pre ++ f :: post) = true.
Proof.
  intros Hf. induction pre as [|g pre IH].
  - cbn [app]. rewrite axis_touched_cons, bool_decide_true by exact Hf.
    reflexivity.
  - cbn [app]. rewrite axis_touched_cons, IH. apply orb_true_r.
Qed.

Lemma axis_name_cases (i : nat) (name : string) :
  axis_name !! i = Some name ->
  (i = 0%nat /\ name = "vertical"%string)
  \/ (i = 1%nat /\ name = "horizontal"%string).
Proof.
  destruct i as [|[|i]]; simpl; intros E; try discriminate;
    injection E as <-; auto.
Qed.

(** An axis entry of the output is one of the two that the loop emits. *)
Local Ltac axis_report_inv H :=
  apply frame_items_elem in H;
  destruct H as [H|[[_ H]|[[_ H]|[[_ H]|[[_ H]|[[_ [_ H]]|[[_ [_ H]]|H]]]]]]];
  try discriminate; injection H as _ ->.

(** C1, as amended.  For conforming fragments delivered since the last
    flush, [frame] returns and leaves the accumulator empty.  What it
    emits reports enter, leave, motion and button exactly when a
    fragment of that kind was delivered, and an entry for an axis exactly
    when an axis, axis-stop or axis-discrete fragment addressed that
    axis.  Inside an axis entry the value, discrete, source and stop
    fields follow the kinds delivered in the frame for either axis.
    With no fragment at all, only the header and the line end are
    emitted. *)
Theorem frame_reports_touched_kinds (fs : list fragment) :
  Forall conforming fs ->
  exists out,
    run_frame fs pointer_event_zero = Ok out pointer_event_zero
    /\ ((exists x y, Entered x y ∈ out) <-> touched KEnter fs = true)
    /\ (Leave ∈ out <-> touched KLeave fs = true)
    /\ ((exists x y, Motion x y ∈ out) <-> touched KMotion fs = true)
    /\ ((exists b s, Button b s ∈ out) <-> touched KButton fs = true)
    /\ (forall i name, axis_name !! i = Some name ->
          ((exists fields, AxisReport name fields ∈ out)
           <-> axis_touched i fs = true))
    /\ (forall name fields, AxisReport name fields ∈ out ->
          ((exists v, AValue v ∈ fields) <-> touched KAxis fs = true)
          /\ ((exists d, ADiscrete d ∈ fields)
              <-> touched KAxisDiscrete fs = true)
          /\ ((exists s, AVia s ∈ fields) <-> touched KAxisSource fs = true)
          /\ (AStopped ∈ fields <-> touched KAxisStop fs = true))
    /\ (fs = [] -> out = [Header 0; Newline]).
Proof.
  intros Hc. destruct (run_frame_conforming fs Hc) as (via & Ha & Hrun).
  eexists. split; [exact Hrun|].
  set (e := absorb_all fs pointer_event_zero) in *.
  assert (Hm : forall k, has (event_mask e) (bit_of k) = touched k fs)
    by (intros k; apply touched_mask).
  assert (Hv : forall i, valid (entry_after_all i fs axis_zero)
                         = axis_touched i fs)
    by (intros i; rewrite entry_after_all_valid; reflexivity).
  assert (Hax : forall i, axis_touched i fs = true ->
                          has (event_mask e) axis_events = true).
  { intros i Hi. rewrite has_axis_events, !Hm.
    exact (axis_touched_kinds i fs Hi). }
  repeat split.
  - intros (x & y & Hin). apply frame_items_elem in Hin.
    rewrite <- Hm. intuition (try discriminate).
  - intros Ht. rewrite <- Hm in Ht. exists (surface_x e), (surface_y e).
    apply frame_items_elem. auto.
  - intros Hin. apply frame_items_elem in Hin.
    rewrite <- Hm. intuition (try discriminate).
  - intros Ht. rewrite <- Hm in Ht. apply frame_items_elem. auto 6.
  - intros (x & y & Hin). apply frame_items_elem in Hin.
    rewrite <- Hm. intuition (try discriminate).
  - intros Ht. rewrite <- Hm in Ht. exists (surface_x e), (surface_y e).
    apply frame_items_elem. auto 7.
  - intros (b & s & Hin). apply frame_items_elem in Hin.
    rewrite <- Hm. intuition (try discriminate).
  - intros Ht. rewrite <- Hm in Ht. eexists _, _. apply frame_items_elem.
    do 4 right. left. split; [exact Ht | reflexivity].
  - intros (fields & Hin). apply frame_items_elem in Hin.
    rewrite <- Hv.
    destruct (axis_name_cases i name H) as [[-> ->]|[-> ->]];
      intuition (try discriminate).
  - intros Ht.
    destruct (axis_name_cases i name H) as [[-> ->]|[-> ->]];
      eexists; apply frame_items_elem.
    + do 5 right. left. rewrite Hv. eauto.
    + do 6 right. left. rewrite Hv. eauto.
  - intros (v & Hin). rewrite <- Hm.
    axis_report_inv H;
      apply axis_fields_elem in Hin; intuition (try discriminate).
  - intros Ht. axis_report_inv H;
      rewrite <- Hm in Ht;
      eexists; apply axis_fields_elem; left; eauto.
  - intros (v & Hin). rewrite <- Hm.
    axis_report_inv H;
      apply axis_fields_elem in Hin; intuition (try discriminate).
  - intros Ht. axis_report_inv H;
      rewrite <- Hm in Ht;
      eexists; apply axis_fields_elem; right; left; eauto.
  - intros (v & Hin). rewrite <- Hm.
    axis_report_inv H;
      apply axis_fields_elem in Hin; intuition (try discriminate).
  - intros Ht. axis_report_inv H;
      rewrite <- Hm in Ht;
      eexists; apply axis_fields_elem; right; right; left; eauto.
  - intros Hin. rewrite <- Hm.
    axis_report_inv H;
      apply axis_fields_elem in Hin; intuition (try discriminate).
  - intros Ht. axis_report_inv H;
      rewrite <- Hm in Ht;
      apply axis_fields_elem; right; right; right; eauto.
  - intros ->. reflexivity.
Qed.

(** The scenario of a motion and a button press in one frame. *)
Example motion_and_button_frame :
  run_frame [FMotion 10 256 512; FButton 5 10 272 1] pointer_event_zero
  = Ok [Header 10; Motion 256 512; Button 272 "pressed"; Newline]
      pointer_event_zero.
Proof. reflexivity. Qed.

(** C1, counterexample.  An axis fragment for the vertical axis and an
    axis-discrete fragment for the horizontal one: the frame reports a
    discrete step 0 for the vertical axis and a value 0 for the horizontal
    axis, neither of which was delivered.  An axis source delivered alone
    is not reported at all. *)
Lemma frame_reports_untouched_axis_fields :
  run_frame [FAxis 1 0 99; FAxisDiscrete 1 3] pointer_event_zero
  = Ok [Header 1;
        AxisReport "vertical" [AValue 99; ADiscrete 0];
        AxisReport "horizontal" [AValue 0; ADiscrete 3];
        Newline] pointer_event_zero
  /\ run_frame [FAxisSource 1] pointer_event_zero
     = Ok [Header 0; Newline] pointer_event_zero.
Proof. split; reflexivity. Qed.

(** The theorem on the frame of a motion and a button press. *)
Lemma frame_reports_touched_kinds_witness :
  Forall conforming [FMotion 10 256 512; FButton 5 10 272 1]
  /\ exists out,
       run_frame [FMotion 10 256 512; FButton 5 10 272 1] pointer_event_zero
       = Ok out pointer_event_zero
       /\ ((exists x y, Entered x y ∈ out)
           <-> touched KEnter [FMotion 10 256 512; FButton 5 10 272 1] = true)
       /\ (Leave ∈ out
           <-> touched KLeave [FMotion 10 256 512; FButton 5 10 272 1] = true)
       /\ ((exists x y, Motion x y ∈ out)
           <-> touched KMotion [FMotion 10 256 512; FButton 5 10 272 1]
               = true)
       /\ ((exists b s, Button b s ∈ out)
           <-> touched KButton [FMotion 10 256 512; FButton 5 10 272 1]
               = true)
       /\ (forall i name, axis_name !! i = Some name ->
             ((exists fields, AxisReport name fields ∈ out)
              <-> axis_touched i [FMotion 10 256 512; FButton 5 10 272 1]
                  = true))
       /\ (forall name fields, AxisReport name fields ∈ out ->
             ((exists v, AValue v ∈ fields)
              <-> touched KAxis [FMotion 10 256 512; FButton 5 10 272 1]
                  = true)
             /\ ((exists d, ADiscrete d ∈ fields)
                 <-> touched KAxisDiscrete
                       [FMotion 10 256 512; FButton 5 10 272 1] = true)
             /\ ((exists s, AVia s ∈ fields)
                 <-> touched KAxisSource
                       [FMotion 10 256 512; FButton 5 10 272 1] = true)
             /\ (AStopped ∈ fields
                 <-> touched KAxisStop
                       [FMotion 10 256 512; FButton 5 10 272 1] = true))
       /\ ([FMotion 10 256 512; FButton 5 10 272 1] = [] ->
           out = [Header 0; Newline]).
Proof.
  assert (Hc : Forall conforming [FMotion 10 256 512; FButton 5 10 272 1])
    by (repeat constructor).
  split; [exact Hc|].
  exact (frame_reports_touched_kinds
           [FMotion 10 256 512; FButton 5 10 272 1] Hc).
Defined.

(** C8.  Two [axis] calls for the same axis in one frame, the second being
    the last [axis] call for that axis before [frame]: the accumulator
    holds the value of the second call for that axis, marked valid, with
    the axis bit of the mask set; the frame emits one entry for the axis,
    and the only value in it is the one of the second call. *)
Theorem axis_last_value_wins (pre mid post : list fragment) (i : nat)
    (name : string) (t1 v1 t2 v2 : Z) :
  Forall conforming
    (pre ++ FAxis t1 (Z.of_nat i) v1 :: mid
         ++ FAxis t2 (Z.of_nat i) v2 :: post) ->
  axis_name !! i = Some name ->
  Forall (fun f => writes_value i f = false) post ->
  exists e out fields,
    deliver_all
      (pre ++ FAxis t1 (Z.of_nat i) v1 :: mid
           ++ FAxis t2 (Z.of_nat i) v2 :: post) pointer_event_zero
    = Ok tt e
    /\ has (event_mask e) POINTER_EVENT_AXIS = true
    /\ valid <$> axes e !! i = Some true
    /\ value <$> axes e !! i = Some v2
    /\ run_frame
         (pre ++ FAxis t1 (Z.of_nat i) v1 :: mid
              ++ FAxis t2 (Z.of_nat i) v2 :: post) pointer_event_zero
       = Ok out pointer_event_zero
    /\ (forall fields', AxisReport name fields' ∈ out <-> fields' = fields)
    /\ (forall v, AValue v ∈ fields <-> v = v2).
Proof.
  intros Hc Hn Hpost.
  set (fs := pre ++ FAxis t1 (Z.of_nat i) v1 :: mid
                 ++ FAxis t2 (Z.of_nat i) v2 :: post) in *.
  destruct (run_frame_conforming fs Hc) as (via & Ha & Hrun).
  set (e := absorb_all fs pointer_event_zero) in *.
  assert (Hfs : fs = (pre ++ FAxis t1 (Z.of_nat i) v1 :: mid)
                     ++ FAxis t2 (Z.of_nat i) v2 :: post).
  { unfold fs. rewrite <- app_assoc. reflexivity. }
  assert (Hk : has (event_mask e) (bit_of KAxis) = true).
  { unfold e. rewrite touched_mask, Hfs.
    apply (touched_app_cons _ post (FAxis t2 (Z.of_nat i) v2)). }
  assert (Hval : valid (entry_after_all i fs axis_zero) = true).
  { rewrite entry_after_all_valid, Hfs.
    rewrite (axis_touched_app_cons i _ post (FAxis t2 (Z.of_nat i) v2))
      by reflexivity.
    reflexivity. }
  assert (Hv2 : value (entry_after_all i fs axis_zero) = v2).
  { rewrite Hfs. apply entry_after_all_last_value. exact Hpost. }
  assert (Hax : has (event_mask e) axis_events = true).
  { rewrite has_axis_events, Hk. reflexivity. }
  assert (Hentry : axes e !! i = Some (entry_after_all i fs axis_zero)).
  { rewrite Ha.
    destruct (axis_name_cases i name Hn) as [[-> _]|[-> _]]; reflexivity. }
  exists e,
         (frame_items e (entry_after_all 0 fs axis_zero)
            (entry_after_all 1 fs axis_zero) via),
         (axis_fields (event_mask e) (entry_after_all i fs axis_zero) via).
  split; [apply deliver_all_absorb; [exact Hc | reflexivity]|].
  split; [exact Hk|].
  split; [rewrite Hentry; simpl; rewrite Hval; reflexivity|].
  split; [rewrite Hentry; simpl; rewrite Hv2; reflexivity|].
  split; [exact Hrun|]. split.
  - intros fields'.
    destruct (axis_name_cases i name Hn) as [[-> ->]|[-> ->]]; split.
    + intros H. apply frame_items_elem in H.
      decompose [and or] H; try discriminate.
      match goal with E : AxisReport _ _ = AxisReport _ _ |- _ =>
        injection E as -> end. reflexivity.
    + intros ->. apply frame_items_elem. do 5 right. left. auto.
    + intros H. apply frame_items_elem in H.
      decompose [and or] H; try discriminate.
      match goal with E : AxisReport _ _ = AxisReport _ _ |- _ =>
        injection E as -> end. reflexivity.
    + intros ->. apply frame_items_elem. do 6 right. left. auto.
  - intros v. rewrite axis_fields_elem, Hv2. split.
    + intros [[_ H]|[[_ H]|[[_ H]|[_ H]]]]; try discriminate.
      injection H as ->. reflexivity.
    + intros ->. left. auto.
Qed.

(** The theorem on a frame with two values for the horizontal axis and a
    later one for the vertical axis. *)
Lemma axis_last_value_wins_witness :
  Forall conforming
    ([FMotion 3 0 0] ++ FAxis 4 (Z.of_nat 1) 10 :: [FAxisSource 0]
       ++ FAxis 5 (Z.of_nat 1) 20 :: [FAxis 6 0 30])
  /\ axis_name !! 1%nat = Some "horizontal"%string
  /\ Forall (fun f => writes_value 1 f = false) [FAxis 6 0 30]
  /\ exists e out fields,
       deliver_all
         ([FMotion 3 0 0] ++ FAxis 4 (Z.of_nat 1) 10 :: [FAxisSource 0]
            ++ FAxis 5 (Z.of_nat 1) 20 :: [FAxis 6 0 30]) pointer_event_zero
       = Ok tt e
       /\ has (event_mask e) POINTER_EVENT_AXIS = true
       /\ valid <$> axes e !! 1%nat = Some true
       /\ value <$> axes e !! 1%nat = Some 20
       /\ run_frame
            ([FMotion 3 0 0] ++ FAxis 4 (Z.of_nat 1) 10 :: [FAxisSource 0]
               ++ FAxis 5 (Z.of_nat 1) 20 :: [FAxis 6 0 30])
            pointer_event_zero
          = Ok out pointer_event_zero
       /\ (forall fields',
             AxisReport "horizontal" fields' ∈ out <-> fields' = fields)
       /\ (forall v, AValue v ∈ fields <-> v = 20).
Proof.
  assert (Hc : Forall conforming
                 ([FMotion 3 0 0] ++ FAxis 4 (Z.of_nat 1) 10
                    :: [FAxisSource 0]
                    ++ FAxis 5 (Z.of_nat 1) 20 :: [FAxis 6 0 30]))
    by (repeat constructor; simpl; lia).
  assert (Hn : axis_name !! 1%nat = Some "horizontal"%string)
    by reflexivity.
  assert (Hp : Forall (fun f => writes_value 1 f = false) [FAxis 6 0 30])
    by (repeat constructor).
  split; [exact Hc|]. split; [exact Hn|]. split; [exact Hp|].
  exact (axis_last_value_wins [FMotion 3 0 0] [FAxisSource 0] [FAxis 6 0 30]
           1 "horizontal" 4 10 5 20 Hc Hn Hp).
Defined.

(** C9.  The position of [enter] and of [motion] is one pair of fields: an
    [enter] followed in the same frame by a [motion], the last call to
    store a position, is reported with the coordinates of the [motion],
    for the enter field as for the motion field. *)
Theorem enter_and_motion_share_position (pre mid post : list fragment)
    (serial surface x1 y1 time x2 y2 : Z) :
  Forall conforming
    (pre ++ FEnter serial surface x1 y1 :: mid
         ++ FMotion time x2 y2 :: post) ->
  Forall (fun f => writes_position f = false) post ->
  exists out,
    run_frame
      (pre ++ FEnter serial surface x1 y1 :: mid
           ++ FMotion time x2 y2 :: post) pointer_event_zero
    = Ok out pointer_event_zero
    /\ (forall x y, Entered x y ∈ out <-> x = x2 /\ y = y2)
    /\ (forall x y, Motion x y ∈ out <-> x = x2 /\ y = y2).
Proof.
  intros Hc Hpost.
  set (fs := pre ++ FEnter serial surface x1 y1 :: mid
                 ++ FMotion time x2 y2 :: post) in *.
  destruct (run_frame_conforming fs Hc) as (via & Ha & Hrun).
  set (e := absorb_all fs pointer_event_zero) in *.
  assert (Hfs : fs = (pre ++ FEnter serial surface x1 y1 :: mid)
                     ++ FMotion time x2 y2 :: post).
  { unfold fs. rewrite <- app_assoc. reflexivity. }
  assert (Hke : has (event_mask e) (bit_of KEnter) = true).
  { unfold e, fs. rewrite touched_mask.
    apply (touched_app_cons pre _ (FEnter serial surface x1 y1)). }
  assert (Hkm : has (event_mask e) (bit_of KMotion) = true).
  { unfold e. rewrite touched_mask, Hfs.
    apply (touched_app_cons _ post (FMotion time x2 y2)). }
  assert (Hxy : surface_x e = x2 /\ surface_y e = y2).
  { unfold e. rewrite Hfs, absorb_all_app, absorb_all_cons.
    destruct (absorb_all_position_kept post Hpost
                (absorb (FMotion time x2 y2)
                   (absorb_all (pre ++ FEnter serial surface x1 y1 :: mid)
                      pointer_event_zero))) as [-> ->].
    split; reflexivity. }
  destruct Hxy as [Hx Hy].
  eexists. split; [exact Hrun|]. split.
  - intros x y. rewrite frame_items_elem, Hx, Hy. split.
    + intros H; decompose [and or] H; try discriminate.
      match goal with E : Entered _ _ = Entered _ _ |- _ =>
        injection E as -> -> end. auto.
    + intros [-> ->]. auto.
  - intros x y. rewrite frame_items_elem, Hx, Hy. split.
    + intros H; decompose [and or] H; try discriminate.
      match goal with E : Motion _ _ = Motion _ _ |- _ =>
        injection E as -> -> end. auto.
    + intros [-> ->]. auto 6.
Qed.

(** In the other order it is the position of the [enter] that both
    fields report. *)
Lemma motion_then_enter_share_position (pre mid post : list fragment)
    (serial surface x1 y1 time x2 y2 : Z) :
  Forall conforming
    (pre ++ FMotion time x2 y2 :: mid
         ++ FEnter serial surface x1 y1 :: post) ->
  Forall (fun f => writes_position f = false) post ->
  exists out,
    run_frame
      (pre ++ FMotion time x2 y2 :: mid
           ++ FEnter serial surface x1 y1 :: post) pointer_event_zero
    = Ok out pointer_event_zero
    /\ (forall x y, Entered x y ∈ out <-> x = x1 /\ y = y1)
    /\ (forall x y, Motion x y ∈ out <-> x = x1 /\ y = y1).
Proof.
  intros Hc Hpost.
  set (fs := pre ++ FMotion time x2 y2 :: mid
                 ++ FEnter serial surface x1 y1 :: post) in *.
  destruct (run_frame_conforming fs Hc) as (via & Ha & Hrun).
  set (e := absorb_all fs pointer_event_zero) in *.
  assert (Hfs : fs = (pre ++ FMotion time x2 y2 :: mid)
                     ++ FEnter serial surface x1 y1 :: post).
  { unfold fs. rewrite <- app_assoc. reflexivity. }
  assert (Hkm : has (event_mask e) (bit_of KMotion) = true).
  { unfold e, fs. rewrite touched_mask.
    apply (touched_app_cons pre _ (FMotion time x2 y2)). }
  assert (Hke : has (event_mask e) (bit_of KEnter) = true).
  { unfold e. rewrite touched_mask, Hfs.
    apply (touched_app_cons _ post (FEnter serial surface x1 y1)). }
  assert (Hxy : surface_x e = x1 /\ surface_y e = y1).
  { unfold e. rewrite Hfs, absorb_all_app, absorb_all_cons.
    destruct (absorb_all_position_kept post Hpost
                (absorb (FEnter serial surface x1 y1)
                   (absorb_all (pre ++ FMotion time x2 y2 :: mid)
                      pointer_event_zero))) as [-> ->].
    split; reflexivity. }
  destruct Hxy as [Hx Hy].
  eexists. split; [exact Hrun|]. split.
  - intros x y. rewrite frame_items_elem, Hx, Hy. split.
    + intros H; decompose [and or] H; try discriminate.
      match goal with E : Entered _ _ = Entered _ _ |- _ =>
        injection E as -> -> end. auto.
    + intros [-> ->]. auto.
  - intros x y. rewrite frame_items_elem, Hx, Hy. split.
    + intros H; decompose [and or] H; try discriminate.
      match goal with E : Motion _ _ = Motion _ _ |- _ =>
        injection E as -> -> end. auto.
    + intros [-> ->]. auto 6.
Qed.

(** The theorem on a frame with a button between the two and an axis
    after them. *)
Lemma enter_and_motion_share_position_witness :
  Forall conforming
    ([] ++ FEnter 7 1 256 512 :: [FButton 8 11 272 1]
        ++ FMotion 12 768 1024 :: [FAxis 13 0 5])
  /\ Forall (fun f => writes_position f = false) [FAxis 13 0 5]
  /\ exists out,
       run_frame
         ([] ++ FEnter 7 1 256 512 :: [FButton 8 11 272 1]
             ++ FMotion 12 768 1024 :: [FAxis 13 0 5]) pointer_event_zero
       = Ok out pointer_event_zero
       /\ (forall x y, Entered x y ∈ out <-> x = 768 /\ y = 1024)
       /\ (forall x y, Motion x y ∈ out <-> x = 768 /\ y = 1024).
Proof.
  assert (Hc : Forall conforming
                 ([] ++ FEnter 7 1 256 512 :: [FButton 8 11 272 1]
                     ++ FMotion 12 768 1024 :: [FAxis 13 0 5]))
    by (repeat constructor; simpl; lia).
  assert (Hp : Forall (fun f => writes_position f = false) [FAxis 13 0 5])
    by (repeat constructor).
  split; [exact Hc|]. split; [exact Hp|].
  exact (enter_and_motion_share_position [] [FButton 8 11 272 1]
           [FAxis 13 0 5] 7 1 256 512 12 768 1024 Hc Hp).
Defined.

(** C4, as amended.  The three axis handlers index [axes] with the axis
    they are given and check nothing.  With index 0 or 1 the call marks
    its kind and updates the entry of that axis, as the accumulator
    function describes.  With any other index the call is not ignored:
    it marks its kind in the mask (and, for axis and axis-stop, stores the
    time), then stops at a store past the end of the array; nothing is
    written about it. *)
Theorem axis_handlers_do_not_check_the_index (e : pointer_event)
    (time axis value0 : Z) :
  length (axes e) = 2%nat -> 0 <= axis ->
  if axis <? 2
  then
    wl_pointer_axis time axis value0 e
    = Ok tt (absorb (FAxis time axis value0) e)
    /\ wl_pointer_axis_stop time axis e
       = Ok tt (absorb (FAxisStop time axis) e)
    /\ wl_pointer_axis_discrete axis value0 e
       = Ok tt (absorb (FAxisDiscrete axis value0) e)
  else
    wl_pointer_axis time axis value0 e
    = Fault (OutOfBounds "axes" axis)
        (set_time time
           (set_event_mask (Z.lor (event_mask e) POINTER_EVENT_AXIS) e))
    /\ wl_pointer_axis_stop time axis e
       = Fault (OutOfBounds "axes" axis)
           (set_event_mask (Z.lor (event_mask e) POINTER_EVENT_AXIS_STOP)
              (set_time time e))
    /\ wl_pointer_axis_discrete axis value0 e
       = Fault (OutOfBounds "axes" axis)
           (set_event_mask
              (Z.lor (event_mask e) POINTER_EVENT_AXIS_DISCRETE) e).
Proof.
  intros Hl Ha. destruct (Z.ltb_spec axis 2) as [Hlt|Hge].
  - assert (Hc : 0 <= axis < 2) by lia.
    repeat split.
    + exact (deliver_absorb (FAxis time axis value0) e Hc Hl).
    + exact (deliver_absorb (FAxisStop time axis) e Hc Hl).
    + exact (deliver_absorb (FAxisDiscrete axis value0) e Hc Hl).
  - assert (Hn : axes e !! Z.to_nat axis = None)
      by (apply lookup_ge_None; lia).
    repeat split;
      unfold wl_pointer_axis, wl_pointer_axis_stop, wl_pointer_axis_discrete,
        bind, mark, modify, axes_store; simpl; rewrite Hn; reflexivity.
Qed.

(** The theorem at axis index 3 on an empty accumulator. *)
Lemma axis_handlers_do_not_check_the_index_witness :
  length (axes pointer_event_zero) = 2%nat
  /\ 0 <= 3
  /\ wl_pointer_axis 5 3 7 pointer_event_zero
     = Fault (OutOfBounds "axes" 3)
         (set_time 5 (set_event_mask 16 pointer_event_zero))
  /\ wl_pointer_axis_stop 5 3 pointer_event_zero
     = Fault (OutOfBounds "axes" 3)
         (set_event_mask 64 (set_time 5 pointer_event_zero))
  /\ wl_pointer_axis_discrete 3 7 pointer_event_zero
     = Fault (OutOfBounds "axes" 3) (set_event_mask 128 pointer_event_zero).
Proof.
  assert (Hl : length (axes pointer_event_zero) = 2%nat) by reflexivity.
  assert (Ha : 0 <= 3) by lia.
  split; [exact Hl|]. split; [exact Ha|].
  exact (axis_handlers_do_not_check_the_index pointer_event_zero 5 3 7 Hl Ha).
Defined.

(** C4, counterexample.  Axis index 2 on an empty accumulator: none of
    the three handlers returns with the accumulator unchanged; each sets
    its bit of the mask (and the time) and then stores past the end of
    [axes]. *)
Lemma axis_index_two_is_not_rejected :
  wl_pointer_axis 5 2 7 pointer_event_zero
  = Fault (OutOfBounds "axes" 2)
      (set_time 5 (set_event_mask POINTER_EVENT_AXIS pointer_event_zero))
  /\ wl_pointer_axis_stop 5 2 pointer_event_zero
     = Fault (OutOfBounds "axes" 2)
         (set_event_mask POINTER_EVENT_AXIS_STOP
            (set_time 5 pointer_event_zero))
  /\ wl_pointer_axis_discrete 2 1 pointer_event_zero
     = Fault (OutOfBounds "axes" 2)
         (set_event_mask POINTER_EVENT_AXIS_DISCRETE pointer_event_zero).
Proof. repeat split; reflexivity. Qed.

End PointerFacts.

(** ** Key translation *)

Module KeyboardFacts.

Section WithLib.
Context {lib : XkbLib}.

Lemma state_view_live (w : world) (s : nat) (so : state_obj)
    (ko : keymap_obj) (callee : string) :
  states w !! s = Some so -> keymaps w !! st_keymap so = Some ko ->
  state_view (Some s) callee w = Ok (km_text ko, st_mods so) w.
Proof. intros Hs Hk. unfold state_view. rewrite Hs, Hk. reflexivity. Qed.

Lemma gettext_key_ready (g : Gettext.globals) (w : world) (s : nat)
    (so : state_obj) (ko : keymap_obj) (serial time key state : Z) :
  states w !! s = Some so -> keymaps w !! st_keymap so = Some ko ->
  Gettext.xkb_state g = Some s ->
  Gettext.keyboard_handle_key serial time key state (g, w)
  = Ok tt (g, Gettext.emit_stdout
                (Gettext.key_report
                   (xkb_syms (km_text ko) (st_mods so) (u32 (key + 8))) state)
                w).
Proof.
  intros Hs Hk Hg.
  unfold Gettext.keyboard_handle_key, bind, globals_get, in_world,
    xkb_state_key_get_syms. simpl. rewrite Hg. unfold bind.
  rewrite (state_view_live w s so ko _ Hs Hk). simpl.
  unfold Gettext.key_report, Gettext.pressed_or_released.
  destruct (xkb_syms (km_text ko) (st_mods so) (u32 (key + 8)))
    as [|sym syms]; [reflexivity|].
  destruct (sym =? XKB_KEY_BackSpace);
    destruct (state =? WL_KEYBOARD_KEY_STATE_PRESSED); reflexivity.
Qed.

Lemma book_key_ready (c : Book.client_state) (w : world) (s : nat)
    (so : state_obj) (ko : keymap_obj) (serial time key state : Z) :
  states w !! s = Some so -> keymaps w !! st_keymap so = Some ko ->
  Book.xkb_state c = Some s ->
  Book.wl_keyboard_key serial time key state (c, w)
  = Ok tt
      (c, set_stderr
            (stderr w
             ++ [Book.key_line
                   (if state =? WL_KEYBOARD_KEY_STATE_PRESSED
                    then "press"%string else "release"%string)
                   (xkb_keysym_name
                      (xkb_one_sym (km_text ko) (st_mods so) (u32 (key + 8))))
                   (xkb_one_sym (km_text ko) (st_mods so) (u32 (key + 8)));
                 Book.utf8_line
                   (xkb_utf8 (km_text ko) (st_mods so) (u32 (key + 8)))])
            w).
Proof.
  intros Hs Hk Hc.
  unfold Book.wl_keyboard_key, bind, globals_get, in_world,
    xkb_state_key_get_one_sym, xkb_state_key_get_utf8. simpl.
  rewrite Hc. unfold bind.
  rewrite (state_view_live w s so ko _ Hs Hk). simpl.
  unfold state_view. simpl. rewrite Hs, Hk. simpl.
  unfold set_stderr. simpl. rewrite <- app_assoc. reflexivity.
Qed.

(** C3, as amended.  With a keymap and a state installed, the key handler
    of either program queries the state at the code [(key + 8) mod 2^32]
    and at no other: what it prints is the rendering of the answer for
    that code.  For every key up to [2^32 - 9] that code is [key + 8]. *)
Theorem key_lookup_uses_offset_code (g : Gettext.globals)
    (c : Book.client_state) (w : world) (s : nat) (so : state_obj)
    (ko : keymap_obj) (serial time key state : Z) :
  states w !! s = Some so -> keymaps w !! st_keymap so = Some ko ->
  Gettext.xkb_state g = Some s -> Book.xkb_state c = Some s ->
  Gettext.keyboard_handle_key serial time key state (g, w)
  = Ok tt (g, Gettext.emit_stdout
                (Gettext.key_report
                   (xkb_syms (km_text ko) (st_mods so)
                      ((key + 8) mod 2 ^ 32)) state)
                w)
  /\ Book.wl_keyboard_key serial time key state (c, w)
     = Ok tt
         (c, set_stderr
               (stderr w
                ++ [Book.key_line
                      (if state =? WL_KEYBOARD_KEY_STATE_PRESSED
                       then "press"%string else "release"%string)
                      (xkb_keysym_name
                         (xkb_one_sym (km_text ko) (st_mods so)
                            ((key + 8) mod 2 ^ 32)))
                      (xkb_one_sym (km_text ko) (st_mods so)
                         ((key + 8) mod 2 ^ 32));
                    Book.utf8_line
                      (xkb_utf8 (km_text ko) (st_mods so)
                         ((key + 8) mod 2 ^ 32))])
               w)
  /\ (0 <= key -> key + 8 < 2 ^ 32 -> (key + 8) mod 2 ^ 32 = key + 8).
Proof.
  intros Hs Hk Hg Hc. split; [|split].
  - exact (gettext_key_ready g w s so ko serial time key state Hs Hk Hg).
  - exact (book_key_ready c w s so ko serial time key state Hs Hk Hc).
  - intros H0 H1. apply Z.mod_small. lia.
Qed.

(** Without a state the two handlers hand [NULL] to xkbcommon. *)
Lemma gettext_key_uninitialized (g : Gettext.globals) (w : world)
    (serial time key state : Z) :
  Gettext.xkb_state g = None ->
  Gettext.keyboard_handle_key serial time key state (g, w)
  = Fault (NullArgument "xkb_state_key_get_syms") (g, w).
Proof.
  intros Hg. unfold Gettext.keyboard_handle_key, bind, globals_get, in_world,
    xkb_state_key_get_syms. simpl. rewrite Hg. reflexivity.
Qed.

Lemma gettext_modifiers_uninitialized (g : Gettext.globals) (w : world)
    (serial d l k grp : Z) :
  Gettext.xkb_state g = None ->
  Gettext.keyboard_handle_modifiers serial d l k grp (g, w)
  = Fault (NullArgument "xkb_state_update_mask") (g, w).
Proof.
  intros Hg. unfold Gettext.keyboard_handle_modifiers, bind, globals_get,
    in_world. simpl. rewrite Hg. reflexivity.
Qed.

(** With a state installed the modifiers handler replaces the mask of the
    state as a whole. *)
Lemma gettext_modifiers_ready (g : Gettext.globals) (w : world) (s : nat)
    (so : state_obj) (serial d l k grp : Z) :
  Gettext.xkb_state g = Some s -> states w !! s = Some so ->
  Gettext.keyboard_handle_modifiers serial d l k grp (g, w)
  = Ok tt (g, set_states
                (<[s := {| st_refcnt := st_refcnt so;
                           st_keymap := st_keymap so;
                           st_mods := {| depressed := d; latched := l;
                                         locked := k; group := grp |} |}]>
                   (states w)) w).
Proof.
  intros Hg Hs. unfold Gettext.keyboard_handle_modifiers, bind, globals_get,
    in_world, xkb_state_update_mask. simpl. rewrite Hg, Hs. reflexivity.
Qed.

(** C5, as amended.  With no state installed the key handler and the
    modifiers handler of gettext.c are neither a no-op nor a reported
    failure: each hands the null state to xkbcommon,
    [xkb_state_key_get_syms] and [xkb_state_update_mask], which need a
    state.  The handlers themselves have changed nothing when they get
    there. *)
Theorem translation_without_state_is_not_guarded (g : Gettext.globals)
    (w : world) (serial time key state d l k grp : Z) :
  Gettext.xkb_state g = None ->
  Gettext.keyboard_handle_key serial time key state (g, w)
  = Fault (NullArgument "xkb_state_key_get_syms") (g, w)
  /\ Gettext.keyboard_handle_modifiers serial d l k grp (g, w)
     = Fault (NullArgument "xkb_state_update_mask") (g, w).
Proof.
  intros Hg. split.
  - apply gettext_key_uninitialized. exact Hg.
  - apply gettext_modifiers_uninitialized. exact Hg.
Qed.

End WithLib.

(** C3, counterexample.  On the sample keymap, hardware code 4294967295
    is translated at code 7 and prints the letter found there; code
    4294967295 + 8 has no symbol, and nothing would be printed for it. *)
Lemma key_offset_wraps_around :
  (exists g w,
     (Gettext.keyboard_handle_keymap (lib := Sample.lib) 1 5 17 ;;
      Gettext.keyboard_handle_key (lib := Sample.lib) 0 0 4294967295 1)
       (Sample.globals0, Sample.world0)
     = Ok tt (g, w)
     /\ stdout w = [String.append "Key b pressed" nl])
  /\ Gettext.key_report (lib := Sample.lib)
       (xkb_syms (XkbLib := Sample.lib) (content Sample.good_file) mods_zero
          (4294967295 + 8)) 1
     = [].
Proof.
  split.
  - eexists _, _. split; [vm_compute; reflexivity | reflexivity].
  - reflexivity.
Qed.

(** C5, counterexample.  On the globals that [main] starts with, before
    any keymap event, a key event and a modifiers event do not come
    back. *)
Lemma key_event_before_keymap :
  Gettext.keyboard_handle_key (lib := Sample.lib) 0 0 30 1
    (Gettext.globals_zero, world_empty)
  = Fault (NullArgument "xkb_state_key_get_syms")
      (Gettext.globals_zero, world_empty)
  /\ Gettext.keyboard_handle_modifiers 0 1 0 0 0
       (Gettext.globals_zero, world_empty)
     = Fault (NullArgument "xkb_state_update_mask")
         (Gettext.globals_zero, world_empty).
Proof. split; reflexivity. Qed.

(** The theorem on the globals that [main] starts with. *)
Lemma translation_without_state_is_not_guarded_witness :
  Gettext.xkb_state Gettext.globals_zero = None
  /\ Gettext.keyboard_handle_key (lib := Sample.lib) 0 0 30 1
       (Gettext.globals_zero, world_empty)
     = Fault (NullArgument "xkb_state_key_get_syms")
         (Gettext.globals_zero, world_empty)
  /\ Gettext.keyboard_handle_modifiers 0 1 0 0 0
       (Gettext.globals_zero, world_empty)
     = Fault (NullArgument "xkb_state_update_mask")
         (Gettext.globals_zero, world_empty).
Proof.
  assert (Hg : Gettext.xkb_state Gettext.globals_zero = None) by reflexivity.
  split; [exact Hg|].
  exact (translation_without_state_is_not_guarded (lib := Sample.lib)
           Gettext.globals_zero world_empty 0 0 30 1 1 0 0 0 Hg).
Defined.

(** Both programs reach the sample ready state from the sample start. *)
Lemma sample_keymap_installs :
  Gettext.keyboard_handle_keymap (lib := Sample.lib) 1 5 17
    (Sample.globals0, Sample.world0)
  = Ok tt (Sample.ready_globals, Sample.ready_world)
  /\ Book.wl_keyboard_keymap (lib := Sample.lib) 1 5 17
       (Sample.client0, Sample.world0)
     = Ok tt (Sample.ready_client, Sample.ready_world).
Proof. split; vm_compute; reflexivity. Qed.

(** The scenario of a keymap, a modifier mask and a key: the letter is
    printed in the case the mask selects. *)
Example keymap_modifiers_key :
  exists g w,
    Gettext.dispatch_all (lib := Sample.lib)
      [Gettext.Keymap 1 5 17; Gettext.Modifiers 0 1 0 0 0;
       Gettext.Key 0 0 30 1; Gettext.Key 0 0 14 0]
      (Sample.globals0, Sample.world0)
    = Ok tt (g, w)
    /\ stdout w = [String.append "Key A pressed" nl;
                   String.append "Backspace released" nl].
Proof. eexists _, _. split; [vm_compute; reflexivity | reflexivity]. Qed.

(** The theorem on the sample keymap, for the key of the letter a. *)
Lemma key_lookup_uses_offset_code_witness :
  states Sample.ready_world !! 1%nat
  = Some {| st_refcnt := 1; st_keymap := 0; st_mods := mods_zero |}
  /\ keymaps Sample.ready_world !! 0%nat
     = Some {| km_refcnt := 2; km_text := content Sample.good_file |}
  /\ Gettext.xkb_state Sample.ready_globals = Some 1%nat
  /\ Book.xkb_state Sample.ready_client = Some 1%nat
  /\ Gettext.keyboard_handle_key (lib := Sample.lib) 0 0 30 1
       (Sample.ready_globals, Sample.ready_world)
     = Ok tt (Sample.ready_globals,
              set_stdout [String.append "Key a pressed" nl] Sample.ready_world)
  /\ Book.wl_keyboard_key (lib := Sample.lib) 0 0 30 1
       (Sample.ready_client, Sample.ready_world)
     = Ok tt (Sample.ready_client,
              set_stderr
                ["[DEBUG] key press: sym: a            (97), "%string;
                 String.append "[DEBUG] utf8: 'a'" nl] Sample.ready_world).
Proof.
  assert (Hs : states Sample.ready_world !! 1%nat
               = Some {| st_refcnt := 1; st_keymap := 0;
                         st_mods := mods_zero |}) by reflexivity.
  assert (Hk : keymaps Sample.ready_world !! 0%nat
               = Some {| km_refcnt := 2; km_text := content Sample.good_file |})
    by reflexivity.
  assert (Hg : Gettext.xkb_state Sample.ready_globals = Some 1%nat)
    by reflexivity.
  assert (Hc : Book.xkb_state Sample.ready_client = Some 1%nat)
    by reflexivity.
  split; [exact Hs|]. split; [exact Hk|]. split; [exact Hg|].
  split; [exact Hc|].
  destruct (key_lookup_uses_offset_code (lib := Sample.lib) Sample.ready_globals
              Sample.ready_client Sample.ready_world 1
              {| st_refcnt := 1; st_keymap := 0; st_mods := mods_zero |}
              {| km_refcnt := 2; km_text := content Sample.good_file |}
              0 0 30 1 Hs Hk Hg Hc) as (H1 & H2 & _).
  split; [exact H1 | exact H2].
Defined.

End KeyboardFacts.

(** ** Installing a keymap *)

Lemma preserves_bind {S A B} (m : M S A) (k : A -> M S B) (P : S -> Prop) :
  preserves m P -> (forall a, preserves (k a) P) -> preserves (bind m k) P.
Proof.
  intros Hm Hk s Hs. specialize (Hm s Hs). unfold bind.
  destruct (m s) as [a s'|f s']; simpl in *.
  - apply Hk. exact Hm.
  - exact Hm.
Qed.

Lemma preserves_ret {S A} (a : A) (P : S -> Prop) : preserves (ret a) P.
Proof. intros s Hs. exact Hs. Qed.

Lemma preserves_raise {S A} (f : fault) (P : S -> Prop) :
  preserves (raise f : M S A) P.
Proof. intros s Hs. exact Hs. Qed.

Lemma preserves_when {S} (b : bool) (m : M S unit) (P : S -> Prop) :
  preserves m P -> preserves (when b m) P.
Proof. intros Hm. destruct b; [exact Hm | apply preserves_ret]. Qed.

Lemma preserves_in_world {G A} (m : M world A) (P : world -> Prop) :
  preserves m P -> preserves (in_world m : M (G * world) A) (fun s => P (snd s)).
Proof.
  intros Hm [g w] Hs. specialize (Hm w Hs). unfold in_world. simpl in *.
  destruct (m w); exact Hm.
Qed.

Lemma preserves_globals_get {G} (P : G * world -> Prop) :
  preserves (globals_get : M (G * world) G) P.
Proof. intros s Hs. exact Hs. Qed.

Lemma preserves_globals_set {G} (f : G -> G) (P : world -> Prop) :
  preserves (globals_set f : M (G * world) unit) (fun s => P (snd s)).
Proof. intros s Hs. exact Hs. Qed.

Lemma bind_ok {S A B} (m : M S A) (k : A -> M S B) (s : S) (a : A) (s' : S) :
  m s = Ok a s' -> bind m k s = k a s'.
Proof. intros E. unfold bind. rewrite E. reflexivity. Qed.

Lemma in_world_ok {G A} (m : M world A) (g : G) (w : world) (a : A)
    (w' : world) :
  m w = Ok a w' -> in_world m (g, w) = Ok a (g, w').
Proof. intros E. unfold in_world. simpl. rewrite E. reflexivity. Qed.

Lemma globals_get_ok {G} (s : G * world) : globals_get s = Ok (fst s) s.
Proof. reflexivity. Qed.

Lemma globals_set_ok {G} (f : G -> G) (s : G * world) :
  globals_set f s = Ok tt (f (fst s), snd s).
Proof. reflexivity. Qed.

Lemma munmap_ok (size : Z) (w : world) :
  munmap size w = Ok tt (set_mappings (pred (mappings w)) w).
Proof. reflexivity. Qed.

Lemma close_ok (fd : Z) (w : world) :
  close fd w = Ok tt (set_fds (delete fd (fds w)) w).
Proof. reflexivity. Qed.

Lemma fprintf_stderr_ok (line : string) (w : world) :
  fprintf_stderr line w = Ok tt (set_stderr (stderr w ++ [line]) w).
Proof. reflexivity. Qed.

Module InstallFacts.
Section WithLib.
Context {lib : XkbLib}.

(** xkbcommon and the output functions leave the descriptors alone. *)

Lemma keymap_unref_closed (km : option nat) (fd : Z) :
  preserves (xkb_keymap_unref km) (closed fd).
Proof.
  intros w Hw. unfold xkb_keymap_unref. destruct km as [k|]; [|exact Hw].
  destruct (keymaps w !! k) as [o|]; [|exact Hw].
  destruct (km_refcnt o <=? 1)%nat; exact Hw.
Qed.

Lemma state_unref_closed (st : option nat) (fd : Z) :
  preserves (xkb_state_unref st) (closed fd).
Proof.
  intros w Hw. unfold xkb_state_unref. destruct st as [s|]; [|exact Hw].
  destruct (states w !! s) as [o|]; [|exact Hw].
  destruct (st_refcnt o <=? 1)%nat; [|exact Hw].
  apply (keymap_unref_closed (Some (st_keymap o)) fd). exact Hw.
Qed.

Lemma state_new_closed (km : option nat) (fd : Z) :
  preserves (xkb_state_new km) (closed fd).
Proof.
  intros w Hw. unfold xkb_state_new. destruct km as [k|]; [|exact Hw].
  destruct (keymaps w !! k) as [o|]; [|exact Hw].
  destruct (state_alloc w) as [|[] rest]; exact Hw.
Qed.

Lemma fprintf_stderr_closed (line : string) (fd : Z) :
  preserves (fprintf_stderr line) (closed fd).
Proof. intros w Hw. exact Hw. Qed.

Local Ltac keeps_closed fd :=
  repeat first
    [ apply preserves_bind; [|intros ?]
    | apply preserves_ret
    | apply preserves_when
    | apply (preserves_globals_set _ (closed fd))
    | apply preserves_globals_get
    | apply (preserves_in_world _ (closed fd))
    | apply keymap_unref_closed
    | apply state_unref_closed
    | apply state_new_closed
    | apply fprintf_stderr_closed ].

Lemma mmap_cases (w : world) (size fd : Z) :
  mmap size fd w = Ok None w
  \/ exists f, fds w !! fd = Some f /\ mappable f = true
               /\ mmap size fd w
                  = Ok (Some (content f)) (set_mappings (S (mappings w)) w).
Proof.
  unfold mmap. destruct (fds w !! fd) as [f|]; [|auto].
  destruct (mappable f) eqn:Hm; [|auto]. right. exists f. auto.
Qed.

Lemma keymap_new_cases (ctx : option nat) (text : string) (w : world) :
  is_Some ctx ->
  (xkb_compiles text = false
   /\ xkb_keymap_new_from_string ctx text w = Ok None w)
  \/ (xkb_compiles text = true
      /\ xkb_keymap_new_from_string ctx text w
         = Ok (Some (next_id w))
             (set_next_id (S (next_id w))
                (set_keymaps
                   (<[next_id w := {| km_refcnt := 1; km_text := text |}]>
                      (keymaps w)) w))).
Proof.
  intros [c ->]. unfold xkb_keymap_new_from_string.
  destruct (xkb_compiles text); auto.
Qed.

(** *** The paths of gettext.c's keymap handler *)

Lemma mmap_open (w : world) (size fd : Z) (f : file) :
  fds w !! fd = Some f -> mappable f = true ->
  mmap size fd w = Ok (Some (content f)) (set_mappings (S (mappings w)) w).
Proof. intros Hf Hm. unfold mmap. rewrite Hf, Hm. reflexivity. Qed.

Lemma gettext_keymap_map_failed (g : Gettext.globals) (w : world)
    (format fd size : Z) :
  mmap size fd w = Ok None w ->
  Gettext.keyboard_handle_keymap format fd size (g, w)
  = Ok tt (g, set_fds (delete fd (fds w))
                (set_stderr
                   (stderr w ++ [String.append "Failed to mmap keymap" nl])
                   w)).
Proof.
  intros Hm. unfold Gettext.keyboard_handle_keymap, bind, in_world.
  simpl. rewrite Hm. reflexivity.
Qed.

Lemma gettext_keymap_compile_failed (g : Gettext.globals) (w : world)
    (format fd size : Z) (f : file) (ctx : nat) :
  fds w !! fd = Some f -> mappable f = true ->
  Gettext.xkb_context g = Some ctx ->
  xkb_compiles (content f) = false ->
  Gettext.keyboard_handle_keymap format fd size (g, w)
  = Ok tt (Gettext.set_error true g,
           set_stderr
             (stderr w ++ [String.append "Failed to compile keymap" nl])
             (set_fds (delete fd (fds w)) w)).
Proof.
  intros Hf Hm Hc Hx. unfold Gettext.keyboard_handle_keymap, bind, in_world.
  simpl. rewrite (mmap_open w size fd f Hf Hm). simpl.
  rewrite Hc. simpl. rewrite Hx. destruct w; reflexivity.
Qed.

(** gettext.c: once a context exists, the keymap handler leaves the
    descriptor closed wherever it stops. *)
Lemma gettext_keymap_closes (g : Gettext.globals) (w : world)
    (format fd size : Z) :
  is_Some (Gettext.xkb_context g) ->
  closed fd
    (snd (final_state (Gettext.keyboard_handle_keymap format fd size (g, w)))).
Proof.
  intros [ctx Hc].
  destruct (mmap_cases w size fd) as [Hm|(f & Hf & Hmp & Hm)].
  - rewrite gettext_keymap_map_failed by exact Hm. apply lookup_delete_eq.
  - unfold Gettext.keyboard_handle_keymap.
    rewrite (bind_ok _ _ _ _ _ (in_world_ok _ g _ _ _ Hm)).
    rewrite (bind_ok _ _ _ _ _ (globals_get_ok _)).
    cbn [fst snd]. rewrite Hc.
    destruct (keymap_new_cases (Some ctx) (content f)
                (set_mappings (S (mappings w)) w) ltac:(eauto))
      as [(Hx & Hn)|(Hx & Hn)];
      rewrite (bind_ok _ _ _ _ _ (in_world_ok _ g _ _ _ Hn));
      rewrite (bind_ok _ _ _ _ _ (in_world_ok _ g _ _ _ (munmap_ok _ _)));
      rewrite (bind_ok _ _ _ _ _ (in_world_ok _ g _ _ _ (close_ok _ _)));
      match goal with
      | |- closed fd (snd (final_state (?m ?s0))) =>
          apply (fun Hp : preserves m (fun x => closed fd (snd x)) => Hp s0)
      end;
      solve [unfold Gettext.errorOccurred; keeps_closed fd
            | apply lookup_delete_eq].
Qed.


Lemma state_new_cases (k : nat) (ko : keymap_obj) (w : world) :
  keymaps w !! k = Some ko ->
  (exists rest,
     state_alloc w = false :: rest
     /\ xkb_state_new (Some k) w = Ok None (set_state_alloc rest w))
  \/ ((forall rest, state_alloc w <> false :: rest)
      /\ xkb_state_new (Some k) w
         = Ok (Some (next_id w))
             (set_next_id (S (next_id w))
                (set_state_alloc (tail (state_alloc w))
                   (set_states
                      (<[next_id w := {| st_refcnt := 1; st_keymap := k;
                                         st_mods := mods_zero |}]>
                         (states w))
                      (set_keymaps
                         (<[k := {| km_refcnt := S (km_refcnt ko);
                                    km_text := km_text ko |}]>
                            (keymaps w)) w))))).
Proof.
  intros Hk. unfold xkb_state_new. rewrite Hk.
  destruct (state_alloc w) as [|[] rest]; [right|right|left; eauto];
    (split; [intros r E; discriminate | reflexivity]).
Qed.

(** *** Releasing the pair that is installed *)

Lemma keymap_unref_live (k : nat) (ko : keymap_obj) (w : world) :
  keymaps w !! k = Some ko ->
  exists w',
    xkb_keymap_unref (Some k) w = Ok tt w'
    /\ outside_heap w' = outside_heap w
    /\ states w' = states w
    /\ (forall j, k <> j -> keymaps w' !! j = keymaps w !! j)
    /\ (forall j, is_Some (keymaps w' !! j) -> is_Some (keymaps w !! j))
    /\ ((1 < km_refcnt ko)%nat ->
        keymaps w' !! k = Some {| km_refcnt := pred (km_refcnt ko);
                                  km_text := km_text ko |}).
Proof.
  intros Hk. unfold xkb_keymap_unref. rewrite Hk.
  destruct (km_refcnt ko <=? 1)%nat eqn:Hr; eexists;
    (split; [reflexivity|]); (split; [reflexivity|]);
    (split; [reflexivity|]); cbn [keymaps set_keymaps]; repeat split.
  - intros j Hj. apply lookup_delete_ne. exact Hj.
  - intros j [o Ho]. apply lookup_delete_Some in Ho as [_ Ho]. eauto.
  - intros Hgt. apply Nat.leb_le in Hr. lia.
  - intros j Hj. apply lookup_insert_ne. exact Hj.
  - intros j [o Ho]. destruct (decide (k = j)) as [<-|Hne]; [eauto|].
    rewrite lookup_insert_ne in Ho by exact Hne. eauto.
  - intros _. apply lookup_insert_eq.
Qed.

Lemma state_unref_installed (k s : nat) (ko : keymap_obj) (so : state_obj)
    (w : world) :
  keymaps w !! k = Some ko -> states w !! s = Some so ->
  st_keymap so = k -> (1 < km_refcnt ko)%nat ->
  exists w' ko',
    xkb_state_unref (Some s) w = Ok tt w'
    /\ outside_heap w' = outside_heap w
    /\ keymaps w' !! k = Some ko'
    /\ (forall j, k <> j -> keymaps w' !! j = keymaps w !! j)
    /\ (forall j, is_Some (states w' !! j) -> is_Some (states w !! j)).
Proof.
  intros Hk Hs Hsk Hr. unfold xkb_state_unref. rewrite Hs.
  destruct (st_refcnt so <=? 1)%nat.
  - destruct (keymap_unref_live k ko (set_states (delete s (states w)) w) Hk)
      as (w' & Hu & Hout & Hst & Hne & _ & Hlive).
    rewrite Hsk. exists w'. eexists. split; [exact Hu|].
    split; [exact Hout|]. split; [exact (Hlive Hr)|]. split; [exact Hne|].
    intros j. rewrite Hst. cbn [states set_states].
    intros [o Ho]. apply lookup_delete_Some in Ho as [_ Ho]. eauto.
  - eexists _, ko. split; [reflexivity|]. split; [reflexivity|].
    cbn [keymaps states set_states]. split; [exact Hk|].
    split; [reflexivity|].
    intros j [o Ho]. destruct (decide (s = j)) as [<-|Hne]; [eauto|].
    rewrite lookup_insert_ne in Ho by exact Hne. eauto.
Qed.

Lemma release_pair (km st : option nat) (w : world) :
  installed km st w ->
  exists w1 w2,
    xkb_state_unref st w = Ok tt w1
    /\ xkb_keymap_unref km w1 = Ok tt w2
    /\ outside_heap w2 = outside_heap w
    /\ (forall j, km <> Some j -> keymaps w2 !! j = keymaps w !! j)
    /\ (forall j, is_Some (keymaps w2 !! j) -> is_Some (keymaps w !! j))
    /\ (forall j, is_Some (states w2 !! j) -> is_Some (states w !! j)).
Proof.
  unfold installed. destruct km as [k|], st as [s|]; try contradiction.
  - intros (ko & so & Hk & Hs & Hsk & Hr).
    destruct (state_unref_installed k s ko so w Hk Hs Hsk Hr)
      as (w1 & ko' & Hu1 & Hout1 & Hk1 & Hne1 & Hs1).
    destruct (keymap_unref_live k ko' w1 Hk1)
      as (w2 & Hu2 & Hout2 & Hst2 & Hne2 & Hl2 & _).
    exists w1, w2. split; [exact Hu1|]. split; [exact Hu2|].
    split; [congruence|]. repeat split.
    + intros j Hj. rewrite Hne2, Hne1 by congruence. reflexivity.
    + intros j Hj. destruct (decide (k = j)) as [<-|Hne]; [eauto|].
      apply Hl2 in Hj. rewrite Hne1 in Hj by exact Hne. exact Hj.
    + intros j. rewrite Hst2. apply Hs1.
  - intros [ko Hk].
    destruct (keymap_unref_live k ko w Hk)
      as (w2 & Hu2 & Hout2 & Hst2 & Hne2 & Hl2 & _).
    exists w, w2. split; [reflexivity|]. split; [exact Hu2|].
    split; [exact Hout2|]. repeat split.
    + intros j Hj. apply Hne2. congruence.
    + exact Hl2.
    + intros j. rewrite Hst2. auto.
  - intros _. exists w, w. repeat split; auto.
Qed.

Lemma when_state_unref_ok {G} (st : option nat) (g : G) (w w' : world) :
  xkb_state_unref st w = Ok tt w' ->
  when (negb (is_null st)) (in_world (xkb_state_unref st)) (g, w)
  = Ok tt (g, w').
Proof.
  intros E. destruct st; simpl.
  - apply in_world_ok. exact E.
  - injection E as <-. reflexivity.
Qed.

Lemma when_keymap_unref_ok {G} (km : option nat) (g : G) (w w' : world) :
  xkb_keymap_unref km w = Ok tt w' ->
  when (negb (is_null km)) (in_world (xkb_keymap_unref km)) (g, w)
  = Ok tt (g, w').
Proof.
  intros E. destruct km; simpl.
  - apply in_world_ok. exact E.
  - injection E as <-. reflexivity.
Qed.

Lemma outside_heap_fields (w w' : world) :
  outside_heap w' = outside_heap w ->
  fds w' = fds w /\ next_id w' = next_id w
  /\ state_alloc w' = state_alloc w /\ stderr w' = stderr w
  /\ stdout w' = stdout w.
Proof. unfold outside_heap. intros E. injection E. auto. Qed.

(** gettext.c, a text that compiles: the handler returns with the new
    keymap installed, and with a state built from it unless the state
    could not be allocated, in which case the error flag is set after a
    diagnostic. *)
Lemma gettext_keymap_install (g : Gettext.globals) (w : world)
    (format fd size : Z) (f : file) :
  installed (Gettext.keymap g) (Gettext.xkb_state g) w -> heap_ok w ->
  fds w !! fd = Some f -> mappable f = true ->
  is_Some (Gettext.xkb_context g) ->
  xkb_compiles (content f) = true ->
  exists g' w',
    Gettext.keyboard_handle_keymap format fd size (g, w) = Ok tt (g', w')
    /\ installed (Gettext.keymap g') (Gettext.xkb_state g') w'
    /\ heap_ok w'
    /\ fds w' = delete fd (fds w)
    /\ Gettext.keymap g' = Some (next_id w)
    /\ (exists ko, keymaps w' !! next_id w = Some ko
                   /\ km_text ko = content f)
    /\ match state_alloc w with
       | false :: _ =>
           Gettext.xkb_state g' = None /\ Gettext.error g' = true
           /\ stderr w'
              = stderr w ++ [String.append "Failed to create XKB state" nl]
       | _ =>
           Gettext.xkb_state g' = Some (S (next_id w))
           /\ Gettext.error g' = Gettext.error g
           /\ stderr w' = stderr w
           /\ exists so, states w' !! S (next_id w) = Some so
                         /\ st_keymap so = next_id w
                         /\ st_mods so = mods_zero
       end.
Proof.
  intros Hi [Hhk Hhs] Hf Hmp Hctx Hx.
  set (n := next_id w).
  set (w3 := set_fds (delete fd (fds w))
               (set_mappings (mappings w)
                  (set_next_id (S n)
                     (set_keymaps
                        (<[n := {| km_refcnt := 1;
                                   km_text := content f |}]> (keymaps w))
                        (set_mappings (S (mappings w)) w))))).
  assert (Hi3 : installed (Gettext.keymap g) (Gettext.xkb_state g) w3).
  { unfold installed in *.
    destruct (Gettext.keymap g) as [k|], (Gettext.xkb_state g) as [s|];
      try exact Hi.
    - destruct Hi as (ko & so & Hk & Hs & Hsk & Hr).
      exists ko, so. repeat split; try assumption.
      unfold w3. cbn [keymaps set_fds set_mappings set_next_id set_keymaps].
      rewrite lookup_insert_ne; [exact Hk|].
      apply Hhk in Hk. unfold n. lia.
    - destruct Hi as [ko Hk].
      unfold w3. cbn [keymaps set_fds set_mappings set_next_id set_keymaps].
      rewrite lookup_insert_ne; [eauto|].
      apply Hhk in Hk. unfold n. lia. }
  destruct (release_pair _ _ w3 Hi3)
    as (w4 & w5 & Hu1 & Hu2 & Hout & Hkm & Hkl & Hsl).
  apply outside_heap_fields in Hout as (Hfd & Hnid & Hal & Herr & _).
  assert (Hn5 : keymaps w5 !! n
                = Some {| km_refcnt := 1; km_text := content f |}).
  { rewrite Hkm.
    - unfold w3. cbn [keymaps set_fds set_mappings set_next_id set_keymaps].
      apply lookup_insert_eq.
    - intros E. unfold installed in Hi.
      destruct (Gettext.xkb_state g);
        rewrite E in Hi; [destruct Hi as (ko & _ & Hk & _)|destruct Hi as [ko Hk]];
        apply Hhk in Hk; unfold n in Hk; lia. }
  assert (Hlive_k : forall j, is_Some (keymaps w5 !! j) -> (j < S n)%nat).
  { intros j Hj. apply Hkl in Hj as [o Ho]. unfold w3 in Ho.
    cbn [keymaps set_fds set_mappings set_next_id set_keymaps] in Ho.
    destruct (decide (n = j)) as [<-|Hne]; [lia|].
    rewrite lookup_insert_ne in Ho by exact Hne. apply Hhk in Ho.
    unfold n. lia. }
  assert (Hlive_s : forall j, is_Some (states w5 !! j) -> (j < S n)%nat).
  { intros j Hj. apply Hsl in Hj as [o Ho]. apply Hhs in Ho. unfold n. lia. }
  destruct Hctx as [ctx Hctx].
  unfold Gettext.keyboard_handle_keymap.
  rewrite (bind_ok _ _ _ _ _ (in_world_ok _ g _ _ _ (mmap_open w size fd f Hf Hmp))).
  rewrite (bind_ok _ _ _ _ _ (globals_get_ok _)). cbn [fst snd]. rewrite Hctx.
  destruct (keymap_new_cases (Some ctx) (content f)
              (set_mappings (S (mappings w)) w) ltac:(eauto))
    as [(Hx' & _)|(_ & Hn)]; [congruence|].
  rewrite (bind_ok _ _ _ _ _ (in_world_ok _ g _ _ _ Hn)).
  rewrite (bind_ok _ _ _ _ _ (in_world_ok _ g _ _ _ (munmap_ok _ _))).
  rewrite (bind_ok _ _ _ _ _ (in_world_ok _ g _ _ _ (close_ok _ _))).
  rewrite (bind_ok _ _ _ _ _ (globals_get_ok _)). cbn [fst snd].
  change (next_id (set_mappings (S (mappings w)) w)) with n.
  match goal with
  | |- exists g' w', _ (g, ?W) = _ /\ _ => change W with w3
  end.
  rewrite (bind_ok _ _ _ _ _ (when_state_unref_ok _ g _ _ Hu1)).
  rewrite (bind_ok _ _ _ _ _ (when_keymap_unref_ok _ g _ _ Hu2)).
  rewrite (bind_ok _ _ _ _ _ (globals_set_ok _ _)). cbn [fst snd].
  assert (Hfd5 : fds w5 = delete fd (fds w)) by (rewrite Hfd; reflexivity).
  assert (Hnid5 : next_id w5 = S n) by (rewrite Hnid; reflexivity).
  assert (Hal5 : state_alloc w5 = state_alloc w)
    by (rewrite Hal; reflexivity).
  assert (Herr5 : stderr w5 = stderr w) by (rewrite Herr; reflexivity).
  destruct (state_new_cases n _ w5 Hn5)
    as [(rest & Hrest & Hnew)|(Hrest & Hnew)];
    rewrite (bind_ok _ _ _ _ _ (in_world_ok _ _ _ _ _ Hnew));
    rewrite (bind_ok _ _ _ _ _ (globals_set_ok _ _)); cbn [fst snd when is_null].
  - rewrite (bind_ok _ _ _ _ _ (in_world_ok _ _ _ _ _ (fprintf_stderr_ok _ _))).
    unfold Gettext.errorOccurred. rewrite globals_set_ok. cbn [fst snd].
    eexists _, _. split; [reflexivity|]. unfold heap_ok.
    cbn [Gettext.keymap Gettext.xkb_state Gettext.error Gettext.set_error
         Gettext.set_xkb_state Gettext.set_keymap installed
         keymaps states fds next_id stderr set_stderr set_state_alloc].
    split; [rewrite Hn5; eauto|].
    split; [split; intros j o Hj; rewrite Hnid5;
            [apply Hlive_k|apply Hlive_s]; eauto|].
    split; [exact Hfd5|]. split; [reflexivity|].
    split; [rewrite Hn5; eauto|].
    rewrite <- Hal5, Hrest, Herr5. auto.
  - unfold ret.
    eexists _, _. split; [reflexivity|]. unfold heap_ok.
    cbn [Gettext.keymap Gettext.xkb_state Gettext.error
         Gettext.set_xkb_state Gettext.set_keymap installed
         keymaps states fds next_id stderr set_next_id set_state_alloc
         set_states set_keymaps km_refcnt].
    rewrite Hnid5.
    assert (HnS : n <> S n) by lia.
    split.
    { eexists _, _. rewrite lookup_insert_eq, lookup_insert_eq.
      repeat split; cbn [km_refcnt st_keymap]; lia. }
    split.
    { split; intros j o Hj.
      - destruct (decide (n = j)) as [<-|Hne]; [lia|].
        rewrite lookup_insert_ne in Hj by exact Hne.
        apply Nat.lt_lt_succ_r, Hlive_k. eauto.
      - destruct (decide (S n = j)) as [<-|Hne]; [lia|].
        rewrite lookup_insert_ne in Hj by exact Hne.
        apply Nat.lt_lt_succ_r, Hlive_s. eauto. }
    split; [exact Hfd5|]. split; [reflexivity|].
    split; [rewrite lookup_insert_eq; eauto|].
    rewrite <- Hal5.
    assert (Hgoal : Some (S n) = Some (S n)
                    /\ Gettext.error g = Gettext.error g
                    /\ stderr w5 = stderr w
                    /\ exists so,
                         <[S n := {| st_refcnt := 1; st_keymap := n;
                                     st_mods := mods_zero |}]> (states w5)
                         !! S n = Some so
                         /\ st_keymap so = n /\ st_mods so = mods_zero).
    { repeat split; [exact Herr5|]. eexists. rewrite lookup_insert_eq. eauto. }
    destruct (state_alloc w5) as [|[] rest]; [exact Hgoal|exact Hgoal|].
    exfalso. apply (Hrest rest). reflexivity.
Qed.

(** gettext.c, a text that does not compile, with a pair installed: the
    pair stays installed and keys translate as before. *)
Lemma gettext_failed_install_keeps_translation (g : Gettext.globals)
    (w : world) (format fd size : Z) (f : file) (s : nat) (so : state_obj)
    (ko : keymap_obj) (serial time key state : Z) :
  fds w !! fd = Some f -> mappable f = true ->
  is_Some (Gettext.xkb_context g) ->
  xkb_compiles (content f) = false ->
  states w !! s = Some so -> keymaps w !! st_keymap so = Some ko ->
  Gettext.xkb_state g = Some s ->
  exists g' w',
    Gettext.keyboard_handle_keymap format fd size (g, w) = Ok tt (g', w')
    /\ Gettext.keymap g' = Gettext.keymap g
    /\ Gettext.xkb_state g' = Gettext.xkb_state g
    /\ keymaps w' = keymaps w /\ states w' = states w
    /\ Gettext.keyboard_handle_key serial time key state (g', w')
       = Ok tt (g', Gettext.emit_stdout
                      (Gettext.key_report
                         (xkb_syms (km_text ko) (st_mods so) (u32 (key + 8)))
                         state) w')
    /\ Gettext.keyboard_handle_key serial time key state (g, w)
       = Ok tt (g, Gettext.emit_stdout
                     (Gettext.key_report
                        (xkb_syms (km_text ko) (st_mods so) (u32 (key + 8)))
                        state) w).
Proof.
  intros Hf Hmp [ctx Hctx] Hx Hs Hk Hg.
  eexists _, _.
  split; [exact (gettext_keymap_compile_failed g w format fd size f ctx
                   Hf Hmp Hctx Hx)|].
  repeat split.
  - apply (KeyboardFacts.gettext_key_ready _ _ s so ko); assumption.
  - apply (KeyboardFacts.gettext_key_ready _ _ s so ko); assumption.
Qed.

(** *** waylandbook.example.c *)

Lemma book_keymap_map_failed (c : Book.client_state) (w : world)
    (fd size : Z) :
  mmap size fd w = Ok None w ->
  Book.wl_keyboard_keymap WL_KEYBOARD_KEYMAP_FORMAT_XKB_V1 fd size (c, w)
  = Fault (AssertionFailed "map_shm != MAP_FAILED") (c, w).
Proof.
  intros Hm. unfold Book.wl_keyboard_keymap.
  rewrite (bind_ok _ _ (c, w) tt (c, w) eq_refl).
  rewrite (bind_ok _ _ _ _ _ (in_world_ok _ c _ _ _ Hm)). reflexivity.
Qed.

Lemma book_keymap_compile_failed (c : Book.client_state) (w : world)
    (fd size : Z) (f : file) :
  fds w !! fd = Some f -> mappable f = true ->
  is_Some (Book.xkb_context c) ->
  xkb_compiles (content f) = false ->
  Book.wl_keyboard_keymap WL_KEYBOARD_KEYMAP_FORMAT_XKB_V1 fd size (c, w)
  = Fault (NullArgument "xkb_state_new")
      (c, set_fds (delete fd (fds w)) w).
Proof.
  intros Hf Hmp [ctx Hctx] Hx. unfold Book.wl_keyboard_keymap.
  rewrite (bind_ok _ _ (c, w) tt (c, w) eq_refl).
  rewrite (bind_ok _ _ _ _ _
             (in_world_ok _ c _ _ _ (mmap_open w size fd f Hf Hmp))).
  rewrite (bind_ok _ _ _ _ _ (globals_get_ok _)). cbn [fst snd].
  rewrite Hctx.
  destruct (keymap_new_cases (Some ctx) (content f)
              (set_mappings (S (mappings w)) w) ltac:(eauto))
    as [(_ & Hn)|(Hx' & _)]; [|congruence].
  rewrite (bind_ok _ _ _ _ _ (in_world_ok _ c _ _ _ Hn)).
  rewrite (bind_ok _ _ _ _ _ (in_world_ok _ c _ _ _ (munmap_ok _ _))).
  rewrite (bind_ok _ _ _ _ _ (in_world_ok _ c _ _ _ (close_ok _ _))).
  unfold bind, in_world. simpl. destruct w; reflexivity.
Qed.

Lemma book_keymap_closes (c : Book.client_state) (w : world)
    (fd size : Z) :
  is_Some (Book.xkb_context c) ->
  mmap size fd w <> Ok None w ->
  closed fd
    (snd (final_state
            (Book.wl_keyboard_keymap WL_KEYBOARD_KEYMAP_FORMAT_XKB_V1
               fd size (c, w)))).
Proof.
  intros [ctx Hc] Hne.
  destruct (mmap_cases w size fd) as [Hm|(f & Hf & Hmp & Hm)];
    [contradiction|].
  unfold Book.wl_keyboard_keymap.
  rewrite (bind_ok _ _ (c, w) tt (c, w) eq_refl).
  rewrite (bind_ok _ _ _ _ _ (in_world_ok _ c _ _ _ Hm)).
  rewrite (bind_ok _ _ _ _ _ (globals_get_ok _)).
  cbn [fst snd]. rewrite Hc.
  destruct (keymap_new_cases (Some ctx) (content f)
              (set_mappings (S (mappings w)) w) ltac:(eauto))
    as [(Hx & Hn)|(Hx & Hn)];
    rewrite (bind_ok _ _ _ _ _ (in_world_ok _ c _ _ _ Hn));
    rewrite (bind_ok _ _ _ _ _ (in_world_ok _ c _ _ _ (munmap_ok _ _)));
    rewrite (bind_ok _ _ _ _ _ (in_world_ok _ c _ _ _ (close_ok _ _)));
    match goal with
    | |- closed fd (snd (final_state (?m ?s0))) =>
        apply (fun Hp : preserves m (fun x => closed fd (snd x)) => Hp s0)
    end;
    solve [keeps_closed fd | apply lookup_delete_eq].
Qed.

(** C6, as amended.  gettext.c's keymap handler, given an xkb context,
    leaves the descriptor closed wherever it stops, and when the mapping
    fails it writes a diagnostic, closes the descriptor and returns.
    waylandbook.example.c's handler leaves the descriptor closed when the
    mapping succeeds; when the mapping fails, its [assert] stops the
    program in the state the handler was entered in, the descriptor
    untouched. *)
Theorem keymap_descriptor_closing (g : Gettext.globals)
    (c : Book.client_state) (w : world) (format fd size : Z) :
  is_Some (Gettext.xkb_context g) -> is_Some (Book.xkb_context c) ->
  closed fd
    (snd (final_state (Gettext.keyboard_handle_keymap format fd size (g, w))))
  /\ (mmap size fd w = Ok None w ->
      Gettext.keyboard_handle_keymap format fd size (g, w)
      = Ok tt (g, set_fds (delete fd (fds w))
                    (set_stderr
                       (stderr w
                        ++ [String.append "Failed to mmap keymap" nl]) w)))
  /\ (mmap size fd w <> Ok None w ->
      closed fd
        (snd (final_state
                (Book.wl_keyboard_keymap WL_KEYBOARD_KEYMAP_FORMAT_XKB_V1
                   fd size (c, w)))))
  /\ (mmap size fd w = Ok None w ->
      Book.wl_keyboard_keymap WL_KEYBOARD_KEYMAP_FORMAT_XKB_V1 fd size (c, w)
      = Fault (AssertionFailed "map_shm != MAP_FAILED") (c, w)).
Proof.
  intros Hg Hc. split; [|split; [|split]].
  - apply gettext_keymap_closes. exact Hg.
  - apply gettext_keymap_map_failed.
  - apply book_keymap_closes. exact Hc.
  - apply book_keymap_map_failed.
Qed.

(** *** The dispatch loop of gettext.c *)

Lemma event_loop_stops_on_error (batch : list Gettext.event)
    (rest : list (option (list Gettext.event)))
    (s s' : Gettext.globals * world) :
  Gettext.dispatch_all batch s = Ok tt s' ->
  Gettext.error (fst s') = true ->
  Gettext.event_loop (Some batch :: rest) s = Ok rest s'.
Proof.
  intros Hd He. cbn [Gettext.event_loop].
  rewrite (bind_ok _ _ _ _ _ Hd).
  rewrite (bind_ok _ _ _ _ _ (globals_get_ok _)). rewrite He. reflexivity.
Qed.

Lemma dispatch_single (e : Gettext.event) (s s' : Gettext.globals * world) :
  Gettext.keyboard_listener e s = Ok tt s' ->
  Gettext.dispatch_all [e] s = Ok tt s'.
Proof.
  intros He. cbn [Gettext.dispatch_all].
  rewrite (bind_ok _ _ _ _ _ He). reflexivity.
Qed.

Lemma cleanup_installed (g : Gettext.globals) (w : world) :
  installed (Gettext.keymap g) (Gettext.xkb_state g) w ->
  exists w',
    Gettext.cleanup (g, w) = Ok tt (g, w')
    /\ outside_heap w' = outside_heap w.
Proof.
  intros Hi.
  destruct (release_pair _ _ w Hi) as (w1 & w2 & Hu1 & Hu2 & Hout & _).
  exists w2. split; [|exact Hout].
  unfold Gettext.cleanup.
  rewrite (bind_ok _ _ _ _ _ (globals_get_ok _)). cbn [fst snd].
  rewrite (bind_ok _ _ _ _ _ (when_state_unref_ok _ g _ _ Hu1)).
  apply when_keymap_unref_ok. exact Hu2.
Qed.

(** A keymap text that does not compile, or a state that cannot be built
    from one that does: the handler prints its diagnostic, sets the error
    flag and returns; a dispatch that delivers this event alone is the
    last one of the loop. *)
Lemma keymap_failure_sets_the_flag (g : Gettext.globals) (w : world)
    (format fd size : Z) (f : file)
    (rest : list (option (list Gettext.event))) :
  installed (Gettext.keymap g) (Gettext.xkb_state g) w -> heap_ok w ->
  fds w !! fd = Some f -> mappable f = true ->
  is_Some (Gettext.xkb_context g) ->
  xkb_compiles (content f) = false
  \/ (exists r, state_alloc w = false :: r) ->
  exists g' w' diagnostic,
    Gettext.keyboard_handle_keymap format fd size (g, w) = Ok tt (g', w')
    /\ stderr w' = stderr w ++ [diagnostic]
    /\ diagnostic
       = (if xkb_compiles (content f)
          then String.append "Failed to create XKB state" nl
          else String.append "Failed to compile keymap" nl)
    /\ Gettext.error g' = true
    /\ Gettext.event_loop (Some [Gettext.Keymap format fd size] :: rest)
         (g, w)
       = Ok rest (g', w')
    /\ exists w'',
         Gettext.main_loop (Some [Gettext.Keymap format fd size] :: rest)
           (g, w)
         = Ok rest (g', w'')
         /\ stderr w'' = stderr w'.
Proof.
  intros Hi Hh Hf Hmp Hctx Hfail.
  assert (Hend : forall g' w',
            Gettext.keyboard_handle_keymap format fd size (g, w)
            = Ok tt (g', w') ->
            Gettext.error g' = true ->
            installed (Gettext.keymap g') (Gettext.xkb_state g') w' ->
            Gettext.event_loop (Some [Gettext.Keymap format fd size] :: rest)
              (g, w) = Ok rest (g', w')
            /\ exists w'',
                 Gettext.main_loop
                   (Some [Gettext.Keymap format fd size] :: rest) (g, w)
                 = Ok rest (g', w'')
                 /\ stderr w'' = stderr w').
  { intros g' w' Hrun He Hi'.
    assert (Hloop : Gettext.event_loop
                      (Some [Gettext.Keymap format fd size] :: rest) (g, w)
                    = Ok rest (g', w')).
    { apply event_loop_stops_on_error; [|exact He].
      apply dispatch_single. exact Hrun. }
    split; [exact Hloop|].
    destruct (cleanup_installed g' w' Hi') as (w'' & Hclean & Hout).
    exists w''. split.
    - unfold Gettext.main_loop. rewrite (bind_ok _ _ _ _ _ Hloop).
      rewrite (bind_ok _ _ _ _ _ Hclean). reflexivity.
    - apply outside_heap_fields in Hout. tauto. }
  destruct (xkb_compiles (content f)) eqn:Hx.
  - destruct Hfail as [Hfail|[r Hr]]; [discriminate|].
    destruct (gettext_keymap_install g w format fd size f Hi Hh Hf Hmp Hctx Hx)
      as (g' & w' & Hrun & Hi' & _ & _ & _ & _ & Halloc).
    rewrite Hr in Halloc. destruct Halloc as (_ & He & Herr).
    exists g', w'. eexists.
    split; [exact Hrun|]. split; [exact Herr|]. split; [reflexivity|].
    split; [exact He|]. apply Hend; assumption.
  - destruct Hctx as [ctx Hctx].
    pose proof (gettext_keymap_compile_failed g w format fd size f ctx
                  Hf Hmp Hctx Hx) as Hrun.
    eexists _, _, _. split; [exact Hrun|].
    split; [reflexivity|]. split; [reflexivity|]. split; [reflexivity|].
    apply Hend; [exact Hrun | reflexivity | exact Hi].
Qed.

End WithLib.

(** C6, counterexample.  Descriptor 7 refuses to be mapped:
    wl_keyboard_keymap stops at its assertion and the descriptor is still
    open. *)
Lemma book_keymap_aborts_on_mapping_failure :
  Book.wl_keyboard_keymap (lib := Sample.lib) 1 7 17 (Sample.client0, Sample.world0)
  = Fault (AssertionFailed "map_shm != MAP_FAILED")
      (Sample.client0, Sample.world0)
  /\ fds Sample.world0 !! 7 = Some Sample.pipe_file.
Proof. split; reflexivity. Qed.

(** The theorem on the descriptor that refuses to be mapped. *)
Lemma keymap_descriptor_closing_witness :
  is_Some (Gettext.xkb_context Sample.globals0)
  /\ is_Some (Book.xkb_context Sample.client0)
  /\ closed 7
       (snd (final_state
               (Gettext.keyboard_handle_keymap (lib := Sample.lib) 1 7 17
                  (Sample.globals0, Sample.world0))))
  /\ (mmap 17 7 Sample.world0 = Ok None Sample.world0 ->
      Book.wl_keyboard_keymap (lib := Sample.lib)
        WL_KEYBOARD_KEYMAP_FORMAT_XKB_V1 7 17 (Sample.client0, Sample.world0)
      = Fault (AssertionFailed "map_shm != MAP_FAILED")
          (Sample.client0, Sample.world0)).
Proof.
  assert (Hg : is_Some (Gettext.xkb_context Sample.globals0))
    by (eexists; reflexivity).
  assert (Hc : is_Some (Book.xkb_context Sample.client0))
    by (eexists; reflexivity).
  split; [exact Hg|]. split; [exact Hc|].
  destruct (keymap_descriptor_closing (lib := Sample.lib) Sample.globals0
              Sample.client0 Sample.world0 1 7 17 Hg Hc) as (H1 & _ & _ & H4).
  split; [exact H1 | exact H4].
Defined.

(** C7, counterexample.  A keymap is installed, then a text that does not
    compile arrives, then a key: the loop ends after the second dispatch,
    the key event stays on the connection and nothing is printed for
    it. *)
Lemma compile_failure_stops_dispatching :
  exists g w,
    Gettext.event_loop (lib := Sample.lib)
      [Some [Gettext.Keymap 1 5 17]; Some [Gettext.Keymap 1 6 12];
       Some [Gettext.Key 0 0 30 1]]
      (Sample.globals0, Sample.world0)
    = Ok [Some [Gettext.Key 0 0 30 1]] (g, w)
    /\ Gettext.error g = true
    /\ stdout w = []
    /\ stderr w = [String.append "Failed to compile keymap" nl].
Proof. eexists _, _. split; [vm_compute; reflexivity|]. repeat split. Qed.

(** C2, at the failing input.  Both programs install the sample keymap
    and then receive a text that does not compile.  gettext.c keeps the
    pair it had.  waylandbook.example.c hands the null keymap to
    [xkb_state_new]. *)
Theorem failed_install_in_both_programs :
  (exists g1 w1 w2,
     Gettext.keyboard_handle_keymap (lib := Sample.lib) 1 5 17
       (Sample.globals0, Sample.world0) = Ok tt (g1, w1)
     /\ Gettext.keyboard_handle_keymap (lib := Sample.lib) 1 6 12 (g1, w1)
        = Ok tt (Gettext.set_error true g1, w2)
     /\ keymaps w2 = keymaps w1 /\ states w2 = states w1)
  /\ (exists c1 w1 w2,
        Book.wl_keyboard_keymap (lib := Sample.lib) 1 5 17
          (Sample.client0, Sample.world0) = Ok tt (c1, w1)
        /\ Book.xkb_keymap c1 = Some 0%nat /\ Book.xkb_state c1 = Some 1%nat
        /\ Book.wl_keyboard_keymap (lib := Sample.lib) 1 6 12 (c1, w1)
           = Fault (NullArgument "xkb_state_new") (c1, w2)).
Proof.
  split.
  - eexists _, _, _. split; [vm_compute; reflexivity|].
    split; [vm_compute; reflexivity|]. split; reflexivity.
  - eexists _, _, _. split; [vm_compute; reflexivity|].
    split; [reflexivity|]. split; [reflexivity|]. vm_compute. reflexivity.
Qed.

End InstallFacts.

(** ** Seat capabilities *)

Module SeatFacts.
Import Book.

Local Ltac run_seat :=
  unfold wl_seat_capabilities, bind, in_world, globals_get, globals_set,
    wl_seat_get_pointer, wl_seat_get_keyboard, wl_seat_get,
    wl_pointer_add_listener, wl_keyboard_add_listener, add_listener,
    wl_pointer_release, wl_keyboard_release, proxy_release, ret;
  cbn [fst snd wl_pointer wl_keyboard set_wl_pointer set_wl_keyboard
       is_null negb andb proxies next_proxy requests set_proxies
       set_next_proxy set_requests].

(** C10.  With the proxies it holds live, the capabilities handler
    returns, and the same capabilities delivered again change nothing:
    not the pointer and keyboard the client holds, not the proxies, and no
    request is sent.  The requests of the first delivery are those for a
    device announced and not held (get) or held and no longer announced
    (release); afterwards a device is held exactly when it is
    announced. *)
Theorem seat_capabilities_idempotent (capabilities : Z) (c : client_state)
    (w : world) :
  attached c w ->
  exists c1 w1,
    wl_seat_capabilities capabilities (c, w) = Ok tt (c1, w1)
    /\ wl_seat_capabilities capabilities (c1, w1) = Ok tt (c1, w1)
    /\ attached c1 w1
    /\ requests w1
       = requests w ++ pointer_requests capabilities c w
         ++ keyboard_requests capabilities c w
    /\ is_null (wl_pointer c1)
       = negb (has capabilities WL_SEAT_CAPABILITY_POINTER)
    /\ is_null (wl_keyboard c1)
       = negb (has capabilities WL_SEAT_CAPABILITY_KEYBOARD).
Proof.
  intros (Hp & Hk & Hfresh).
  destruct c as [kb ptr pe st ctx km]. cbn [wl_pointer wl_keyboard] in *.
  unfold pointer_requests, keyboard_requests. cbn [wl_pointer wl_keyboard].
  destruct (has capabilities WL_SEAT_CAPABILITY_POINTER) eqn:HP;
    destruct (has capabilities WL_SEAT_CAPABILITY_KEYBOARD) eqn:HK;
    destruct ptr as [p|]; destruct kb as [k|].
  all: try (destruct (Hp p eq_refl) as (po & Hpl & Hpk)).
  all: try (destruct (Hk k eq_refl) as (ko & Hkl & Hkk)).
  all: try (assert (Hpn : (p < next_proxy w)%nat) by (apply Hfresh; eauto)).
  all: try (assert (Hkn : (k < next_proxy w)%nat) by (apply Hfresh; eauto)).
  all: try (assert (Hpk' : p <> k) by (intros ->; congruence)).
  all: eexists _, _.
  all: repeat split.
  all: run_seat.
  all: repeat first
         [ rewrite HP | rewrite HK
         | rewrite lookup_insert_eq
         | rewrite lookup_insert_ne by lia
         | rewrite lookup_delete_ne by congruence
         | rewrite Hpl | rewrite Hkl
         | progress cbn [fst snd wl_pointer wl_keyboard set_wl_pointer
                         set_wl_keyboard is_null negb andb proxies
                         next_proxy requests set_proxies set_next_proxy
                         set_requests kind] ].
  all: try reflexivity.
  all: try (rewrite ?app_nil_r, <- ?app_assoc; reflexivity).
  all: cbn [fst snd wl_pointer wl_keyboard set_wl_pointer set_wl_keyboard
            proxies next_proxy set_proxies set_next_proxy set_requests].
  all: try (intros q Hq; first [discriminate Hq | injection Hq as <-];
            eexists;
            (split;
             [repeat first
                [ rewrite lookup_insert_eq
                | rewrite lookup_insert_ne by lia
                | rewrite lookup_delete_ne by first [congruence | lia] ];
              first [reflexivity | eassumption]
             |first [reflexivity | assumption]])).
  all: intros id [o Ho];
    repeat first
      [ apply lookup_insert_Some in Ho as [[<- _]|[_ Ho]]
      | apply lookup_delete_Some in Ho as [_ Ho] ];
    try lia;
    (assert (id < next_proxy w)%nat by (apply Hfresh; eauto)); lia.
Qed.
(** The theorem on a seat that announces a pointer and a keyboard to a
    client that holds neither. *)
Lemma seat_capabilities_idempotent_witness :
  attached Sample.client0 Sample.world0
  /\ exists c1 w1,
       wl_seat_capabilities 3 (Sample.client0, Sample.world0) = Ok tt (c1, w1)
       /\ wl_seat_capabilities 3 (c1, w1) = Ok tt (c1, w1)
       /\ attached c1 w1
       /\ requests w1
          = requests Sample.world0 ++ pointer_requests 3 Sample.client0 Sample.world0
            ++ keyboard_requests 3 Sample.client0 Sample.world0
       /\ is_null (wl_pointer c1)
          = negb (has 3 WL_SEAT_CAPABILITY_POINTER)
       /\ is_null (wl_keyboard c1)
          = negb (has 3 WL_SEAT_CAPABILITY_KEYBOARD).
Proof.
  assert (Ha : attached Sample.client0 Sample.world0).
  { repeat split.
    - intros p Hp. discriminate Hp.
    - intros k Hk. discriminate Hk.
    - intros id [o Ho]. simpl in Ho. rewrite lookup_empty in Ho.
      discriminate Ho. }
  split; [exact Ha|].
  exact (seat_capabilities_idempotent 3 Sample.client0 Sample.world0 Ha).
Defined.

End SeatFacts.

(** * Further properties of the code *)

(** ** Frames one after the other, the header, the button *)

Module FrameFacts.
Import Pointer PointerFacts.

Lemma last_time_cons (f : fragment) (fs : list fragment) (t : Z) :
  last_time (f :: fs) t = last_time fs (default t (time_of f)).
Proof. reflexivity. Qed.

Lemma absorb_time (f : fragment) (e : pointer_event) :
  time (absorb f e) = default (time e) (time_of f).
Proof. destruct f; reflexivity. Qed.

Lemma absorb_all_time (fs : list fragment) :
  forall e, time (absorb_all fs e) = last_time fs (time e).
Proof.
  induction fs as [|f fs IH]; intros e.
  - reflexivity.
  - rewrite absorb_all_cons, last_time_cons, IH, absorb_time. reflexivity.
Qed.

(** X1.  The time in the header of a frame is the time of the last
    motion, button, axis or axis-stop call of the frame; enter, leave,
    axis-source and axis-discrete calls carry none, and a frame without
    any of the four reports time 0.  The header comes first and only
    once. *)
Theorem frame_header_time (fs : list fragment) :
  Forall conforming fs ->
  exists rest,
    run_frame fs pointer_event_zero
    = Ok (Header (last_time fs 0) :: rest) pointer_event_zero
    /\ forall t, Header t ∉ rest.
Proof.
  intros Hc. destruct (run_frame_conforming fs Hc) as (via & Ha & Hrun).
  rewrite Hrun. unfold frame_items. rewrite absorb_all_time.
  eexists. split; [reflexivity|].
  intros t Hin.
  rewrite !elem_of_app, !elem_of_if_singleton in Hin.
  destruct (has (event_mask (absorb_all fs pointer_event_zero)) axis_events).
  - rewrite elem_of_app, !axis_items_elem, list_elem_of_singleton in Hin.
    decompose [and or] Hin; discriminate.
  - rewrite elem_of_nil, list_elem_of_singleton in Hin.
    decompose [and or] Hin; try discriminate. assumption.
Qed.

Lemma frame_header_time_witness :
  Forall conforming [FEnter 1 1 0 0; FMotion 10 256 512; FAxisDiscrete 0 2]
  /\ exists rest,
       run_frame [FEnter 1 1 0 0; FMotion 10 256 512; FAxisDiscrete 0 2]
         pointer_event_zero
       = Ok (Header
               (last_time
                  [FEnter 1 1 0 0; FMotion 10 256 512; FAxisDiscrete 0 2] 0)
             :: rest) pointer_event_zero
       /\ forall t, Header t ∉ rest.
Proof.
  assert (Hc : Forall conforming
                 [FEnter 1 1 0 0; FMotion 10 256 512; FAxisDiscrete 0 2])
    by (repeat constructor; simpl; lia).
  split; [exact Hc|].
  exact (frame_header_time _ Hc).
Defined.

Lemma absorb_all_button_kept (fs : list fragment) :
  Forall (fun f => writes_button f = false) fs ->
  forall e,
    button (absorb_all fs e) = button e /\ state (absorb_all fs e) = state e.
Proof.
  induction 1 as [|f fs Hf _ IH]; intros e.
  - split; reflexivity.
  - rewrite absorb_all_cons. destruct (IH (absorb f e)) as [-> ->].
    destruct f; simpl in *; try discriminate; split; reflexivity.
Qed.

(** X2.  The button of a frame is the last one delivered, and it is
    reported released exactly when its state is 0
    (WL_POINTER_BUTTON_STATE_RELEASED): every other state value is
    reported as pressed. *)
Theorem frame_button_state (pre post : list fragment)
    (serial time0 button0 state0 : Z) :
  Forall conforming (pre ++ FButton serial time0 button0 state0 :: post) ->
  Forall (fun f => writes_button f = false) post ->
  exists out,
    run_frame (pre ++ FButton serial time0 button0 state0 :: post)
      pointer_event_zero
    = Ok out pointer_event_zero
    /\ forall b s,
         Button b s ∈ out
         <-> b = button0
             /\ s = (if state0 =? 0 then "released"%string else "pressed"%string).
Proof.
  intros Hc Hpost.
  set (fs := pre ++ FButton serial time0 button0 state0 :: post) in *.
  destruct (run_frame_conforming fs Hc) as (via & Ha & Hrun).
  set (e := absorb_all fs pointer_event_zero) in *.
  assert (Hk : has (event_mask e) (bit_of KButton) = true).
  { unfold e, fs. rewrite touched_mask.
    apply (touched_app_cons pre post (FButton serial time0 button0 state0)). }
  assert (Hb : button e = button0 /\ state e = state0).
  { unfold e, fs. rewrite absorb_all_app, absorb_all_cons.
    destruct (absorb_all_button_kept post Hpost
                (absorb (FButton serial time0 button0 state0)
                   (absorb_all pre pointer_event_zero))) as [-> ->].
    split; reflexivity. }
  destruct Hb as [Hb Hs].
  eexists. split; [exact Hrun|].
  intros b s. rewrite frame_items_elem, Hb, Hs.
  unfold WL_POINTER_BUTTON_STATE_RELEASED. split.
  - intros H; decompose [and or] H; try discriminate.
    match goal with E : Button _ _ = Button _ _ |- _ =>
      injection E as -> -> end. auto.
  - intros [-> ->]. do 4 right. left. auto.
Qed.

Lemma frame_button_state_witness :
  Forall conforming
    ([FButton 1 2 272 1] ++ FButton 3 4 273 2 :: [FMotion 5 0 0])
  /\ Forall (fun f => writes_button f = false) [FMotion 5 0 0]
  /\ exists out,
       run_frame ([FButton 1 2 272 1] ++ FButton 3 4 273 2 :: [FMotion 5 0 0])
         pointer_event_zero
       = Ok out pointer_event_zero
       /\ forall b s,
            Button b s ∈ out
            <-> b = 273
                /\ s = (if 2 =? 0 then "released"%string else "pressed"%string).
Proof.
  assert (Hc : Forall conforming
                 ([FButton 1 2 272 1] ++ FButton 3 4 273 2 :: [FMotion 5 0 0]))
    by (repeat constructor).
  assert (Hp : Forall (fun f => writes_button f = false) [FMotion 5 0 0])
    by (repeat constructor).
  split; [exact Hc|]. split; [exact Hp|].
  exact (frame_button_state [FButton 1 2 272 1] [FMotion 5 0 0] 3 4 273 2
           Hc Hp).
Defined.

(** X3.  Frames do not leak into each other: for conforming fragments,
    what a sequence of frames emits is, frame by frame, what each frame
    emits when it is delivered alone to an empty accumulator, and the
    accumulator is empty at the end. *)
Theorem frames_are_independent (frames : list (list fragment)) :
  Forall (Forall conforming) frames ->
  exists outs,
    run_frames frames pointer_event_zero = Ok outs pointer_event_zero
    /\ Forall2 (fun fs out =>
                  run_frame fs pointer_event_zero = Ok out pointer_event_zero)
         frames outs.
Proof.
  induction 1 as [|fs frames Hfs _ (outs & Hrun & Hall)].
  - exists []. split; [reflexivity | constructor].
  - destruct (run_frame_conforming fs Hfs) as (via & _ & Hone).
    eexists (_ :: outs). split.
    + cbn [run_frames]. unfold bind at 1. rewrite Hone.
      unfold bind at 1. rewrite Hrun. reflexivity.
    + constructor; [exact Hone | exact Hall].
Qed.

Lemma frames_are_independent_witness :
  Forall (Forall conforming) [[FAxis 1 0 5; FAxisSource 0]; []; [FLeave 2 1]]
  /\ exists outs,
       run_frames [[FAxis 1 0 5; FAxisSource 0]; []; [FLeave 2 1]]
         pointer_event_zero
       = Ok outs pointer_event_zero
       /\ Forall2 (fun fs out =>
                     run_frame fs pointer_event_zero
                     = Ok out pointer_event_zero)
            [[FAxis 1 0 5; FAxisSource 0]; []; [FLeave 2 1]] outs.
Proof.
  assert (Hc : Forall (Forall conforming)
                 [[FAxis 1 0 5; FAxisSource 0]; []; [FLeave 2 1]])
    by (repeat constructor; simpl; lia).
  split; [exact Hc|].
  exact (frames_are_independent _ Hc).
Defined.

(** X4.  [wl_pointer_frame] indexes its table of four source names with
    the axis source as delivered.  With the source bit set, an axis
    marked valid and a source of 4 or more, it reads past the table and
    the accumulator is not reset; in every other case it returns and
    resets the accumulator, whatever the source: a source is read only
    next to a valid axis. *)
Theorem frame_reads_the_source_table (e : pointer_event)
    (a0 a1 : axis_entry) :
  axes e = [a0; a1] -> 0 <= axis_source e ->
  if has (event_mask e) POINTER_EVENT_AXIS_SOURCE
     && (valid a0 || valid a1) && (4 <=? axis_source e)
  then wl_pointer_frame e
       = Fault (OutOfBounds "axis_source" (axis_source e)) e
  else exists out, wl_pointer_frame e = Ok out pointer_event_zero.
Proof.
  intros Ha Hs.
  destruct (Z.leb_spec 4 (axis_source e)) as [Hge|Hlt].
  - assert (Hn : axis_source_name !! Z.to_nat (axis_source e) = None)
      by (apply lookup_ge_None; simpl; lia).
    destruct (has (event_mask e) POINTER_EVENT_AXIS_SOURCE) eqn:Hsrc.
    + assert (Hev : has (event_mask e) axis_events = true).
      { rewrite has_axis_events.
        change (bit_of KAxisSource) with POINTER_EVENT_AXIS_SOURCE.
        rewrite Hsrc, orb_true_r. reflexivity. }
      unfold wl_pointer_frame, bind, get. rewrite Hev.
      unfold frame_axis, bind, table_read. rewrite Ha. simpl.
      rewrite Hsrc, Hn.
      destruct (valid a0), (valid a1); simpl;
        first [reflexivity | eexists; reflexivity].
    + simpl. unfold wl_pointer_frame, bind, get.
      unfold frame_axis, bind, table_read. rewrite Ha. simpl. rewrite Hsrc.
      destruct (has (event_mask e) axis_events), (valid a0), (valid a1);
        simpl; eexists; reflexivity.
  - rewrite andb_false_r.
    destruct (axis_source_name_lookup (axis_source e)) as [via Hv]; [lia|].
    eexists. apply (wl_pointer_frame_eval e a0 a1 via Ha Hv).
Qed.

Lemma frame_reads_the_source_table_witness :
  axes (absorb_all [FAxisSource 9; FAxis 1 0 5] pointer_event_zero)
  = [set_value 5 (set_valid true axis_zero); axis_zero]
  /\ 0 <= axis_source (absorb_all [FAxisSource 9; FAxis 1 0 5]
                         pointer_event_zero)
  /\ wl_pointer_frame (absorb_all [FAxisSource 9; FAxis 1 0 5]
                         pointer_event_zero)
     = Fault (OutOfBounds "axis_source" 9)
         (absorb_all [FAxisSource 9; FAxis 1 0 5] pointer_event_zero).
Proof.
  assert (Ha : axes (absorb_all [FAxisSource 9; FAxis 1 0 5]
                       pointer_event_zero)
               = [set_value 5 (set_valid true axis_zero); axis_zero])
    by reflexivity.
  assert (Hs : 0 <= axis_source (absorb_all [FAxisSource 9; FAxis 1 0 5]
                                   pointer_event_zero))
    by (simpl; lia).
  split; [exact Ha|]. split; [exact Hs|].
  exact (frame_reads_the_source_table _ _ _ Ha Hs).
Defined.

End FrameFacts.

(** ** Modifiers, focus and the xkbcommon heap *)

Module TranslatorFacts.
Section WithLib.
Context {lib : XkbLib}.

Lemma book_modifiers_ready (c : Book.client_state) (w : world) (s : nat)
    (so : state_obj) (serial d l k grp : Z) :
  Book.xkb_state c = Some s -> states w !! s = Some so ->
  Book.wl_keyboard_modifiers serial d l k grp (c, w)
  = Ok tt (c, set_states
                (<[s := {| st_refcnt := st_refcnt so;
                           st_keymap := st_keymap so;
                           st_mods := {| depressed := d; latched := l;
                                         locked := k; group := grp |} |}]>
                   (states w)) w).
Proof.
  intros Hc Hs.
  unfold Book.wl_keyboard_modifiers, bind, globals_get, in_world,
    xkb_state_update_mask.
  cbn [fst snd]. rewrite Hc, Hs. reflexivity.
Qed.

(** X5.  A key event that follows a modifiers event is translated under
    the modifiers of that event and no others: the masks of the event
    replace whatever the state held, the keymap stays the same, and the
    group of the event is the locked layout.  Both programs. *)
Theorem key_after_modifiers (g : Gettext.globals) (c : Book.client_state)
    (w : world) (s : nat) (so : state_obj) (ko : keymap_obj)
    (serial d l k grp serial' time key state : Z) :
  states w !! s = Some so -> keymaps w !! st_keymap so = Some ko ->
  Gettext.xkb_state g = Some s -> Book.xkb_state c = Some s ->
  exists w',
    w' = set_states
           (<[s := {| st_refcnt := st_refcnt so; st_keymap := st_keymap so;
                      st_mods := {| depressed := d; latched := l;
                                    locked := k; group := grp |} |}]>
              (states w)) w
    /\ (Gettext.keyboard_handle_modifiers serial d l k grp ;;
        Gettext.keyboard_handle_key serial' time key state) (g, w)
       = Ok tt
           (g, Gettext.emit_stdout
                 (Gettext.key_report
                    (xkb_syms (km_text ko)
                       {| depressed := d; latched := l; locked := k;
                          group := grp |} (u32 (key + 8))) state) w')
    /\ (Book.wl_keyboard_modifiers serial d l k grp ;;
        Book.wl_keyboard_key serial' time key state) (c, w)
       = Ok tt
           (c, set_stderr
                 (stderr w'
                  ++ [Book.key_line
                        (if state =? WL_KEYBOARD_KEY_STATE_PRESSED
                         then "press"%string else "release"%string)
                        (xkb_keysym_name
                           (xkb_one_sym (km_text ko)
                              {| depressed := d; latched := l; locked := k;
                                 group := grp |} (u32 (key + 8))))
                        (xkb_one_sym (km_text ko)
                           {| depressed := d; latched := l; locked := k;
                              group := grp |} (u32 (key + 8)));
                      Book.utf8_line
                        (xkb_utf8 (km_text ko)
                           {| depressed := d; latched := l; locked := k;
                              group := grp |} (u32 (key + 8)))])
                 w').
Proof.
  intros Hs Hk Hg Hc.
  set (m := {| depressed := d; latched := l; locked := k; group := grp |}).
  set (so' := {| st_refcnt := st_refcnt so; st_keymap := st_keymap so;
                 st_mods := m |}).
  set (w' := set_states (<[s := so']> (states w)) w).
  assert (Hs' : states w' !! s = Some so')
    by (unfold w'; cbn [states set_states]; apply lookup_insert_eq).
  assert (Hk' : keymaps w' !! st_keymap so' = Some ko) by exact Hk.
  exists w'. split; [reflexivity|]. split.
  - rewrite (bind_ok _ _ _ _ _
               (KeyboardFacts.gettext_modifiers_ready g w s so serial d l k grp
                  Hg Hs)).
    exact (KeyboardFacts.gettext_key_ready g w' s so' ko serial' time key state
             Hs' Hk' Hg).
  - rewrite (bind_ok _ _ _ _ _
               (book_modifiers_ready c w s so serial d l k grp Hc Hs)).
    exact (KeyboardFacts.book_key_ready c w' s so' ko serial' time key state
             Hs' Hk' Hc).
Qed.

(** *** The keys held when the keyboard enters *)

Lemma book_enter_loop (c : Book.client_state) (s : nat) (so : state_obj)
    (ko : keymap_obj) (keys : list Z) :
  Book.xkb_state c = Some s ->
  forall w,
    states w !! s = Some so -> keymaps w !! st_keymap so = Some ko ->
    Book.wl_array_for_each keys
      (fun key =>
         c <- globals_get ;;
         sym <- in_world
                  (xkb_state_key_get_one_sym (Book.xkb_state c)
                     (u32 (key + 8))) ;;
         in_world (fprintf_stderr (Book.sym_line (xkb_keysym_name sym) sym)) ;;
         text <- in_world
                   (xkb_state_key_get_utf8 (Book.xkb_state c)
                      (u32 (key + 8))) ;;
         in_world (fprintf_stderr (Book.utf8_line text))) (c, w)
    = Ok tt
        (c, match keys with
            | [] => w
            | _ :: _ =>
                set_stderr
                  (stderr w
                   ++ flat_map
                        (fun key =>
                           [Book.sym_line
                              (xkb_keysym_name
                                 (xkb_one_sym (km_text ko) (st_mods so)
                                    (u32 (key + 8))))
                              (xkb_one_sym (km_text ko) (st_mods so)
                                 (u32 (key + 8)));
                            Book.utf8_line
                              (xkb_utf8 (km_text ko) (st_mods so)
                                 (u32 (key + 8)))]) keys) w
            end).
Proof.
  intros Hc. induction keys as [|key keys IH]; intros w Hs Hk.
  - reflexivity.
  - cbn [Book.wl_array_for_each].
    set (sym := xkb_one_sym (km_text ko) (st_mods so) (u32 (key + 8))).
    set (w1 := set_stderr
                 (stderr w ++ [Book.sym_line (xkb_keysym_name sym) sym]) w).
    set (w2 := set_stderr
                 (stderr w1
                  ++ [Book.utf8_line
                        (xkb_utf8 (km_text ko) (st_mods so) (u32 (key + 8)))])
                 w1).
    assert (Hbody :
      (c0 <- globals_get ;;
       sym0 <- in_world
                 (xkb_state_key_get_one_sym (Book.xkb_state c0)
                    (u32 (key + 8))) ;;
       in_world
         (fprintf_stderr (Book.sym_line (xkb_keysym_name sym0) sym0)) ;;
       text <- in_world
                 (xkb_state_key_get_utf8 (Book.xkb_state c0)
                    (u32 (key + 8))) ;;
       in_world (fprintf_stderr (Book.utf8_line text))) (c, w)
      = Ok tt (c, w2)).
    { unfold bind at 1. rewrite globals_get_ok. cbn [fst snd]. rewrite Hc.
      unfold xkb_state_key_get_one_sym, xkb_state_key_get_utf8.
      unfold bind, in_world. cbn [fst snd].
      rewrite (KeyboardFacts.state_view_live w s so ko _ Hs Hk).
      cbn [fst snd ret fprintf_stderr modify].
      change (set_stderr
                (stderr w ++ [Book.sym_line (xkb_keysym_name sym) sym]) w)
        with w1.
      rewrite (KeyboardFacts.state_view_live w1 s so ko _ Hs Hk).
      reflexivity. }
    rewrite (bind_ok _ _ _ _ _ Hbody).
    rewrite (IH w2 Hs Hk).
    f_equal. f_equal. destruct keys as [|key' keys'].
    + unfold w2, w1. cbn [stderr set_stderr flat_map app].
      rewrite <- app_assoc. reflexivity.
    + unfold w2, w1. cbn [stderr set_stderr]. cbn [flat_map].
      rewrite <- !app_assoc. reflexivity.
Qed.

(** X6.  With a live state, waylandbook's enter handler prints its
    header and then, for every held key in the order of the array, the
    symbol and the text of the key at code key + 8 (on 32 bits) under the
    current modifiers; nothing else changes. *)
Theorem book_enter_reports_each_key (c : Book.client_state) (w : world)
    (s : nat) (so : state_obj) (ko : keymap_obj) (serial surface : Z)
    (keys : list Z) :
  Book.xkb_state c = Some s ->
  states w !! s = Some so -> keymaps w !! st_keymap so = Some ko ->
  Book.wl_keyboard_enter serial surface keys (c, w)
  = Ok tt
      (c, set_stderr
            (stderr w
             ++ String.append "[DEBUG] keyboard enter; keys pressed are:" nl
             :: flat_map
                  (fun key =>
                     [Book.sym_line
                        (xkb_keysym_name
                           (xkb_one_sym (km_text ko) (st_mods so)
                              (u32 (key + 8))))
                        (xkb_one_sym (km_text ko) (st_mods so)
                           (u32 (key + 8)));
                      Book.utf8_line
                        (xkb_utf8 (km_text ko) (st_mods so)
                           (u32 (key + 8)))]) keys) w).
Proof.
  intros Hc Hs Hk. unfold Book.wl_keyboard_enter. cbv zeta.
  rewrite (bind_ok _ _ _ _ _ (in_world_ok _ c _ _ _ (fprintf_stderr_ok _ _))).
  rewrite (book_enter_loop c s so ko keys Hc
             (set_stderr
                (stderr w
                 ++ [String.append
                       "[DEBUG] keyboard enter; keys pressed are:" nl]) w)
             Hs Hk).
  f_equal. f_equal. destruct keys as [|key keys].
  - reflexivity.
  - cbn [stderr set_stderr]. rewrite <- app_assoc. reflexivity.
Qed.

(** X7.  Before any keymap is installed the enter handler is safe only
    for an empty key array: it prints its header and returns; with a key
    held it prints the header and then hands the null state to
    xkbcommon. *)
Theorem book_enter_without_state (c : Book.client_state) (w : world)
    (serial surface : Z) (keys : list Z) :
  Book.xkb_state c = None ->
  Book.wl_keyboard_enter serial surface keys (c, w)
  = let w' := set_stderr
                (stderr w
                 ++ [String.append
                       "[DEBUG] keyboard enter; keys pressed are:" nl]) w in
    match keys with
    | [] => Ok tt (c, w')
    | _ :: _ => Fault (NullArgument "xkb_state_key_get_one_sym") (c, w')
    end.
Proof.
  intros Hc. unfold Book.wl_keyboard_enter.
  rewrite (bind_ok _ _ _ _ _ (in_world_ok _ c _ _ _ (fprintf_stderr_ok _ _))).
  destruct keys as [|key keys]; [reflexivity|].
  cbn [Book.wl_array_for_each]. unfold bind at 1. unfold bind at 1.
  rewrite globals_get_ok. cbn [fst snd]. rewrite Hc. reflexivity.
Qed.

End WithLib.

Lemma key_after_modifiers_witness :
  states Sample.ready_world !! 1%nat
  = Some {| st_refcnt := 1; st_keymap := 0; st_mods := mods_zero |}
  /\ keymaps Sample.ready_world !! 0%nat
     = Some {| km_refcnt := 2; km_text := content Sample.good_file |}
  /\ Gettext.xkb_state Sample.ready_globals = Some 1%nat
  /\ Book.xkb_state Sample.ready_client = Some 1%nat
  /\ exists w',
       (Gettext.keyboard_handle_modifiers 0 1 0 0 0 ;;
        Gettext.keyboard_handle_key (lib := Sample.lib) 0 0 30 1)
         (Sample.ready_globals, Sample.ready_world)
       = Ok tt (Sample.ready_globals, w')
       /\ stdout w' = [String.append "Key A pressed" nl].
Proof.
  do 4 (split; [reflexivity|]).
  destruct (key_after_modifiers (lib := Sample.lib) Sample.ready_globals
              Sample.ready_client Sample.ready_world 1
              {| st_refcnt := 1; st_keymap := 0; st_mods := mods_zero |}
              {| km_refcnt := 2; km_text := content Sample.good_file |}
              0 1 0 0 0 0 0 30 1
              ltac:(reflexivity) ltac:(reflexivity) ltac:(reflexivity)
              ltac:(reflexivity))
    as (w' & Hw' & Hg & _).
  subst w'. eexists. split; [exact Hg|]. reflexivity.
Defined.

Lemma book_enter_reports_each_key_witness :
  Book.xkb_state Sample.ready_client = Some 1%nat
  /\ states Sample.ready_world !! 1%nat
     = Some {| st_refcnt := 1; st_keymap := 0; st_mods := mods_zero |}
  /\ keymaps Sample.ready_world !! 0%nat
     = Some {| km_refcnt := 2; km_text := content Sample.good_file |}
  /\ exists w',
       Book.wl_keyboard_enter (lib := Sample.lib) 0 1 [30; 14]
         (Sample.ready_client, Sample.ready_world)
       = Ok tt (Sample.ready_client, w')
       /\ stderr w'
          = [String.append "[DEBUG] keyboard enter; keys pressed are:" nl;
             "[DEBUG] sym: a            (97), "%string;
             String.append "[DEBUG] utf8: 'a'" nl;
             "[DEBUG] sym: BackSpace    (65288), "%string;
             String.append "[DEBUG] utf8: ''" nl].
Proof.
  do 3 (split; [reflexivity|]).
  eexists. split.
  - exact (book_enter_reports_each_key (lib := Sample.lib)
             Sample.ready_client Sample.ready_world 1
             {| st_refcnt := 1; st_keymap := 0; st_mods := mods_zero |}
             {| km_refcnt := 2; km_text := content Sample.good_file |}
             0 1 [30; 14]
             ltac:(reflexivity) ltac:(reflexivity) ltac:(reflexivity)).
  - reflexivity.
Defined.

Lemma book_enter_without_state_witness :
  Book.xkb_state Sample.client0 = None
  /\ Book.wl_keyboard_enter (lib := Sample.lib) 0 1 [30]
       (Sample.client0, Sample.world0)
     = Fault (NullArgument "xkb_state_key_get_one_sym")
         (Sample.client0,
          set_stderr
            [String.append "[DEBUG] keyboard enter; keys pressed are:" nl]
            Sample.world0).
Proof.
  split; [reflexivity|].
  exact (book_enter_without_state (lib := Sample.lib) Sample.client0
           Sample.world0 0 1 [30] ltac:(reflexivity)).
Defined.

End TranslatorFacts.

(** ** The xkbcommon heap holds one pair *)

Module HeapFacts.
Section WithLib.
Context {lib : XkbLib}.

(** Dropping the translator's references, state first (gettext.c). *)
Lemma release_owned (km st : option nat) (w : world) :
  match km, st with
  | Some k, Some s =>
      exists t m,
        keymaps w !! k = Some {| km_refcnt := 2; km_text := t |}
        /\ states w !! s = Some {| st_refcnt := 1; st_keymap := k;
                                   st_mods := m |}
  | Some k, None =>
      exists t, keymaps w !! k = Some {| km_refcnt := 1; km_text := t |}
  | None, None => True
  | None, Some _ => False
  end ->
  exists w1 w2,
    xkb_state_unref st w = Ok tt w1
    /\ xkb_keymap_unref km w1 = Ok tt w2
    /\ outside_heap w2 = outside_heap w
    /\ keymaps w2 = match km with
                    | Some k => delete k (keymaps w)
                    | None => keymaps w
                    end
    /\ states w2 = match st with
                   | Some s => delete s (states w)
                   | None => states w
                   end.
Proof.
  destruct km as [k|], st as [s|]; try contradiction.
  - intros (t & m & Hk & Hs).
    unfold xkb_state_unref. rewrite Hs. cbn [st_refcnt Nat.leb st_keymap].
    unfold xkb_keymap_unref at 1. cbn [keymaps set_states]. rewrite Hk.
    cbn [km_refcnt Nat.leb km_text pred].
    eexists _, _. split; [reflexivity|].
    unfold xkb_keymap_unref. cbn [keymaps set_keymaps set_states].
    rewrite lookup_insert_eq. cbn [km_refcnt Nat.leb].
    split; [reflexivity|]. split; [reflexivity|].
    cbn [keymaps states set_keymaps set_states].
    split; [apply delete_insert_eq | reflexivity].
  - intros (t & Hk).
    exists w. eexists. split; [reflexivity|].
    unfold xkb_keymap_unref. rewrite Hk. cbn [km_refcnt Nat.leb].
    split; [reflexivity|]. split; [reflexivity|].
    split; reflexivity.
  - intros _. exists w, w. repeat split; reflexivity.
Qed.


(** The pair of [holds_only] is still owned after a keymap and possibly a
    state were added under identifiers at or above [next_id]. *)
Lemma holds_only_owned (km st : option nat) (w w3 : world) (kx : keymap_obj)
    (sx : option state_obj) :
  holds_only km st w -> heap_ok w ->
  keymaps w3 = <[next_id w := kx]> (keymaps w) ->
  states w3 = match sx with
              | Some y => <[S (next_id w) := y]> (states w)
              | None => states w
              end ->
  match km, st with
  | Some k, Some s =>
      exists t m,
        keymaps w3 !! k = Some {| km_refcnt := 2; km_text := t |}
        /\ states w3 !! s = Some {| st_refcnt := 1; st_keymap := k;
                                    st_mods := m |}
  | Some k, None =>
      exists t, keymaps w3 !! k = Some {| km_refcnt := 1; km_text := t |}
  | None, None => True
  | None, Some _ => False
  end
  /\ match km with
     | Some k => delete k (keymaps w3)
     | None => keymaps w3
     end = {[ next_id w := kx ]}
  /\ match st with
     | Some s => delete s (states w3)
     | None => states w3
     end = match sx with
           | Some y => {[ S (next_id w) := y ]}
           | None => ∅
           end.
Proof.
  intros Hh [Hhk Hhs] Hk3 Hs3. unfold holds_only in Hh.
  destruct km as [k|], st as [s|]; try contradiction.
  - destruct Hh as (t & m & Hk & Hs).
    assert (Hkn : (k < next_id w)%nat)
      by (apply (Hhk k {| km_refcnt := 2; km_text := t |});
          rewrite Hk; apply lookup_singleton_eq).
    assert (Hsn : (s < next_id w)%nat)
      by (apply (Hhs s {| st_refcnt := 1; st_keymap := k; st_mods := m |});
          rewrite Hs; apply lookup_singleton_eq).
    rewrite Hk3, Hs3, Hk, Hs. split; [|split].
    + exists t, m. split.
      * rewrite lookup_insert_ne by lia. apply lookup_singleton_eq.
      * destruct sx; [rewrite lookup_insert_ne by lia|];
          apply lookup_singleton_eq.
    + rewrite delete_insert_ne by lia.
      rewrite delete_singleton_eq. apply insert_empty.
    + destruct sx.
      * rewrite delete_insert_ne by lia.
        rewrite delete_singleton_eq. apply insert_empty.
      * apply delete_singleton_eq.
  - destruct Hh as (t & Hk & Hs).
    assert (Hkn : (k < next_id w)%nat)
      by (apply (Hhk k {| km_refcnt := 1; km_text := t |});
          rewrite Hk; apply lookup_singleton_eq).
    rewrite Hk3, Hs3, Hk, Hs. split; [|split].
    + exists t. rewrite lookup_insert_ne by lia. apply lookup_singleton_eq.
    + rewrite delete_insert_ne by lia.
      rewrite delete_singleton_eq. apply insert_empty.
    + destruct sx; [apply insert_empty | reflexivity].
  - destruct Hh as (Hk & Hs). rewrite Hk3, Hs3, Hk, Hs.
    split; [exact I|]. split; [apply insert_empty|].
    destruct sx; [apply insert_empty | reflexivity].
Qed.

Lemma heap_ok_singletons (w : world) (n : nat) (kx : keymap_obj)
    (sx : option state_obj) (bound : nat) :
  keymaps w = {[ n := kx ]} ->
  states w = match sx with Some y => {[ S n := y ]} | None => ∅ end ->
  next_id w = bound -> (S n < bound)%nat \/ (sx = None /\ (n < bound)%nat) ->
  heap_ok w.
Proof.
  intros Hk Hs Hn Hb. split; intros id o Ho.
  - rewrite Hk in Ho. apply lookup_singleton_Some in Ho as [<- _]. lia.
  - rewrite Hs in Ho. destruct sx.
    + apply lookup_singleton_Some in Ho as [<- _].
      destruct Hb as [Hb|[Hb _]]; [lia | discriminate].
    + rewrite lookup_empty in Ho. discriminate.
Qed.

(** One keymap event of gettext.c, on every path: the handler returns,
    the heap holds one pair again, the mapping is gone and the descriptor
    is closed. *)
Lemma gettext_keymap_step (g : Gettext.globals) (w : world)
    (format fd size : Z) :
  Gettext.tidy (g, w) ->
  exists g' w',
    Gettext.keyboard_handle_keymap format fd size (g, w) = Ok tt (g', w')
    /\ Gettext.xkb_context g' = Gettext.xkb_context g
    /\ Gettext.tidy (g', w')
    /\ mappings w' = mappings w
    /\ closed fd w'
    /\ forall fd', fd' <> fd -> fds w' !! fd' = fds w !! fd'.
Proof.
  intros (Hctx & Hh & Hheap). cbn [fst snd] in Hctx, Hh, Hheap.
  destruct (InstallFacts.mmap_cases w size fd)
    as [Hfail | (f & Hf & Hmp & Hmap)].
  { rewrite (InstallFacts.gettext_keymap_map_failed g w format fd size Hfail).
    eexists _, _. split; [reflexivity|]. split; [cbn; congruence|].
    split; [exact (conj Hctx (conj Hh Hheap))|]. split; [reflexivity|].
    split; [apply lookup_delete_eq|].
    intros fd' Hne. cbn [fds set_fds set_stderr].
    apply lookup_delete_ne. congruence. }
  destruct Hctx as [ctx Hctx].
  destruct (xkb_compiles (content f)) eqn:Hx; cycle 1.
  { rewrite (InstallFacts.gettext_keymap_compile_failed g w format fd size f
               ctx Hf Hmp Hctx Hx).
    eexists _, _. split; [reflexivity|]. split; [cbn; congruence|].
    split; [exact (conj (ex_intro _ ctx Hctx : is_Some _) (conj Hh Hheap))|].
    split; [reflexivity|].
    split; [apply lookup_delete_eq|].
    intros fd' Hne. cbn [fds set_fds set_stderr].
    apply lookup_delete_ne. congruence. }
  set (n := next_id w).
  set (kx := {| km_refcnt := 1; km_text := content f |}).
  set (w3 := set_fds (delete fd (fds w))
               (set_mappings (mappings w)
                  (set_next_id (S n)
                     (set_keymaps (<[n := kx]> (keymaps w))
                        (set_mappings (S (mappings w)) w))))).
  destruct (holds_only_owned _ _ w w3 kx None Hh Hheap eq_refl eq_refl)
    as (Hown & Hk5 & Hs5).
  destruct (release_owned _ _ w3 Hown)
    as (w4 & w5 & Hu1 & Hu2 & Hout & Hkm & Hst).
  rewrite Hk5 in Hkm. rewrite Hs5 in Hst.
  assert (Hmap5 : mappings w5 = mappings w)
    by (change (mappings w) with (mappings w3);
        unfold outside_heap in Hout; congruence).
  apply InstallFacts.outside_heap_fields in Hout as (Hfd & Hnid & Hal & Herr & _).
  assert (Hn5 : keymaps w5 !! n = Some kx)
    by (rewrite Hkm; apply lookup_singleton_eq).
  unfold Gettext.keyboard_handle_keymap.
  rewrite (bind_ok _ _ _ _ _
             (in_world_ok _ g _ _ _
                (InstallFacts.mmap_open w size fd f Hf Hmp))).
  rewrite (bind_ok _ _ _ _ _ (globals_get_ok _)). cbn [fst snd]. rewrite Hctx.
  destruct (InstallFacts.keymap_new_cases (Some ctx) (content f)
              (set_mappings (S (mappings w)) w) ltac:(eauto))
    as [(Hx' & _)|(_ & Hn)]; [congruence|].
  rewrite (bind_ok _ _ _ _ _ (in_world_ok _ g _ _ _ Hn)).
  rewrite (bind_ok _ _ _ _ _ (in_world_ok _ g _ _ _ (munmap_ok _ _))).
  rewrite (bind_ok _ _ _ _ _ (in_world_ok _ g _ _ _ (close_ok _ _))).
  rewrite (bind_ok _ _ _ _ _ (globals_get_ok _)). cbn [fst snd].
  change (next_id (set_mappings (S (mappings w)) w)) with n.
  match goal with
  | |- exists g' w', _ (g, ?W) = _ /\ _ => change W with w3
  end.
  rewrite (bind_ok _ _ _ _ _ (InstallFacts.when_state_unref_ok _ g _ _ Hu1)).
  rewrite (bind_ok _ _ _ _ _ (InstallFacts.when_keymap_unref_ok _ g _ _ Hu2)).
  rewrite (bind_ok _ _ _ _ _ (globals_set_ok _ _)). cbn [fst snd].
  assert (Hfd5 : fds w5 = delete fd (fds w)) by (rewrite Hfd; reflexivity).
  assert (Hnid5 : next_id w5 = S n) by (rewrite Hnid; reflexivity).
  destruct (InstallFacts.state_new_cases n _ w5 Hn5)
    as [(rest & Hrest & Hnew)|(Hrest & Hnew)];
    try rewrite Hnid5 in Hnew;
    rewrite (bind_ok _ _ _ _ _ (in_world_ok _ _ _ _ _ Hnew));
    rewrite (bind_ok _ _ _ _ _ (globals_set_ok _ _)); cbn [fst snd when is_null].
  - rewrite (bind_ok _ _ _ _ _ (in_world_ok _ _ _ _ _ (fprintf_stderr_ok _ _))).
    unfold Gettext.errorOccurred. rewrite globals_set_ok. cbn [fst snd].
    eexists _, _. split; [reflexivity|]. split; [cbn; congruence|].
    split; [|split; [exact Hmap5|split]].
    + split; [cbn; rewrite Hctx; eauto|]. cbn [fst snd]. split.
      * cbn [Gettext.keymap Gettext.xkb_state Gettext.set_error
             Gettext.set_xkb_state Gettext.set_keymap holds_only].
        exists (content f). split; [exact Hkm | exact Hst].
      * apply (heap_ok_singletons _ n kx None (S n));
          [exact Hkm | exact Hst | exact Hnid5 | right; split; [reflexivity|lia]].
    + unfold closed. cbn [fds set_stderr set_state_alloc]. rewrite Hfd5.
      apply lookup_delete_eq.
    + intros fd' Hne. cbn [fds set_stderr set_state_alloc]. rewrite Hfd5.
      apply lookup_delete_ne. congruence.
  - unfold ret.
    eexists _, _. split; [reflexivity|]. split; [cbn; congruence|].
    assert (Hk6 : <[n := {| km_refcnt := S (km_refcnt kx);
                            km_text := km_text kx |}]> (keymaps w5)
                  = {[ n := {| km_refcnt := 2; km_text := content f |} ]})
      by (rewrite Hkm; apply insert_singleton_eq).
    assert (Hs6 : <[S n := {| st_refcnt := 1; st_keymap := n;
                              st_mods := mods_zero |}]> (states w5)
                  = {[ S n := {| st_refcnt := 1; st_keymap := n;
                                 st_mods := mods_zero |} ]})
      by (rewrite Hst; apply insert_empty).
    split; [|split; [exact Hmap5|split]].
    + split; [cbn; rewrite Hctx; eauto|]. cbn [fst snd]. split.
      * cbn [Gettext.keymap Gettext.xkb_state Gettext.set_xkb_state
             Gettext.set_keymap].
        cbn [holds_only].
        exists (content f), mods_zero. split; [exact Hk6 | exact Hs6].
      * apply (heap_ok_singletons _ n
                 {| km_refcnt := 2; km_text := content f |}
                 (Some {| st_refcnt := 1; st_keymap := n;
                          st_mods := mods_zero |}) (S (S n)));
          [exact Hk6 | exact Hs6 | cbn [next_id set_next_id]; lia | left; lia].
    + unfold closed.
      cbn [fds set_next_id set_state_alloc set_states set_keymaps].
      rewrite Hfd5. apply lookup_delete_eq.
    + intros fd' Hne.
      cbn [fds set_next_id set_state_alloc set_states set_keymaps].
      rewrite Hfd5. apply lookup_delete_ne. congruence.
Qed.

(** The same event when the context is null: a descriptor that does not
    map is closed after the diagnostic, one that maps has its text handed
    to [xkb_keymap_new_from_string] with the null context. *)
Lemma gettext_keymap_no_context (g : Gettext.globals) (w : world)
    (format fd size : Z) :
  Gettext.xkb_context g = None ->
  (mmap size fd w = Ok None w ->
   Gettext.keyboard_handle_keymap format fd size (g, w)
   = Ok tt (g, set_fds (delete fd (fds w))
                 (set_stderr
                    (stderr w ++ [String.append "Failed to mmap keymap" nl])
                    w)))
  /\ (forall f, fds w !! fd = Some f -> mappable f = true ->
       Gettext.keyboard_handle_keymap format fd size (g, w)
       = Fault (NullArgument "xkb_keymap_new_from_string")
           (g, set_mappings (S (mappings w)) w)).
Proof.
  intros Hctx. split.
  - apply InstallFacts.gettext_keymap_map_failed.
  - intros f Hf Hmp. unfold Gettext.keyboard_handle_keymap.
    rewrite (bind_ok _ _ _ _ _
               (in_world_ok _ g _ _ _
                  (InstallFacts.mmap_open w size fd f Hf Hmp))).
    rewrite (bind_ok _ _ _ _ _ (globals_get_ok _)). cbn [fst snd].
    rewrite Hctx. reflexivity.
Qed.

(** One event of the listener, context or not: it returns and keeps the
    heap and the context, or it is a key or modifiers event that finds no
    state, or it is a keymap event that finds no context. *)
Lemma gettext_listener_step (e : Gettext.event)
    (s : Gettext.globals * world) :
  Gettext.owns_heap s ->
  (exists s',
     Gettext.keyboard_listener e s = Ok tt s' /\ Gettext.owns_heap s'
     /\ Gettext.xkb_context (fst s') = Gettext.xkb_context (fst s))
  \/ (Gettext.xkb_state (fst s) = None
      /\ exists f,
           Gettext.keyboard_listener e s = Fault f s
           /\ (f = NullArgument "xkb_state_key_get_syms"
               \/ f = NullArgument "xkb_state_update_mask"))
  \/ (Gettext.xkb_context (fst s) = None
      /\ exists s',
           Gettext.keyboard_listener e s
           = Fault (NullArgument "xkb_keymap_new_from_string") s').
Proof.
  destruct s as [g w]. intros Ht.
  destruct e as [format fd size|serial surface keys|serial surface
                |serial time key state|serial d l k grp];
    cbn [Gettext.keyboard_listener fst].
  - destruct (Gettext.xkb_context g) as [ctx|] eqn:Hctx.
    + destruct (gettext_keymap_step g w format fd size)
        as (g' & w' & Hrun & Hsame & (_ & Ht') & _).
      { split; [cbn [fst]; rewrite Hctx; eauto | exact Ht]. }
      left. exists (g', w'). split; [exact Hrun|]. split; [exact Ht'|].
      cbn [fst]. congruence.
    + destruct (gettext_keymap_no_context g w format fd size Hctx)
        as (Hfail & Hmapped).
      destruct (InstallFacts.mmap_cases w size fd)
        as [Hm | (f & Hf & Hmp & _)].
      * left. eexists. split; [exact (Hfail Hm)|].
        split; [exact Ht | exact Hctx].
      * right. right. split; [reflexivity|]. eexists.
        exact (Hmapped f Hf Hmp).
  - left. eexists. split; [reflexivity|]. split; [exact Ht | reflexivity].
  - left. eexists. split; [reflexivity|]. split; [exact Ht | reflexivity].
  - destruct Ht as (Hh & Hheap). cbn [fst snd] in Hh, Hheap.
    destruct (Gettext.xkb_state g) as [s|] eqn:Hs.
    + left. unfold holds_only in Hh.
      destruct (Gettext.keymap g) as [km|] eqn:Hkm; [|contradiction].
      destruct Hh as (t & m & Hk & Hst).
      rewrite (KeyboardFacts.gettext_key_ready g w s
                 {| st_refcnt := 1; st_keymap := km; st_mods := m |}
                 {| km_refcnt := 2; km_text := t |} serial time key state);
        [| rewrite Hst; apply lookup_singleton_eq
         | rewrite Hk; apply lookup_singleton_eq
         | exact Hs ].
      eexists. split; [reflexivity|].
      assert (Hsame : forall lines,
                keymaps (Gettext.emit_stdout lines w) = keymaps w
                /\ states (Gettext.emit_stdout lines w) = states w
                /\ next_id (Gettext.emit_stdout lines w) = next_id w)
        by (intros [|line lines]; repeat split; reflexivity).
      match goal with
      | |- Gettext.owns_heap (g, Gettext.emit_stdout ?L w) /\ _ =>
          destruct (Hsame L) as (Hk' & Hs' & Hn')
      end.
      split; [|reflexivity]. unfold Gettext.owns_heap.
      cbn [fst snd]. rewrite Hkm, Hs. split.
      * cbn [holds_only]. exists t, m. rewrite Hk', Hs'. auto.
      * unfold heap_ok. rewrite Hk', Hs', Hn'. exact Hheap.
    + right. left. split; [reflexivity|]. eexists. split.
      * apply KeyboardFacts.gettext_key_uninitialized. exact Hs.
      * left. reflexivity.
  - destruct Ht as (Hh & Hheap). cbn [fst snd] in Hh, Hheap.
    destruct (Gettext.xkb_state g) as [s|] eqn:Hs.
    + left. unfold holds_only in Hh.
      destruct (Gettext.keymap g) as [km|] eqn:Hkm; [|contradiction].
      destruct Hh as (t & m & Hk & Hst).
      rewrite (KeyboardFacts.gettext_modifiers_ready g w s
                 {| st_refcnt := 1; st_keymap := km; st_mods := m |}
                 serial d l k grp Hs);
        [| rewrite Hst; apply lookup_singleton_eq ].
      eexists. split; [reflexivity|].
      split; [|reflexivity]. unfold Gettext.owns_heap.
      cbn [fst snd]. rewrite Hkm, Hs.
      cbn [keymaps states set_states st_refcnt st_keymap]. split.
      * cbn [holds_only keymaps states set_states].
        eexists t, _. split; [exact Hk|].
        rewrite Hst. apply insert_singleton_eq.
      * destruct Hheap as [Hhk Hhs]. split; [exact Hhk|].
        intros id o. cbn [states set_states next_id].
        rewrite Hst, insert_singleton_eq. intros Ho.
        apply lookup_singleton_Some in Ho as [<- _].
        apply (Hhs s {| st_refcnt := 1; st_keymap := km; st_mods := m |}).
        rewrite Hst. apply lookup_singleton_eq.
    + right. left. split; [reflexivity|]. eexists. split.
      * apply KeyboardFacts.gettext_modifiers_uninitialized. exact Hs.
      * right. reflexivity.
Qed.

Lemma gettext_dispatch_step (batch : list Gettext.event) :
  forall s,
    Gettext.owns_heap s ->
    (exists s',
       Gettext.dispatch_all batch s = Ok tt s' /\ Gettext.owns_heap s'
       /\ Gettext.xkb_context (fst s') = Gettext.xkb_context (fst s))
    \/ (exists f s',
          Gettext.dispatch_all batch s = Fault f s'
          /\ Gettext.xkb_state (fst s') = None
          /\ (f = NullArgument "xkb_state_key_get_syms"
              \/ f = NullArgument "xkb_state_update_mask"))
    \/ (Gettext.xkb_context (fst s) = None
        /\ exists s',
             Gettext.dispatch_all batch s
             = Fault (NullArgument "xkb_keymap_new_from_string") s').
Proof.
  induction batch as [|e batch IH]; intros s Ht.
  - left. exists s. split; [reflexivity|]. split; [exact Ht | reflexivity].
  - cbn [Gettext.dispatch_all].
    destruct (gettext_listener_step e s Ht)
      as [(s1 & Hrun & Ht1 & Hc1)
         |[(Hnone & f & Hrun & Hf)|(Hctx & s1 & Hrun)]].
    + rewrite (bind_ok _ _ _ _ _ Hrun).
      destruct (IH s1 Ht1)
        as [(s2 & Hrun2 & Ht2 & Hc2)
           |[(f & s2 & Hrun2 & Hf)|(Hctx & s2 & Hrun2)]].
      * left. exists s2. split; [exact Hrun2|]. split; [exact Ht2|].
        congruence.
      * right. left. exists f, s2. split; [exact Hrun2 | exact Hf].
      * right. right. split; [congruence|]. exists s2. exact Hrun2.
    + right. left. exists f, s. unfold bind. rewrite Hrun. auto.
    + right. right. split; [exact Hctx|]. exists s1.
      unfold bind. rewrite Hrun. reflexivity.
Qed.

Lemma gettext_loop_step (incoming : list (option (list Gettext.event))) :
  forall s,
    Gettext.owns_heap s ->
    (exists rest s',
       Gettext.event_loop incoming s = Ok rest s' /\ Gettext.owns_heap s')
    \/ (exists f s',
          Gettext.event_loop incoming s = Fault f s'
          /\ Gettext.xkb_state (fst s') = None
          /\ (f = NullArgument "xkb_state_key_get_syms"
              \/ f = NullArgument "xkb_state_update_mask"))
    \/ (Gettext.xkb_context (fst s) = None
        /\ exists s',
             Gettext.event_loop incoming s
             = Fault (NullArgument "xkb_keymap_new_from_string") s').
Proof.
  induction incoming as [|[batch|] incoming IH]; intros s Ht.
  - left. exists [], s. split; [reflexivity | exact Ht].
  - cbn [Gettext.event_loop].
    destruct (gettext_dispatch_step batch s Ht)
      as [(s1 & Hrun & Ht1 & Hc1)
         |[(f & s1 & Hrun & Hnone)|(Hctx & s1 & Hrun)]].
    + rewrite (bind_ok _ _ _ _ _ Hrun).
      rewrite (bind_ok _ _ _ _ _ (globals_get_ok _)).
      destruct (Gettext.error (fst s1)).
      * left. exists incoming, s1. split; [reflexivity | exact Ht1].
      * destruct (IH s1 Ht1)
          as [Hok|[Hnull|(Hctx & s2 & Hrun2)]].
        -- left. exact Hok.
        -- right. left. exact Hnull.
        -- right. right. split; [congruence|]. exists s2. exact Hrun2.
    + right. left. exists f, s1. unfold bind at 1. rewrite Hrun. auto.
    + right. right. split; [exact Hctx|]. exists s1.
      unfold bind at 1. rewrite Hrun. reflexivity.
  - left. exists incoming, s. split; [reflexivity | exact Ht].
Qed.

Lemma gettext_cleanup_step (g : Gettext.globals) (w : world) :
  Gettext.owns_heap (g, w) ->
  exists w',
    Gettext.cleanup (g, w) = Ok tt (g, w')
    /\ keymaps w' = ∅ /\ states w' = ∅
    /\ outside_heap w' = outside_heap w.
Proof.
  intros (Hh & _). cbn [fst snd] in Hh.
  assert (Hown :
    match Gettext.keymap g, Gettext.xkb_state g with
    | Some k, Some s =>
        exists t m,
          keymaps w !! k = Some {| km_refcnt := 2; km_text := t |}
          /\ states w !! s = Some {| st_refcnt := 1; st_keymap := k;
                                     st_mods := m |}
    | Some k, None =>
        exists t, keymaps w !! k = Some {| km_refcnt := 1; km_text := t |}
    | None, None => True
    | None, Some _ => False
    end
    /\ match Gettext.keymap g with
       | Some k => delete k (keymaps w)
       | None => keymaps w
       end = ∅
    /\ match Gettext.xkb_state g with
       | Some s => delete s (states w)
       | None => states w
       end = ∅).
  { unfold holds_only in Hh.
    destruct (Gettext.keymap g) as [k|], (Gettext.xkb_state g) as [s|];
      try contradiction.
    - destruct Hh as (t & m & Hk & Hs). rewrite Hk, Hs.
      split; [exists t, m; split; apply lookup_singleton_eq|].
      split; apply delete_singleton_eq.
    - destruct Hh as (t & Hk & Hs). rewrite Hk, Hs.
      split; [exists t; apply lookup_singleton_eq|].
      split; [apply delete_singleton_eq | reflexivity].
    - destruct Hh as (Hk & Hs). rewrite Hk, Hs. auto. }
  destruct Hown as (Hown & Hk0 & Hs0).
  destruct (release_owned _ _ w Hown)
    as (w1 & w2 & Hu1 & Hu2 & Hout & Hkm & Hst).
  exists w2. unfold Gettext.cleanup.
  rewrite (bind_ok _ _ _ _ _ (globals_get_ok _)). cbn [fst snd].
  rewrite (bind_ok _ _ _ _ _ (InstallFacts.when_state_unref_ok _ g _ _ Hu1)).
  rewrite (InstallFacts.when_keymap_unref_ok _ g _ _ Hu2).
  split; [reflexivity|]. rewrite Hkm, Hst. auto.
Qed.

(** X8.  A keymap event of gettext.c, from a heap that holds the
    translator's pair and nothing else.  With an xkb context the handler
    never leaks: it returns on every path (mapping refused, text
    rejected, state not allocated, success), the heap again holds one
    pair and nothing else, the context is the same, the mapping made for
    the text is gone, and of the descriptors only the one of the event is
    closed.  Without a context (the seat listener could not create one)
    a descriptor that does not map is closed after the diagnostic, and
    one that maps has its text handed to [xkb_keymap_new_from_string]
    with the null context, the mapping live and the descriptor open. *)
Theorem gettext_keymap_event_keeps_one_pair (g : Gettext.globals)
    (w : world) (format fd size : Z) :
  Gettext.owns_heap (g, w) ->
  match Gettext.xkb_context g with
  | Some _ =>
      exists g' w',
        Gettext.keyboard_handle_keymap format fd size (g, w) = Ok tt (g', w')
        /\ Gettext.xkb_context g' = Gettext.xkb_context g
        /\ Gettext.owns_heap (g', w')
        /\ mappings w' = mappings w
        /\ closed fd w'
        /\ forall fd', fd' <> fd -> fds w' !! fd' = fds w !! fd'
  | None =>
      (mmap size fd w = Ok None w
       /\ Gettext.keyboard_handle_keymap format fd size (g, w)
          = Ok tt (g, set_fds (delete fd (fds w))
                        (set_stderr
                           (stderr w
                            ++ [String.append "Failed to mmap keymap" nl])
                           w)))
      \/ (exists f,
            fds w !! fd = Some f /\ mappable f = true
            /\ Gettext.keyboard_handle_keymap format fd size (g, w)
               = Fault (NullArgument "xkb_keymap_new_from_string")
                   (g, set_mappings (S (mappings w)) w)
            /\ fds (set_mappings (S (mappings w)) w) !! fd = Some f)
  end.
Proof.
  intros Ht. destruct (Gettext.xkb_context g) as [ctx|] eqn:Hctx.
  - destruct (gettext_keymap_step g w format fd size)
      as (g' & w' & Hrun & Hsame & (_ & Ht') & Hm & Hc & Hfd).
    { split; [cbn [fst]; rewrite Hctx; eauto | exact Ht]. }
    exists g', w'. rewrite Hsame. auto 10.
  - destruct (gettext_keymap_no_context g w format fd size Hctx)
      as (Hfail & Hmapped).
    destruct (InstallFacts.mmap_cases w size fd)
      as [Hm | (f & Hf & Hmp & _)].
    + left. split; [exact Hm | exact (Hfail Hm)].
    + right. exists f. split; [exact Hf|]. split; [exact Hmp|].
      split; [exact (Hmapped f Hf Hmp) | exact Hf].
Qed.

(** X9.  The loop and the cleanup of gettext.c's main, for every stream
    of events, from a heap that holds the translator's pair and nothing
    else: either the program reaches the end of its cleanup, and then no
    keymap and no state is left; or it has handed a null state to
    xkbcommon, at a key or modifiers event that came while no state was
    installed; or, and only when the context is null, it has handed the
    null context to [xkb_keymap_new_from_string] at a keymap event. *)
Theorem gettext_main_frees_the_heap
    (incoming : list (option (list Gettext.event)))
    (s : Gettext.globals * world) :
  Gettext.owns_heap s ->
  match Gettext.main_loop incoming s with
  | Ok rest s' => keymaps (snd s') = ∅ /\ states (snd s') = ∅
  | Fault f s' =>
      (Gettext.xkb_state (fst s') = None
       /\ (f = NullArgument "xkb_state_key_get_syms"
           \/ f = NullArgument "xkb_state_update_mask"))
      \/ (Gettext.xkb_context (fst s) = None
          /\ f = NullArgument "xkb_keymap_new_from_string")
  end.
Proof.
  intros Ht. unfold Gettext.main_loop.
  destruct (gettext_loop_step incoming s Ht)
    as [(rest & [g1 w1] & Hrun & Ht1)
       |[(f & s1 & Hrun & Hnone & Hf)|(Hctx & s1 & Hrun)]].
  - rewrite (bind_ok _ _ _ _ _ Hrun).
    destruct (gettext_cleanup_step g1 w1 Ht1) as (w2 & Hc & Hk & Hs & _).
    rewrite (bind_ok _ _ _ _ _ Hc). cbn [ret snd]. auto.
  - unfold bind at 1. rewrite Hrun. auto.
  - unfold bind at 1. rewrite Hrun. auto.
Qed.


End WithLib.

Lemma sample_world_tidy : Gettext.tidy (Sample.globals0, Sample.world0).
Proof.
  split; [eexists; reflexivity|]. split; [split; reflexivity|].
  split; intros id o Ho; simpl in Ho; rewrite lookup_empty in Ho;
    discriminate.
Defined.

Lemma null_context_owns_heap :
  Gettext.owns_heap (Gettext.globals_zero, Sample.world0).
Proof.
  split; [split; reflexivity|].
  split; intros id o Ho; simpl in Ho; rewrite lookup_empty in Ho;
    discriminate.
Defined.

Lemma gettext_keymap_event_keeps_one_pair_witness :
  Gettext.owns_heap (Sample.globals0, Sample.world0)
  /\ (exists g' w',
        Gettext.keyboard_handle_keymap (lib := Sample.lib) 1 5 17
          (Sample.globals0, Sample.world0) = Ok tt (g', w')
        /\ Gettext.xkb_context g' = Gettext.xkb_context Sample.globals0
        /\ Gettext.owns_heap (g', w')
        /\ mappings w' = mappings Sample.world0
        /\ closed 5 w'
        /\ forall fd', fd' <> 5 -> fds w' !! fd' = fds Sample.world0 !! fd')
  /\ Gettext.owns_heap (Gettext.globals_zero, Sample.world0)
  /\ ((mmap 17 5 Sample.world0 = Ok None Sample.world0
       /\ Gettext.keyboard_handle_keymap (lib := Sample.lib) 1 5 17
            (Gettext.globals_zero, Sample.world0)
          = Ok tt (Gettext.globals_zero,
                   set_fds (delete 5 (fds Sample.world0))
                     (set_stderr
                        (stderr Sample.world0
                         ++ [String.append "Failed to mmap keymap" nl])
                        Sample.world0)))
      \/ (exists f,
            fds Sample.world0 !! 5 = Some f /\ mappable f = true
            /\ Gettext.keyboard_handle_keymap (lib := Sample.lib) 1 5 17
                 (Gettext.globals_zero, Sample.world0)
               = Fault (NullArgument "xkb_keymap_new_from_string")
                   (Gettext.globals_zero, set_mappings 1 Sample.world0)
            /\ fds (set_mappings 1 Sample.world0) !! 5 = Some f)).
Proof.
  split; [exact (proj2 sample_world_tidy)|].
  split; [exact (gettext_keymap_event_keeps_one_pair (lib := Sample.lib)
                   Sample.globals0 Sample.world0 1 5 17
                   (proj2 sample_world_tidy))|].
  split; [exact null_context_owns_heap|].
  exact (gettext_keymap_event_keeps_one_pair (lib := Sample.lib)
           Gettext.globals_zero Sample.world0 1 5 17
           null_context_owns_heap).
Defined.

Lemma gettext_main_frees_the_heap_witness :
  Gettext.owns_heap (Sample.globals0, Sample.world0)
  /\ match Gettext.main_loop (lib := Sample.lib)
             [Some [Gettext.Keymap 1 5 17; Gettext.Key 0 0 30 1];
              Some [Gettext.Keymap 1 5 17]; None]
             (Sample.globals0, Sample.world0) with
     | Ok rest s' => keymaps (snd s') = ∅ /\ states (snd s') = ∅
     | Fault f s' =>
         (Gettext.xkb_state (fst s') = None
          /\ (f = NullArgument "xkb_state_key_get_syms"
              \/ f = NullArgument "xkb_state_update_mask"))
         \/ (Gettext.xkb_context (fst (Sample.globals0, Sample.world0)) = None
             /\ f = NullArgument "xkb_keymap_new_from_string")
     end
  /\ Gettext.owns_heap (Gettext.globals_zero, Sample.world0)
  /\ match Gettext.main_loop (lib := Sample.lib)
             [Some [Gettext.Keymap 1 5 17]]
             (Gettext.globals_zero, Sample.world0) with
     | Ok rest s' => keymaps (snd s') = ∅ /\ states (snd s') = ∅
     | Fault f s' =>
         (Gettext.xkb_state (fst s') = None
          /\ (f = NullArgument "xkb_state_key_get_syms"
              \/ f = NullArgument "xkb_state_update_mask"))
         \/ (Gettext.xkb_context (fst (Gettext.globals_zero, Sample.world0))
             = None
             /\ f = NullArgument "xkb_keymap_new_from_string")
     end.
Proof.
  split; [exact (proj2 sample_world_tidy)|].
  split; [exact (gettext_main_frees_the_heap (lib := Sample.lib)
                   [Some [Gettext.Keymap 1 5 17; Gettext.Key 0 0 30 1];
                    Some [Gettext.Keymap 1 5 17]; None]
                   (Sample.globals0, Sample.world0)
                   (proj2 sample_world_tidy))|].
  split; [exact null_context_owns_heap|].
  exact (gettext_main_frees_the_heap (lib := Sample.lib)
           [Some [Gettext.Keymap 1 5 17]]
           (Gettext.globals_zero, Sample.world0) null_context_owns_heap).
Defined.

End HeapFacts.

(** ** The seat listener of gettext.c *)

Module GettextSeatFacts.
Import Gettext GettextSeat.

Local Ltac run_seat_handler :=
  unfold seat_handle_capabilities, pointer_and_touch, errorOccurred, bind,
    in_env, update, wl_seat_get, wl_keyboard_add_listener, xkb_context_new,
    seat_printf, seat_fprintf_stderr, modify, ret;
  cbn [fst snd].

Lemma fresh_device (e : seat_env) (j : nat) :
  seat_ok e -> devices e !! (j + next_object e)%nat = None.
Proof.
  intros [Hd _]. destruct (devices e !! (j + next_object e)%nat) eqn:E;
    [|reflexivity].
  assert (H : is_Some (devices e !! (j + next_object e)%nat)) by eauto.
  apply Hd in H. lia.
Qed.

Local Ltac fresh_lookup e Hok :=
  repeat (rewrite lookup_insert_ne by lia);
  first [ exact (fresh_device e 0 Hok) | exact (fresh_device e 1 Hok)
        | exact (fresh_device e 2 Hok) | exact (fresh_device e 3 Hok) ].

(** X11.  gettext.c's seat listener only ever acquires.  When the
    context can be created, a capabilities event returns with one new
    proxy for every announced device, whatever the globals held: every
    proxy and context that was live stays live, the keyboard the globals
    now name is a new one, and a seat without keyboard raises the error
    flag, which no event lowers. *)
Theorem seat_capabilities_only_acquires (caps : Z) (g : globals)
    (e : seat_env) :
  seat_ok e -> (forall rest, context_alloc e <> false :: rest) ->
  exists g' e',
    seat_handle_capabilities caps (g, e) = Ok tt (g', e')
    /\ seat_ok e'
    /\ (forall id d, devices e !! id = Some d -> devices e' !! id = Some d)
    /\ contexts e ⊆ contexts e'
    /\ size (devices e') = (size (devices e) + announced caps)%nat
    /\ (forall k, keyboard g' = Some k -> devices e !! k = None)
    /\ is_null (keyboard g') = negb (has caps WL_SEAT_CAPABILITY_KEYBOARD)
    /\ is_null (pointer g') = negb (has caps WL_SEAT_CAPABILITY_POINTER)
    /\ is_null (touch g') = negb (has caps WL_SEAT_CAPABILITY_TOUCH)
    /\ error g' = error g || negb (has caps WL_SEAT_CAPABILITY_KEYBOARD).
Proof.
  intros Hok Ha. pose proof Hok as [Hd Hc].
  assert (Hkeep : forall (m : gmap nat device) id d j x,
            (id < next_object e)%nat ->
            m !! id = Some d ->
            <[(j + next_object e)%nat := x]> m !! id = Some d)
    by (intros m id d j x Hlt Hm; rewrite lookup_insert_ne by lia; exact Hm).
  assert (Hlt : forall id d, devices e !! id = Some d ->
                             (id < next_object e)%nat)
    by (intros id d Hid; apply Hd; eauto).
  unfold announced. run_seat_handler.
  destruct (has caps WL_SEAT_CAPABILITY_KEYBOARD) eqn:Hk;
    destruct (has caps WL_SEAT_CAPABILITY_POINTER) eqn:Hp;
    destruct (has caps WL_SEAT_CAPABILITY_TOUCH) eqn:Ht;
    cbn [fst snd context_alloc set_next_object set_devices
         set_listening_keyboards set_seat_stdout];
    try (destruct (context_alloc e) as [|[|] rest] eqn:Hal;
         [| |exfalso; exact (Ha rest eq_refl)]);
    cbn [fst snd is_null negb orb devices contexts next_object
         set_next_object set_devices set_listening_keyboards set_seat_stdout
         set_context_alloc set_contexts keyboard pointer touch error
         set_keyboard set_pointer set_touch set_error set_xkb_context
         Nat.add];
    (eexists _, _; split; [reflexivity|]);
    unfold seat_ok;
    cbn [fst snd is_null negb orb devices contexts next_object
         set_next_object set_devices set_listening_keyboards set_seat_stdout
         set_context_alloc set_contexts keyboard pointer touch error
         set_keyboard set_pointer set_touch set_error set_xkb_context
         Nat.add];
    (split; [split;
             [ intros id [d Hid];
               repeat (apply lookup_insert_Some in Hid
                         as [[<- _]|[_ Hid]]; [lia|]);
               apply Hlt in Hid; lia
             | intros id Hid;
               repeat (apply elem_of_union in Hid as [Hid|Hid];
                       [apply elem_of_singleton in Hid; lia|]);
               apply Hc in Hid; lia ]|]);
    (split; [intros id d Hid;
             repeat (rewrite lookup_insert_ne
                       by (apply Hlt in Hid; lia));
             exact Hid|]);
    (split; [set_solver|]);
    (split; [repeat (rewrite map_size_insert_None
                       by fresh_lookup e Hok); lia|]);
    (split; [intros k0 Hk0; try discriminate; injection Hk0 as <-;
             exact (fresh_device e 0 Hok)|]);
    rewrite ?orb_true_r, ?orb_false_r; repeat split; reflexivity.
Qed.

Lemma seat_capabilities_only_acquires_witness :
  seat_ok seat_env_empty
  /\ (forall rest, context_alloc seat_env_empty <> false :: rest)
  /\ exists g' e',
       seat_handle_capabilities 3 (globals_zero, seat_env_empty)
       = Ok tt (g', e')
       /\ seat_ok e'
       /\ (forall id d, devices seat_env_empty !! id = Some d ->
                        devices e' !! id = Some d)
       /\ contexts seat_env_empty ⊆ contexts e'
       /\ size (devices e')
          = (size (devices seat_env_empty) + announced 3)%nat
       /\ (forall k, keyboard g' = Some k ->
                     devices seat_env_empty !! k = None)
       /\ is_null (keyboard g')
          = negb (has 3 WL_SEAT_CAPABILITY_KEYBOARD)
       /\ is_null (pointer g') = negb (has 3 WL_SEAT_CAPABILITY_POINTER)
       /\ is_null (touch g') = negb (has 3 WL_SEAT_CAPABILITY_TOUCH)
       /\ error g'
          = error globals_zero || negb (has 3 WL_SEAT_CAPABILITY_KEYBOARD).
Proof.
  assert (Hok : seat_ok seat_env_empty).
  { split; [intros id [d Hid]; simpl in Hid; rewrite lookup_empty in Hid;
            discriminate
           | intros id Hid; simpl in Hid; set_solver]. }
  assert (Ha : forall rest, context_alloc seat_env_empty <> false :: rest)
    by (intros rest; discriminate).
  split; [exact Hok|]. split; [exact Ha|].
  exact (seat_capabilities_only_acquires 3 globals_zero seat_env_empty
           Hok Ha).
Defined.

(** X12.  When the keyboard is announced and the xkb context cannot be
    created, the listener returns at once: the error flag is raised after
    a diagnostic, the new keyboard proxy is kept with its listener, and
    the pointer and the touch device are neither acquired nor cleared,
    whatever the event announces. *)
Theorem seat_context_failure_returns_early (caps : Z) (g : globals)
    (e : seat_env) (rest : list bool) :
  has caps WL_SEAT_CAPABILITY_KEYBOARD = true ->
  context_alloc e = false :: rest ->
  exists g' e',
    seat_handle_capabilities caps (g, e) = Ok tt (g', e')
    /\ error g' = true /\ xkb_context g' = None
    /\ keyboard g' = Some (next_object e)
    /\ next_object e ∈ listening_keyboards e'
    /\ pointer g' = pointer g /\ touch g' = touch g
    /\ devices e' = <[next_object e := KeyboardDevice]> (devices e)
    /\ seat_stderr e'
       = seat_stderr e ++ [String.append "Failed to create XKB context" nl].
Proof.
  intros Hk Ha. run_seat_handler. rewrite Hk.
  cbn [fst snd context_alloc set_next_object set_devices
       set_listening_keyboards set_seat_stdout].
  rewrite Ha. cbn [is_null fst snd].
  eexists _, _. split; [reflexivity|].
  cbn. repeat split; try reflexivity. set_solver.
Qed.

Lemma seat_context_failure_returns_early_witness :
  has 7 WL_SEAT_CAPABILITY_KEYBOARD = true
  /\ context_alloc (set_context_alloc [false] seat_env_empty) = [false]
  /\ exists g' e',
       seat_handle_capabilities 7
         (globals_zero, set_context_alloc [false] seat_env_empty)
       = Ok tt (g', e')
       /\ error g' = true /\ pointer g' = None /\ touch g' = None
       /\ size (devices e') = 1%nat.
Proof.
  split; [reflexivity|]. split; [reflexivity|].
  destruct (seat_context_failure_returns_early 7 globals_zero
              (set_context_alloc [false] seat_env_empty) []
              eq_refl eq_refl)
    as (g' & e' & Hrun & He & _ & _ & _ & Hp & Ht & Hd & _).
  exists g', e'. split; [exact Hrun|]. split; [exact He|].
  split; [exact Hp|]. split; [exact Ht|].
  rewrite Hd. reflexivity.
Defined.

End GettextSeatFacts.

(** ** Shared memory names *)

Module ShmFacts.
Import Shm.

Lemma land_15_range (r : Z) : 0 <= Z.land r 15 <= 15.
Proof.
  change 15 with (Z.ones 4) at 1 2. rewrite Z.land_ones by lia.
  pose proof (Z.mod_pos_bound r (2 ^ 4) ltac:(lia)). lia.
Qed.

Lemma land_16_cases (r : Z) : Z.land r 16 = 0 \/ Z.land r 16 = 16.
Proof.
  destruct (Z.testbit r 4) eqn:Hb; [right|left]; apply Z.bits_inj';
    intros n Hn; rewrite Z.land_spec;
    change 16 with (2 ^ 4); rewrite Z.pow2_bits_eqb by lia;
    destruct (Z.eqb_spec 4 n) as [<-|Hne];
    rewrite ?Hb, ?andb_false_r, ?Z.bits_0; try reflexivity.
Qed.

Lemma randname_char_letter (r : Z) :
  65 <= randname_char r <= 80 \/ 97 <= randname_char r <= 112.
Proof.
  unfold randname_char. pose proof (land_15_range r).
  destruct (land_16_cases r) as [-> | ->]; lia.
Qed.

Lemma randname_chars_letters (n : nat) :
  forall r,
    Forall (fun c => 65 <= c <= 80 \/ 97 <= c <= 112) (randname_chars n r).
Proof.
  induction n as [|n IH]; intros r; constructor.
  - apply randname_char_letter.
  - apply IH.
Qed.

Lemma randname_chars_length (n : nat) :
  forall r, length (randname_chars n r) = n.
Proof. induction n as [|n IH]; intros r; simpl; [|rewrite IH]; reflexivity. Qed.

(** X13.  [randname] reads the clock once and writes six characters,
    each a letter from A to P or from a to p, whatever the clock says:
    the name stays a name, and it has thirty bits. *)
Theorem randname_writes_six_letters (e : shm_env) :
  exists suffix,
    randname e = Ok suffix (set_clock (tail (clock e)) e)
    /\ length suffix = 6%nat
    /\ Forall (fun c => 65 <= c <= 80 \/ 97 <= c <= 112) suffix
    /\ String.length (shm_name suffix) = 14%nat.
Proof.
  exists (randname_chars 6 (hd 0 (clock e))). split; [|split; [|split]].
  - unfold randname, bind, clock_gettime, ret.
    destruct e as [c ? ? ? ? ? ? ? ? ? ? ? ?]. destruct c; reflexivity.
  - apply randname_chars_length.
  - apply randname_chars_letters.
  - reflexivity.
Qed.

Lemma randname_char_mod (r : Z) : randname_char r = randname_char (r mod 32).
Proof.
  unfold randname_char. change 32 with (2 ^ 5).
  rewrite <- (Z.land_ones r 5) by lia. rewrite <- !Z.land_assoc.
  reflexivity.
Qed.

Lemma randname_char_small (m : Z) :
  0 <= m < 32 -> randname_char m = if m <? 16 then 65 + m else 81 + m.
Proof.
  intros Hm.
  assert (H : exists n, m = Z.of_nat n /\ (n < 32)%nat)
    by (exists (Z.to_nat m); lia).
  destruct H as (n & -> & Hn).
  do 32 (destruct n as [|n]; [reflexivity|]). lia.
Qed.

Lemma randname_char_inj (r r' : Z) :
  randname_char r = randname_char r' <-> r mod 32 = r' mod 32.
Proof.
  rewrite (randname_char_mod r), (randname_char_mod r').
  pose proof (Z.mod_pos_bound r 32 ltac:(lia)) as Hr.
  pose proof (Z.mod_pos_bound r' 32 ltac:(lia)) as Hr'.
  rewrite (randname_char_small _ Hr), (randname_char_small _ Hr').
  destruct (Z.ltb_spec (r mod 32) 16), (Z.ltb_spec (r' mod 32) 16); lia.
Qed.

Lemma randname_chars_inj (n : nat) :
  forall r r',
    randname_chars n r = randname_chars n r'
    <-> r mod 32 ^ Z.of_nat n = r' mod 32 ^ Z.of_nat n.
Proof.
  induction n as [|n IH]; intros r r'.
  - simpl. rewrite !Z.mod_1_r. tauto.
  - cbn [randname_chars]. rewrite !Z.shiftr_div_pow2 by lia.
    change (2 ^ 5) with 32.
    rewrite Nat2Z.inj_succ, Z.pow_succ_r by lia.
    assert (Hp : 0 < 32 ^ Z.of_nat n) by (apply Z.pow_pos_nonneg; lia).
    rewrite !Z.rem_mul_r by lia.
    pose proof (Z.mod_pos_bound r 32 ltac:(lia)).
    pose proof (Z.mod_pos_bound r' 32 ltac:(lia)).
    split.
    + intros E. injection E as Ec Et.
      apply randname_char_inj in Ec. apply IH in Et. lia.
    + intros E.
      assert (r mod 32 = r' mod 32) by lia.
      assert ((r / 32) mod 32 ^ Z.of_nat n = (r' / 32) mod 32 ^ Z.of_nat n)
        by lia.
      f_equal; [apply randname_char_inj | apply IH]; assumption.
Qed.

Lemma to_char_inj (s s' : list Z) :
  Forall (fun c => 65 <= c <= 80 \/ 97 <= c <= 112) s ->
  Forall (fun c => 65 <= c <= 80 \/ 97 <= c <= 112) s' ->
  map (fun c => ascii_of_N (Z.to_N c)) s
  = map (fun c => ascii_of_N (Z.to_N c)) s' ->
  s = s'.
Proof.
  intros Hs. revert s'. induction Hs as [|c s Hc _ IH]; intros s' Hs' E.
  - destruct s'; [reflexivity | discriminate].
  - destruct Hs' as [|c' s' Hc' Hs']; [discriminate|].
    injection E as Ec Et. f_equal; [|apply IH; assumption].
    apply (f_equal N_of_ascii) in Ec.
    rewrite !N_ascii_embedding in Ec by lia. lia.
Qed.

Lemma shm_name_inj (s s' : list Z) :
  Forall (fun c => 65 <= c <= 80 \/ 97 <= c <= 112) s ->
  Forall (fun c => 65 <= c <= 80 \/ 97 <= c <= 112) s' ->
  shm_name s = shm_name s' -> s = s'.
Proof.
  intros Hs Hs' E. unfold shm_name in E.
  change (substring 0 8 "/wl_shm-XXXXXX") with "/wl_shm-"%string in E.
  injection E as E.
  repeat match type of E with
         | context [String.append EmptyString ?a] =>
             change (String.append EmptyString a) with a in E
         end.
  apply (f_equal list_ascii_of_string) in E.
  rewrite !list_ascii_of_string_of_list_ascii in E.
  apply to_char_inj; assumption.
Qed.

(** X14.  Two clock readings give the same name exactly when they agree
    on their low thirty bits.  A nanosecond count is below 2^30, so two
    names collide only when the clock has not moved between the two
    readings. *)
Theorem shm_names_collide_on_equal_clocks (r r' : Z) :
  (shm_name (randname_chars 6 r) = shm_name (randname_chars 6 r')
   <-> r mod 2 ^ 30 = r' mod 2 ^ 30)
  /\ (0 <= r < 1000000000 -> 0 <= r' < 1000000000 ->
      shm_name (randname_chars 6 r) = shm_name (randname_chars 6 r') ->
      r = r').
Proof.
  assert (Hiff : shm_name (randname_chars 6 r)
                 = shm_name (randname_chars 6 r')
                 <-> r mod 2 ^ 30 = r' mod 2 ^ 30).
  { change (2 ^ 30) with (32 ^ Z.of_nat 6).
    rewrite <- randname_chars_inj. split.
    - apply shm_name_inj; apply randname_chars_letters.
    - intros ->. reflexivity. }
  split; [exact Hiff|].
  intros Hr Hr' E. apply Hiff in E.
  rewrite !Z.mod_small in E by lia. exact E.
Qed.

Lemma shm_names_collide_on_equal_clocks_witness :
  shm_name (randname_chars 6 5) = shm_name (randname_chars 6 (5 + 2 ^ 30))
  /\ 0 <= 5 < 1000000000 /\ 0 <= 6 < 1000000000
  /\ shm_name (randname_chars 6 5) <> shm_name (randname_chars 6 6).
Proof.
  split; [|split; [lia|split; [lia|]]].
  - apply (proj1 (shm_names_collide_on_equal_clocks 5 (5 + 2 ^ 30))).
    reflexivity.
  - intros E.
    apply (proj2 (shm_names_collide_on_equal_clocks 5 6)) in E; lia.
Defined.

(** ** Creating the shared memory file *)

Lemma randname_ok (e : shm_env) :
  randname e
  = Ok (randname_chars 6 (hd 0 (clock e))) (set_clock (tail (clock e)) e).
Proof.
  unfold randname, bind, clock_gettime, ret.
  destruct e as [c ? ? ? ? ? ? ? ? ? ? ? ?]. destruct c; reflexivity.
Qed.

Lemma shm_open_cases (name : string) (e : shm_env) :
  (name ∈ shm_names e
   /\ shm_open name e = Ok (-1) (set_errno EEXIST e))
  \/ ((name ∉ shm_names e) /\ hd 0 (shm_open_errno e) <> 0
      /\ shm_open name e
         = Ok (-1) (set_errno (hd 0 (shm_open_errno e))
                      (set_shm_open_errno (tail (shm_open_errno e)) e)))
  \/ ((name ∉ shm_names e) /\ hd 0 (shm_open_errno e) = 0
      /\ shm_open name e
         = Ok (Z.of_nat (next_fd e))
             (set_next_fd (S (next_fd e))
                (set_next_object (S (next_object e))
                   (set_open_fds
                      (<[Z.of_nat (next_fd e) := next_object e]> (open_fds e))
                      (set_objects (<[next_object e := []]> (objects e))
                         (set_shm_names ({[name]} ∪ shm_names e)
                            (set_shm_open_errno
                               (tail (shm_open_errno e)) e))))))).
Proof.
  unfold shm_open. destruct (decide (name ∈ shm_names e)) as [Hin|Hout].
  - left. rewrite bool_decide_true by exact Hin. auto.
  - right. rewrite bool_decide_false by exact Hout.
    destruct (Z.eqb_spec (hd 0 (shm_open_errno e)) 0) as [E|E]; auto.
Qed.

Lemma unlink_created (name : string) (names : gset string) :
  name ∉ names -> ({[name]} ∪ names) ∖ {[name]} = names.
Proof.
  intros Hout. apply set_eq. intros x.
  rewrite elem_of_difference, elem_of_union, !elem_of_singleton. split.
  - intros [[->|Hx] Hne]; [contradiction | exact Hx].
  - intros Hx. split; [right; exact Hx | intros ->; contradiction].
Qed.

(** What one call of the loop leaves alone. *)
Lemma create_shm_loop_result (retries : nat) :
  forall e,
    exists fd e',
      create_shm_loop retries e = Ok fd e'
      /\ shm_names e' = shm_names e
      /\ mappings e' = mappings e /\ pools e' = pools e
      /\ buffers e' = buffers e
      /\ ftruncate_errno e' = ftruncate_errno e
      /\ mmap_refused e' = mmap_refused e
      /\ (length (clock e) <= length (clock e') + retries)%nat
      /\ ((fd = (-1) /\ open_fds e' = open_fds e /\ objects e' = objects e
           /\ next_fd e' = next_fd e /\ next_object e' = next_object e)
          \/ (fd = Z.of_nat (next_fd e)
              /\ open_fds e' = <[fd := next_object e]> (open_fds e)
              /\ objects e' = <[next_object e := []]> (objects e)
              /\ next_fd e' = S (next_fd e)
              /\ next_object e' = S (next_object e))).
Proof.
  induction retries as [|retries IH]; intros e.
  - exists (-1), e. cbn. repeat split; auto with lia.
  - cbn [create_shm_loop].
    rewrite (bind_ok _ _ _ _ _ (randname_ok e)).
    set (name := shm_name (randname_chars 6 (hd 0 (clock e)))).
    set (e0 := set_clock (tail (clock e)) e).
    assert (Hclock : (length (clock e) <= S (length (clock e0)))%nat)
      by (unfold e0; cbn [clock set_clock]; destruct (clock e); simpl; lia).
    destruct (shm_open_cases name e0)
      as [(Hin & Hrun)|[(Hout & Herr & Hrun)|(Hout & Herr & Hrun)]];
      rewrite (bind_ok _ _ _ _ _ Hrun).
    + cbn [Z.leb Z.compare]. unfold bind at 1, get at 1.
      cbn [errno set_errno]. rewrite Z.eqb_refl, andb_true_r.
      destruct (0 <? Z.of_nat retries).
      * destruct (IH (set_errno EEXIST e0))
          as (fd & e' & Hl & Hn & Hm & Hp & Hb & Hf & Hr & Hc & Hres).
        exists fd, e'. split; [exact Hl|].
        cbn [clock set_errno] in Hc.
        repeat (split; [assumption || lia|]). exact Hres.
      * eexists _, _. split; [reflexivity|].
        cbn [clock set_errno]. repeat (split; [reflexivity || lia|]).
        left. repeat split; reflexivity.
    + cbn [Z.leb Z.compare]. unfold bind at 1, get at 1.
      cbn [errno set_errno].
      destruct ((0 <? Z.of_nat retries)
                && (hd 0 (shm_open_errno e0) =? EEXIST)).
      * destruct (IH (set_errno (hd 0 (shm_open_errno e0))
                        (set_shm_open_errno (tail (shm_open_errno e0)) e0)))
          as (fd & e' & Hl & Hn & Hm & Hp & Hb & Hf & Hr & Hc & Hres).
        exists fd, e'. split; [exact Hl|].
        cbn [clock set_errno set_shm_open_errno] in Hc.
        repeat (split; [assumption || lia|]). exact Hres.
      * eexists _, _. split; [reflexivity|].
        cbn [clock set_errno set_shm_open_errno].
        repeat (split; [reflexivity || lia|]).
        left. repeat split; reflexivity.
    + assert (Hfd : (0 <=? Z.of_nat (next_fd e0)) = true)
        by (apply Z.leb_le; lia).
      rewrite Hfd. unfold bind, shm_unlink, modify, ret.
      eexists _, _. split; [reflexivity|].
      cbn [shm_names mappings pools buffers ftruncate_errno mmap_refused
           clock open_fds objects next_fd next_object
           set_shm_names set_next_fd set_next_object set_open_fds
           set_objects set_shm_open_errno].
      split; [apply unlink_created; exact Hout|].
      repeat (split; [reflexivity || lia|]).
      right. repeat split; reflexivity.
Qed.

(** X15.  [create_shm_file] returns on every path and leaves the
    namespace as it found it: it never replaces an object that exists,
    and the object it makes has lost its name before the function
    returns.  It returns -1 with nothing opened, or a new descriptor on
    an empty object, and it reads the clock at most a hundred times. *)
Theorem create_shm_file_keeps_the_namespace (e : shm_env) :
  exists fd e',
    create_shm_file e = Ok fd e'
    /\ shm_names e' = shm_names e
    /\ (length (clock e) <= length (clock e') + 100)%nat
    /\ ((fd = (-1) /\ open_fds e' = open_fds e /\ objects e' = objects e)
        \/ (0 <= fd /\ fd = Z.of_nat (next_fd e)
            /\ open_fds e' = <[fd := next_object e]> (open_fds e)
            /\ objects e' = <[next_object e := []]> (objects e))).
Proof.
  destruct (create_shm_loop_result 100 e)
    as (fd & e' & Hl & Hn & _ & _ & _ & _ & _ & Hc & Hres).
  exists fd, e'. split; [exact Hl|]. split; [exact Hn|].
  split; [exact Hc|].
  destruct Hres as [(-> & Ho & Hob & _)|(-> & Ho & Hob & _)];
    [left|right]; repeat split; auto with lia.
Qed.

Lemma create_shm_loop_collisions (retries : nat) :
  forall e,
    (0 < retries <= length (clock e))%nat ->
    Forall (fun t => shm_name (randname_chars 6 t) ∈ shm_names e)
      (take retries (clock e)) ->
    create_shm_loop retries e
    = Ok (-1) (set_errno EEXIST (set_clock (drop retries (clock e)) e)).
Proof.
  induction retries as [|retries IH]; intros e Hlen Hall; [lia|].
  cbn [create_shm_loop].
  rewrite (bind_ok _ _ _ _ _ (randname_ok e)).
  destruct (clock e) as [|t rest] eqn:Hclock; [simpl in Hlen; lia|].
  cbn [hd tail take drop] in *.
  apply Forall_cons in Hall as [Ht Hall].
  set (e0 := set_clock rest e).
  destruct (shm_open_cases (shm_name (randname_chars 6 t)) e0)
    as [(_ & Hrun)|[(Hout & _)|(Hout & _)]];
    [|exfalso; exact (Hout Ht)|exfalso; exact (Hout Ht)].
  rewrite (bind_ok _ _ _ _ _ Hrun).
  cbn [Z.leb Z.compare]. unfold bind at 1, get at 1.
  cbn [errno set_errno]. rewrite Z.eqb_refl, andb_true_r.
  destruct retries as [|retries].
  - reflexivity.
  - replace (0 <? Z.of_nat (S retries)) with true
      by (symmetry; apply Z.ltb_lt; lia).
    rewrite (IH (set_errno EEXIST e0));
      [reflexivity
      | unfold e0; cbn [clock set_errno set_clock]; simpl in Hlen; lia
      | exact Hall].
Qed.

(** X16.  The names come from the clock alone: when the names of the
    next hundred clock readings are all taken, [create_shm_file] makes
    exactly a hundred attempts and returns -1 with [EEXIST], having
    opened nothing. *)
Theorem create_shm_file_gives_up (e : shm_env) :
  (100 <= length (clock e))%nat ->
  Forall (fun t => shm_name (randname_chars 6 t) ∈ shm_names e)
    (take 100 (clock e)) ->
  create_shm_file e
  = Ok (-1) (set_errno EEXIST (set_clock (drop 100 (clock e)) e)).
Proof.
  intros Hlen Hall. apply create_shm_loop_collisions; [lia | exact Hall].
Qed.

Lemma create_shm_file_gives_up_witness :
  (100 <= length (clock (set_shm_names {[ "/wl_shm-FAAAAA"%string ]}
                           (set_clock (replicate 120 5%Z) shm_env_empty))))%nat
  /\ Forall (fun t => shm_name (randname_chars 6 t)
                      ∈ ({[ "/wl_shm-FAAAAA"%string ]} : gset string))
       (take 100 (replicate 120 5%Z))
  /\ create_shm_file
       (set_shm_names {[ "/wl_shm-FAAAAA"%string ]}
          (set_clock (replicate 120 5%Z) shm_env_empty))
     = Ok (-1)
         (set_errno EEXIST
            (set_clock (replicate 20 5%Z)
               (set_shm_names {[ "/wl_shm-FAAAAA"%string ]}
                  shm_env_empty))).
Proof.
  assert (Hlen : (100 <= length (clock (set_shm_names
                                          {[ "/wl_shm-FAAAAA"%string ]}
                                          (set_clock (replicate 120 5%Z)
                                             shm_env_empty))))%nat)
    by (vm_compute; lia).
  assert (Hall : Forall (fun t => shm_name (randname_chars 6 t)
                                  ∈ ({[ "/wl_shm-FAAAAA"%string ]}
                                       : gset string))
                   (take 100 (replicate 120 5%Z))).
  { apply Forall_take, Forall_replicate, elem_of_singleton. reflexivity. }
  split; [exact Hlen|]. split; [exact Hall|].
  exact (create_shm_file_gives_up _ Hlen Hall).
Defined.

(** X17.  Any failure of [shm_open] other than [EEXIST] ends
    [create_shm_file] at once, however many attempts are left: it
    returns -1 after a single clock reading and keeps the error number
    of that failure. *)
Theorem create_shm_file_stops_on_other_errors (e : shm_env) (err : Z) :
  shm_name (randname_chars 6 (hd 0 (clock e))) ∉ shm_names e ->
  hd 0 (shm_open_errno e) = err -> err <> 0 -> err <> EEXIST ->
  create_shm_file e
  = Ok (-1)
      (set_errno err
         (set_shm_open_errno (tail (shm_open_errno e))
            (set_clock (tail (clock e)) e))).
Proof.
  intros Hfree Herr Hnz Hne. unfold create_shm_file.
  cbn [create_shm_loop].
  rewrite (bind_ok _ _ _ _ _ (randname_ok e)).
  destruct (shm_open_cases (shm_name (randname_chars 6 (hd 0 (clock e))))
              (set_clock (tail (clock e)) e))
    as [(Hin & _)|[(_ & _ & Hrun)|(_ & Hz & _)]].
  - exfalso. exact (Hfree Hin).
  - rewrite (bind_ok _ _ _ _ _ Hrun).
    cbn [Z.leb Z.compare]. unfold bind at 1, get at 1.
    cbn [errno set_errno shm_open_errno set_clock]. rewrite Herr.
    replace (err =? EEXIST) with false
      by (symmetry; apply Z.eqb_neq; exact Hne).
    rewrite andb_false_r. reflexivity.
  - cbn [shm_open_errno set_clock] in Hz. congruence.
Qed.

Lemma create_shm_file_stops_on_other_errors_witness :
  (shm_name (randname_chars 6
               (hd 0 (clock (set_shm_open_errno [24] shm_env_empty))))
   ∉ shm_names (set_shm_open_errno [24] shm_env_empty))
  /\ hd 0 (shm_open_errno (set_shm_open_errno [24] shm_env_empty)) = 24
  /\ 24 <> 0 /\ 24 <> EEXIST
  /\ create_shm_file (set_shm_open_errno [24] shm_env_empty)
     = Ok (-1) (set_errno 24 shm_env_empty).
Proof.
  assert (Hfree : shm_name (randname_chars 6
                              (hd 0 (clock (set_shm_open_errno [24]
                                              shm_env_empty))))
                  ∉ shm_names (set_shm_open_errno [24] shm_env_empty))
    by (simpl; apply not_elem_of_empty).
  assert (Hne : 24 <> EEXIST) by (unfold EEXIST; lia).
  split; [exact Hfree|]. split; [reflexivity|]. split; [lia|].
  split; [exact Hne|].
  exact (create_shm_file_stops_on_other_errors _ 24 Hfree eq_refl
           ltac:(lia) Hne).
Defined.

(** ** Sizing the file *)

Lemma ftruncate_cases (fd size : Z) (o : nat) (e : shm_env) :
  open_fds e !! fd = Some o ->
  (hd 0 (ftruncate_errno e) = 0
   /\ ftruncate fd size e
      = Ok 0 (set_objects
                (<[o := resize (Z.to_nat (size / 4)) 0
                          (default [] (objects e !! o))]> (objects e))
                (set_ftruncate_errno (tail (ftruncate_errno e)) e)))
  \/ (hd 0 (ftruncate_errno e) <> 0
      /\ ftruncate fd size e
         = Ok (-1) (set_errno (hd 0 (ftruncate_errno e))
                      (set_ftruncate_errno (tail (ftruncate_errno e)) e))).
Proof.
  intros Hfd. unfold ftruncate. rewrite Hfd.
  destruct (Z.eqb_spec (hd 0 (ftruncate_errno e)) 0) as [E|E]; auto.
Qed.

(** The loop around [ftruncate]: [k] interrupted calls, then the call
    that decides. *)
Lemma ftruncate_loop_run (fd size : Z) (o : nat) (k : nat) :
  forall (e : shm_env) (rest : list Z) (rounds : nat),
    open_fds e !! fd = Some o ->
    ftruncate_errno e = replicate k EINTR ++ rest ->
    hd 0 rest <> EINTR ->
    (k + length rest <= rounds)%nat ->
    ftruncate_loop rounds fd size e
    = if hd 0 rest =? 0
      then Ok 0 (set_objects
                   (<[o := resize (Z.to_nat (size / 4)) 0
                             (default [] (objects e !! o))]> (objects e))
                   (set_errno (match k with O => errno e | S _ => EINTR end)
                      (set_ftruncate_errno (tail rest) e)))
      else Ok (-1) (set_errno (hd 0 rest)
                      (set_ftruncate_errno (tail rest) e)).
Proof.
  induction k as [|k IH]; intros e rest rounds Hfd Hor Hne Hlen.
  - cbn [replicate app] in Hor.
    destruct (ftruncate_cases fd size o e Hfd) as [(Hz & Hrun)|(Hnz & Hrun)];
      rewrite Hor in Hz || rewrite Hor in Hnz; rewrite Hor in Hrun.
    + rewrite Hz. cbn [Z.eqb].
      destruct rounds as [|rounds]; cbn [ftruncate_loop].
      * exact Hrun.
      * rewrite (bind_ok _ _ _ _ _ Hrun). reflexivity.
    + replace (hd 0 rest =? 0) with false
        by (symmetry; apply Z.eqb_neq; exact Hnz).
      destruct rounds as [|rounds]; cbn [ftruncate_loop].
      * exact Hrun.
      * rewrite (bind_ok _ _ _ _ _ Hrun). unfold bind, get.
        cbn [errno set_errno Z.ltb Z.compare andb].
        replace (hd 0 rest =? EINTR) with false
          by (symmetry; apply Z.eqb_neq; exact Hne).
        reflexivity.
  - cbn [replicate app] in Hor.
    destruct rounds as [|rounds]; [simpl in Hlen; lia|].
    cbn [ftruncate_loop].
    destruct (ftruncate_cases fd size o e Hfd) as [(Hz & _)|(_ & Hrun)];
      [rewrite Hor in Hz; discriminate|].
    rewrite Hor in Hrun. cbn [hd tail] in Hrun.
    rewrite (bind_ok _ _ _ _ _ Hrun). unfold bind at 1, get at 1.
    cbn [errno set_errno Z.ltb Z.compare andb]. rewrite Z.eqb_refl.
    rewrite (IH (set_errno EINTR
                   (set_ftruncate_errno (replicate k EINTR ++ rest) e))
               rest rounds Hfd eq_refl Hne ltac:(simpl in Hlen; lia)).
    destruct (hd 0 rest =? 0); [|reflexivity].
    destruct k; reflexivity.
Qed.

Lemma split_interrupts (l : list Z) :
  exists k rest, l = replicate k EINTR ++ rest /\ hd 0 rest <> EINTR.
Proof.
  induction l as [|x l (k & rest & -> & Hne)].
  - exists 0%nat, []. split; [reflexivity | discriminate].
  - destruct (Z.eq_dec x EINTR) as [->|Hx].
    + exists (S k), rest. split; [reflexivity | exact Hne].
    + exists 0%nat, (x :: replicate k EINTR ++ rest).
      split; [reflexivity | exact Hx].
Qed.

Lemma fresh_fd (e : shm_env) :
  env_ok e -> open_fds e !! Z.of_nat (next_fd e) = None.
Proof.
  intros (Hfd & _). destruct (open_fds e !! Z.of_nat (next_fd e)) eqn:E;
    [|reflexivity].
  assert (H : is_Some (open_fds e !! Z.of_nat (next_fd e))) by eauto.
  apply Hfd in H. lia.
Qed.

(** [allocate_shm_file] when the file can be created, in terms of the
    calls of [ftruncate]. *)
Lemma allocate_shm_file_run (e : shm_env) (size : Z) :
  env_ok e ->
  exists fd e',
    allocate_shm_file size e = Ok fd e'
    /\ shm_names e' = shm_names e
    /\ mappings e' = mappings e /\ pools e' = pools e
    /\ buffers e' = buffers e /\ mmap_refused e' = mmap_refused e
    /\ ((fd = (-1) /\ open_fds e' = open_fds e
         /\ (next_object e <= next_object e')%nat
         /\ (next_fd e <= next_fd e')%nat)
        \/ (fd = Z.of_nat (next_fd e)
            /\ open_fds e' = <[fd := next_object e]> (open_fds e)
            /\ objects e'
               = <[next_object e := replicate (Z.to_nat (size / 4)) 0]>
                   (objects e)
            /\ next_fd e' = S (next_fd e)
            /\ next_object e' = S (next_object e)
            /\ exists k rest,
                 ftruncate_errno e = replicate k EINTR ++ rest
                 /\ hd 0 rest = 0
                 /\ ftruncate_errno e' = tail rest)).
Proof.
  intros Hok. unfold allocate_shm_file, create_shm_file.
  destruct (create_shm_loop_result 100 e)
    as (fd & e1 & Hl & Hn & Hm & Hp & Hb & Hf & Hr & _ & Hres).
  rewrite (bind_ok _ _ _ _ _ Hl).
  destruct Hres as [(-> & Ho & Hob & Hnf & Hno)
                   |(-> & Ho & Hob & Hnf & Hno)].
  - cbn [Z.ltb Z.compare]. exists (-1), e1. split; [reflexivity|].
    repeat (split; [assumption|]). left. repeat split; auto with lia.
  - replace (Z.of_nat (next_fd e) <? 0) with false
      by (symmetry; apply Z.ltb_ge; lia).
    unfold bind at 1, get at 1.
    assert (Hfd : open_fds e1 !! Z.of_nat (next_fd e) = Some (next_object e))
      by (rewrite Ho; apply lookup_insert_eq).
    destruct (split_interrupts (ftruncate_errno e1)) as (k & rest & Hor & Hne).
    pose proof (ftruncate_loop_run _ size _ k e1 rest
                  (length (ftruncate_errno e1)) Hfd Hor Hne
                  ltac:(rewrite Hor, length_app, length_replicate; lia))
      as Hloop.
    destruct (Z.eqb_spec (hd 0 rest) 0) as [Hz|Hnz];
      rewrite (bind_ok _ _ _ _ _ Hloop).
    + cbn [Z.ltb Z.compare ret].
      eexists _, _. split; [reflexivity|].
      cbn [shm_names mappings pools buffers mmap_refused open_fds objects
           next_fd next_object ftruncate_errno set_objects set_errno
           set_ftruncate_errno].
      repeat (split; [assumption|]). right.
      split; [reflexivity|]. split; [exact Ho|].
      split.
      { rewrite Hob, lookup_insert_eq.
        change (default [] (Some (@nil Z))) with (@nil Z).
        rewrite resize_nil, insert_insert_eq. reflexivity. }
      split; [exact Hnf|]. split; [exact Hno|].
      exists k, rest. rewrite <- Hf. auto.
    + cbn [Z.ltb Z.compare].
      unfold bind, close, modify, ret.
      eexists _, _. split; [reflexivity|].
      cbn [shm_names mappings pools buffers mmap_refused open_fds objects
           next_fd next_object ftruncate_errno set_open_fds set_errno
           set_ftruncate_errno].
      repeat (split; [assumption|]). left.
      split; [reflexivity|].
      split; [rewrite Ho; apply delete_insert_id, fresh_fd; exact Hok|].
      lia.
Qed.

(** X18.  [allocate_shm_file] never leaks: on every path it returns,
    the namespace is as before, and either it returns -1 with exactly the
    descriptors that were open before (the one it had made is closed
    again), or it returns a new descriptor on an object of [size / 4]
    zero words. *)
Theorem allocate_shm_file_never_leaks (e : shm_env) (size : Z) :
  env_ok e ->
  exists fd e',
    allocate_shm_file size e = Ok fd e'
    /\ shm_names e' = shm_names e
    /\ ((fd = (-1) /\ open_fds e' = open_fds e)
        \/ (0 <= fd /\ open_fds e !! fd = None
            /\ exists o,
                 open_fds e' = <[fd := o]> (open_fds e)
                 /\ objects e' !! o
                    = Some (replicate (Z.to_nat (size / 4)) 0))).
Proof.
  intros Hok.
  destruct (allocate_shm_file_run e size Hok)
    as (fd & e' & Hrun & Hn & _ & _ & _ & _ & Hres).
  exists fd, e'. split; [exact Hrun|]. split; [exact Hn|].
  destruct Hres as [(-> & Ho & _)|(-> & Ho & Hob & _)]; [left; auto|right].
  split; [lia|]. split; [apply fresh_fd; exact Hok|].
  exists (next_object e). split; [exact Ho|].
  rewrite Hob. apply lookup_insert_eq.
Qed.

Lemma env_ok_empty : env_ok shm_env_empty.
Proof.
  repeat split; intros id [x Hx]; simpl in Hx; rewrite lookup_empty in Hx;
    discriminate.
Defined.

Lemma allocate_shm_file_never_leaks_witness :
  env_ok shm_env_empty
  /\ exists fd e',
       allocate_shm_file 64 shm_env_empty = Ok fd e'
       /\ shm_names e' = shm_names shm_env_empty
       /\ ((fd = (-1) /\ open_fds e' = open_fds shm_env_empty)
           \/ (0 <= fd /\ open_fds shm_env_empty !! fd = None
               /\ exists o,
                    open_fds e' = <[fd := o]> (open_fds shm_env_empty)
                    /\ objects e' !! o
                       = Some (replicate (Z.to_nat (64 / 4)) 0))).
Proof.
  split; [exact env_ok_empty|].
  exact (allocate_shm_file_never_leaks shm_env_empty 64 env_ok_empty).
Defined.

Lemma create_shm_file_first_try (e : shm_env) :
  shm_name (randname_chars 6 (hd 0 (clock e))) ∉ shm_names e ->
  hd 0 (shm_open_errno e) = 0 ->
  create_shm_file e
  = Ok (Z.of_nat (next_fd e))
      (set_shm_names
         (({[shm_name (randname_chars 6 (hd 0 (clock e)))]} ∪ shm_names e)
          ∖ {[shm_name (randname_chars 6 (hd 0 (clock e)))]})
         (set_next_fd (S (next_fd e))
            (set_next_object (S (next_object e))
               (set_open_fds
                  (<[Z.of_nat (next_fd e) := next_object e]> (open_fds e))
                  (set_objects (<[next_object e := []]> (objects e))
                     (set_shm_names
                        ({[shm_name (randname_chars 6 (hd 0 (clock e)))]}
                         ∪ shm_names e)
                        (set_shm_open_errno (tail (shm_open_errno e))
                           (set_clock (tail (clock e)) e)))))))).
Proof.
  intros Hfree Hopen. unfold create_shm_file. cbn [create_shm_loop].
  rewrite (bind_ok _ _ _ _ _ (randname_ok e)).
  destruct (shm_open_cases (shm_name (randname_chars 6 (hd 0 (clock e))))
              (set_clock (tail (clock e)) e))
    as [(Hin & _)|[(_ & Hnz & _)|(_ & _ & Hrun)]];
    [exfalso; exact (Hfree Hin)
    |exfalso; apply Hnz; exact Hopen|].
  rewrite (bind_ok _ _ _ _ _ Hrun). cbn [next_fd set_clock].
  replace (0 <=? Z.of_nat (next_fd e)) with true
    by (symmetry; apply Z.leb_le; lia).
  reflexivity.
Qed.

Lemma allocate_shm_file_decided (e : shm_env) (size : Z)
    (k : nat) (rest : list Z) :
  env_ok e ->
  shm_name (randname_chars 6 (hd 0 (clock e))) ∉ shm_names e ->
  hd 0 (shm_open_errno e) = 0 ->
  ftruncate_errno e = replicate k EINTR ++ rest ->
  hd 0 rest <> EINTR ->
  exists fd e',
    allocate_shm_file size e = Ok fd e'
    /\ ftruncate_errno e' = tail rest
    /\ if hd 0 rest =? 0
       then fd = Z.of_nat (next_fd e)
            /\ open_fds e' = <[fd := next_object e]> (open_fds e)
            /\ objects e' !! next_object e
               = Some (replicate (Z.to_nat (size / 4)) 0)
       else fd = (-1) /\ open_fds e' = open_fds e
            /\ errno e' = hd 0 rest.
Proof.
  intros Hok Hfree Hopen Hor Hne.
  unfold allocate_shm_file.
  rewrite (bind_ok _ _ _ _ _ (create_shm_file_first_try e Hfree Hopen)).
  replace (Z.of_nat (next_fd e) <? 0) with false
    by (symmetry; apply Z.ltb_ge; lia).
  unfold bind at 1, get at 1.
  match goal with
  | |- exists fd e', bind (ftruncate_loop _ _ _) _ ?E = _ /\ _ =>
      set (e1 := E)
  end.
  assert (Hfd : open_fds e1 !! Z.of_nat (next_fd e) = Some (next_object e))
    by (unfold e1;
        cbn [open_fds set_shm_names set_next_fd set_next_object set_open_fds
             set_objects set_shm_open_errno set_clock];
        apply lookup_insert_eq).
  assert (Hor1 : ftruncate_errno e1 = replicate k EINTR ++ rest)
    by exact Hor.
  pose proof (ftruncate_loop_run _ size _ k e1 rest
                (length (ftruncate_errno e1)) Hfd Hor1 Hne
                ltac:(rewrite Hor1, length_app, length_replicate; lia))
    as Hloop.
  destruct (Z.eqb_spec (hd 0 rest) 0) as [Hz|Hnz];
    rewrite (bind_ok _ _ _ _ _ Hloop).
  - cbn [Z.ltb Z.compare ret].
    eexists _, _. split; [reflexivity|]. split; [reflexivity|].
    split; [reflexivity|]. split; [reflexivity|].
    cbn [objects set_objects set_errno set_ftruncate_errno].
    rewrite lookup_insert_eq. f_equal. unfold e1.
    cbn [objects set_shm_names set_next_fd set_next_object set_open_fds
         set_objects set_shm_open_errno set_clock].
    rewrite lookup_insert_eq.
    change (default [] (Some (@nil Z))) with (@nil Z). apply resize_nil.
  - cbn [Z.ltb Z.compare]. unfold bind, close, modify, ret.
    eexists _, _. split; [reflexivity|]. split; [reflexivity|].
    split; [reflexivity|]. split; [|reflexivity].
    cbn [open_fds set_open_fds set_errno set_ftruncate_errno].
    unfold e1.
    cbn [open_fds set_shm_names set_next_fd set_next_object set_open_fds
         set_objects set_shm_open_errno set_clock].
    apply delete_insert_id, fresh_fd. exact Hok.
Qed.

(** X19.  An interrupted [ftruncate] is called again, any number of
    times; the first call that is not interrupted decides.  If it
    succeeds the new descriptor is returned, if it fails the descriptor
    is closed and -1 is returned; [ftruncate] has been called once more
    than it was interrupted. *)
Theorem allocate_shm_file_retries_interrupts (e : shm_env) (size : Z)
    (k : nat) (rest : list Z) :
  env_ok e ->
  shm_name (randname_chars 6 (hd 0 (clock e))) ∉ shm_names e ->
  hd 0 (shm_open_errno e) = 0 ->
  ftruncate_errno e = replicate k EINTR ++ rest ->
  hd 0 rest <> EINTR ->
  exists fd e',
    allocate_shm_file size e = Ok fd e'
    /\ ftruncate_errno e' = tail rest
    /\ if hd 0 rest =? 0
       then fd = Z.of_nat (next_fd e)
            /\ open_fds e' = <[fd := next_object e]> (open_fds e)
            /\ objects e' !! next_object e
               = Some (replicate (Z.to_nat (size / 4)) 0)
       else fd = (-1) /\ open_fds e' = open_fds e
            /\ errno e' = hd 0 rest.
Proof. apply allocate_shm_file_decided. Qed.

Lemma allocate_shm_file_retries_interrupts_witness :
  env_ok (set_ftruncate_errno [EINTR; EINTR; 28] shm_env_empty)
  /\ (shm_name (randname_chars 6
                  (hd 0 (clock (set_ftruncate_errno [EINTR; EINTR; 28]
                                  shm_env_empty))))
      ∉ shm_names (set_ftruncate_errno [EINTR; EINTR; 28] shm_env_empty))
  /\ hd 0 (shm_open_errno (set_ftruncate_errno [EINTR; EINTR; 28]
                             shm_env_empty)) = 0
  /\ ftruncate_errno (set_ftruncate_errno [EINTR; EINTR; 28] shm_env_empty)
     = replicate 2 EINTR ++ [28]
  /\ hd 0 [28] <> EINTR
  /\ exists e',
       allocate_shm_file 64
         (set_ftruncate_errno [EINTR; EINTR; 28] shm_env_empty)
       = Ok (-1) e'
       /\ ftruncate_errno e' = []
       /\ open_fds e' = ∅ /\ errno e' = 28.
Proof.
  assert (Hok : env_ok (set_ftruncate_errno [EINTR; EINTR; 28]
                          shm_env_empty)) by exact env_ok_empty.
  assert (Hfree : shm_name
                    (randname_chars 6
                       (hd 0 (clock (set_ftruncate_errno [EINTR; EINTR; 28]
                                       shm_env_empty))))
                  ∉ shm_names (set_ftruncate_errno [EINTR; EINTR; 28]
                                 shm_env_empty))
    by (simpl; apply not_elem_of_empty).
  assert (Hne : hd 0 [28] <> EINTR) by (unfold EINTR; simpl; lia).
  split; [exact Hok|]. split; [exact Hfree|]. split; [reflexivity|].
  split; [reflexivity|]. split; [exact Hne|].
  destruct (allocate_shm_file_retries_interrupts
              (set_ftruncate_errno [EINTR; EINTR; 28] shm_env_empty) 64 2 [28]
              Hok Hfree eq_refl eq_refl Hne)
    as (fd & e' & Hrun & Hor & Hres).
  cbn [hd Z.eqb] in Hres. destruct Hres as (-> & Ho & He).
  exists e'. repeat split; assumption.
Defined.

(** ** The checkerboard *)

Lemma store_ok (data : nat) (i v : Z) (e : shm_env) (ws : list Z) :
  objects e !! data = Some ws -> data ∈ mappings e ->
  0 <= i < Z.of_nat (length ws) ->
  store data i v e
  = Ok tt (set_objects (<[data := <[Z.to_nat i := v]> ws]> (objects e)) e).
Proof.
  intros Ho Hm Hi. unfold store. rewrite Ho.
  rewrite bool_decide_true by exact Hm.
  replace (0 <=? i) with true by (symmetry; apply Z.leb_le; lia).
  replace (i <? Z.of_nat (length ws)) with true
    by (symmetry; apply Z.ltb_lt; lia).
  reflexivity.
Qed.

Lemma set_objects_same (data : nat) (ws : list Z) (e : shm_env) :
  objects e !! data = Some ws ->
  set_objects (<[data := ws]> (objects e)) e = e.
Proof.
  intros Ho. rewrite insert_id by exact Ho. destruct e. reflexivity.
Qed.

(** One row: [n] pixels from column [x0] on. *)
Lemma paint_row (data : nat) (width y : Z) (n : nat) :
  forall (x0 : Z) (e : shm_env) (ws : list Z),
    objects e !! data = Some ws -> data ∈ mappings e ->
    0 <= x0 -> 0 <= y * width ->
    y * width + x0 + Z.of_nat n <= Z.of_nat (length ws) ->
    exists ws',
      for_from n x0
        (fun x =>
           if (x + y / 8 * 8) mod 16 <? 8
           then store data (y * width + x) 0xFF666666
           else store data (y * width + x) 0xFFEEEEEE) e
      = Ok tt (set_objects (<[data := ws']> (objects e)) e)
      /\ length ws' = length ws
      /\ forall i : nat,
           ws' !! i
           = if bool_decide (y * width + x0 <= Z.of_nat i
                             < y * width + x0 + Z.of_nat n)
             then Some (pixel (Z.of_nat i - y * width) y)
             else ws !! i.
Proof.
  induction n as [|n IH]; intros x0 e ws Ho Hm Hx Hy Hlen.
  - exists ws. cbn [for_from]. unfold ret.
    rewrite (set_objects_same data ws e Ho).
    split; [reflexivity|]. split; [reflexivity|].
    intros i. rewrite bool_decide_false by lia. reflexivity.
  - cbn [for_from].
    assert (Hbody :
      (if (x0 + y / 8 * 8) mod 16 <? 8
       then store data (y * width + x0) 0xFF666666
       else store data (y * width + x0) 0xFFEEEEEE) e
      = Ok tt (set_objects
                 (<[data := <[Z.to_nat (y * width + x0) := pixel x0 y]> ws]>
                    (objects e)) e)).
    { unfold pixel. destruct ((x0 + y / 8 * 8) mod 16 <? 8);
        apply store_ok; try assumption; lia. }
    rewrite (bind_ok _ _ _ _ _ Hbody).
    set (ws1 := <[Z.to_nat (y * width + x0) := pixel x0 y]> ws).
    set (e1 := set_objects (<[data := ws1]> (objects e)) e).
    assert (Hlen1 : length ws1 = length ws)
      by (unfold ws1; apply length_insert).
    destruct (IH (x0 + 1) e1 ws1) as (ws' & Hrun & Hl & Hpix).
    + unfold e1. cbn [objects set_objects]. apply lookup_insert_eq.
    + exact Hm.
    + lia.
    + exact Hy.
    + rewrite Hlen1. lia.
    + exists ws'. split; [|split].
      * rewrite Hrun. unfold e1. cbn [objects set_objects].
        rewrite insert_insert_eq. reflexivity.
      * rewrite Hl. exact Hlen1.
      * intros i. rewrite Hpix. unfold ws1.
        destruct (decide (Z.of_nat i = y * width + x0)) as [Hi|Hi].
        -- rewrite bool_decide_false by lia.
           rewrite bool_decide_true by lia.
           replace (Z.to_nat (y * width + x0)) with i by lia.
           rewrite list_lookup_insert_eq by lia.
           do 2 f_equal. lia.
        -- rewrite list_lookup_insert_ne by lia.
           destruct (bool_decide (y * width + (x0 + 1) <= Z.of_nat i
                                  < y * width + (x0 + 1) + Z.of_nat n))
             eqn:Hb.
           ++ apply bool_decide_eq_true in Hb.
              rewrite bool_decide_true by lia. reflexivity.
           ++ apply bool_decide_eq_false in Hb.
              rewrite bool_decide_false by lia. reflexivity.
Qed.

(** [n] rows from row [y0] on. *)
Lemma paint_rows (data : nat) (width : Z) (n : nat) :
  forall (y0 : Z) (e : shm_env) (ws : list Z),
    objects e !! data = Some ws -> data ∈ mappings e ->
    0 <= y0 -> 0 <= width ->
    (y0 + Z.of_nat n) * width <= Z.of_nat (length ws) ->
    exists ws',
      for_from n y0
        (fun y =>
           for_upto width
             (fun x =>
                if (x + y / 8 * 8) mod 16 <? 8
                then store data (y * width + x) 0xFF666666
                else store data (y * width + x) 0xFFEEEEEE)) e
      = Ok tt (set_objects (<[data := ws']> (objects e)) e)
      /\ length ws' = length ws
      /\ forall i : nat,
           ws' !! i
           = if bool_decide (y0 * width <= Z.of_nat i
                             < (y0 + Z.of_nat n) * width)
             then Some (pixel (Z.of_nat i mod width) (Z.of_nat i / width))
             else ws !! i.
Proof.
  induction n as [|n IH]; intros y0 e ws Ho Hm Hy Hw Hlen.
  - exists ws. cbn [for_from]. unfold ret.
    rewrite (set_objects_same data ws e Ho).
    split; [reflexivity|]. split; [reflexivity|].
    intros i. rewrite bool_decide_false by lia. reflexivity.
  - cbn [for_from]. unfold for_upto at 1.
    destruct (paint_row data width y0 (Z.to_nat width) 0 e ws Ho Hm)
      as (ws1 & Hrow & Hl1 & Hpix1); [lia | nia | nia |].
    rewrite (bind_ok _ _ _ _ _ Hrow).
    set (e1 := set_objects (<[data := ws1]> (objects e)) e).
    destruct (IH (y0 + 1) e1 ws1) as (ws' & Hrun & Hl & Hpix).
    + unfold e1. cbn [objects set_objects]. apply lookup_insert_eq.
    + exact Hm.
    + lia.
    + exact Hw.
    + rewrite Hl1. nia.
    + exists ws'. split; [|split].
      * rewrite Hrun. unfold e1. cbn [objects set_objects].
        rewrite insert_insert_eq. reflexivity.
      * rewrite Hl. exact Hl1.
      * intros i. rewrite Hpix, Hpix1.
        destruct (bool_decide ((y0 + 1) * width <= Z.of_nat i
                               < (y0 + 1 + Z.of_nat n) * width)) eqn:Hb.
        -- apply bool_decide_eq_true in Hb.
           rewrite bool_decide_true by nia. reflexivity.
        -- apply bool_decide_eq_false in Hb.
           destruct (bool_decide (y0 * width + 0 <= Z.of_nat i
                                  < y0 * width + 0
                                    + Z.of_nat (Z.to_nat width))) eqn:Hb1.
           ++ apply bool_decide_eq_true in Hb1.
              rewrite bool_decide_true by nia.
              assert (Hq : Z.of_nat i / width = y0)
                by (symmetry;
                    apply (Z.div_unique_pos _ _ _ (Z.of_nat i - y0 * width));
                    lia).
              assert (Hr : Z.of_nat i mod width = Z.of_nat i - y0 * width)
                by (symmetry;
                    apply (Z.mod_unique_pos _ _ y0); lia).
              rewrite Hq, Hr. reflexivity.
           ++ apply bool_decide_eq_false in Hb1.
              rewrite bool_decide_false by nia. reflexivity.
Qed.

Lemma checkerboard_run (data : nat) (width height : Z)
    (e : shm_env) (ws : list Z) :
  objects e !! data = Some ws -> data ∈ mappings e ->
  0 <= width -> 0 <= height ->
  Z.of_nat (length ws) = width * height ->
  exists ws',
    checkerboard data width height e
    = Ok tt (set_objects (<[data := ws']> (objects e)) e)
    /\ length ws' = length ws
    /\ forall x y,
         0 <= x < width -> 0 <= y < height ->
         ws' !! Z.to_nat (y * width + x) = Some (pixel x y).
Proof.
  intros Ho Hm Hw Hh Hlen. unfold checkerboard, for_upto at 1.
  destruct (paint_rows data width (Z.to_nat height) 0 e ws Ho Hm)
    as (ws' & Hrun & Hl & Hpix); [lia | lia | nia |].
  exists ws'. split; [exact Hrun|]. split; [exact Hl|].
  intros x y Hx Hy. rewrite Hpix.
  rewrite bool_decide_true by nia.
  rewrite Z2Nat.id by nia.
  assert (Hq : (y * width + x) / width = y)
    by (symmetry; apply (Z.div_unique_pos _ _ _ x); lia).
  assert (Hr : (y * width + x) mod width = x)
    by (symmetry; apply (Z.mod_unique_pos _ _ y); lia).
  rewrite Hq, Hr. reflexivity.
Qed.

(** X20.  The two loops of [draw_frame] on a mapped object of
    [width * height] words: every store is inside the object, the loops
    return, and then the word at [y * width + x] holds the colour of
    pixel [(x, y)] for every column and row; nothing else in the
    environment changes. *)
Theorem checkerboard_paints_every_pixel (data : nat) (width height : Z)
    (e : shm_env) (ws : list Z) :
  objects e !! data = Some ws -> data ∈ mappings e ->
  0 <= width -> 0 <= height ->
  Z.of_nat (length ws) = width * height ->
  exists ws',
    checkerboard data width height e
    = Ok tt (set_objects (<[data := ws']> (objects e)) e)
    /\ length ws' = length ws
    /\ forall x y,
         0 <= x < width -> 0 <= y < height ->
         ws' !! Z.to_nat (y * width + x) = Some (pixel x y).
Proof. apply checkerboard_run. Qed.

Lemma checkerboard_paints_every_pixel_witness :
  objects (set_mappings [0%nat]
             (set_objects {[ 0%nat := [0; 0; 0; 0] ]} shm_env_empty))
  !! 0%nat = Some [0; 0; 0; 0]
  /\ 0%nat ∈ mappings (set_mappings [0%nat]
                         (set_objects {[ 0%nat := [0; 0; 0; 0] ]}
                            shm_env_empty))
  /\ 0 <= 2 /\ Z.of_nat (length [0; 0; 0; 0]) = 2 * 2
  /\ exists ws',
       checkerboard 0 2 2
         (set_mappings [0%nat]
            (set_objects {[ 0%nat := [0; 0; 0; 0] ]} shm_env_empty))
       = Ok tt
           (set_objects
              (<[0%nat := ws']> {[ 0%nat := [0; 0; 0; 0] ]})
              (set_mappings [0%nat]
                 (set_objects {[ 0%nat := [0; 0; 0; 0] ]} shm_env_empty)))
       /\ length ws' = 4%nat
       /\ forall x y,
            0 <= x < 2 -> 0 <= y < 2 ->
            ws' !! Z.to_nat (y * 2 + x) = Some (pixel x y).
Proof.
  assert (Hm : 0%nat ∈ mappings (set_mappings [0%nat]
                                   (set_objects {[ 0%nat := [0; 0; 0; 0] ]}
                                      shm_env_empty)))
    by (simpl; apply list_elem_of_singleton; reflexivity).
  split; [reflexivity|]. split; [exact Hm|]. split; [lia|].
  split; [reflexivity|].
  exact (checkerboard_paints_every_pixel 0 2 2
           (set_mappings [0%nat]
              (set_objects {[ 0%nat := [0; 0; 0; 0] ]} shm_env_empty))
           [0; 0; 0; 0] eq_refl Hm ltac:(lia) ltac:(lia) eq_refl).
Defined.

Lemma pixel_squares_alternate_aux (x y : Z) :
  0 <= x -> 0 <= y ->
  pixel x y = if Z.even (x / 8 + y / 8) then 0xFF666666 else 0xFFEEEEEE.
Proof.
  intros Hx Hy. unfold pixel.
  pose proof (Z.div_mod x 8 ltac:(lia)) as Hdx.
  pose proof (Z.mod_pos_bound x 8 ltac:(lia)) as Hbx.
  destruct (Z.even (x / 8 + y / 8)) eqn:He.
  - apply Z.even_spec in He. destruct He as [q Hq].
    replace ((x + y / 8 * 8) mod 16) with (x mod 8).
    + replace (x mod 8 <? 8) with true
        by (symmetry; apply Z.ltb_lt; lia).
      reflexivity.
    + apply (Z.mod_unique_pos _ _ q); lia.
  - assert (Ho : Z.odd (x / 8 + y / 8) = true)
      by (rewrite <- Z.negb_even, He; reflexivity).
    apply Z.odd_spec in Ho. destruct Ho as [q Hq].
    replace ((x + y / 8 * 8) mod 16) with (x mod 8 + 8).
    + replace (x mod 8 + 8 <? 8) with false
        by (symmetry; apply Z.ltb_ge; lia).
      reflexivity.
    + apply (Z.mod_unique_pos _ _ q); lia.
Qed.

(** X21.  The pattern is a board of squares of eight by eight pixels:
    a pixel is dark (0xFF666666) when the column of its square and the
    row of its square add up to an even number, and light (0xFFEEEEEE)
    otherwise. *)
Theorem pixel_squares_alternate (x y : Z) :
  0 <= x -> 0 <= y ->
  pixel x y = if Z.even (x / 8 + y / 8) then 0xFF666666 else 0xFFEEEEEE.
Proof. apply pixel_squares_alternate_aux. Qed.

Lemma pixel_squares_alternate_witness :
  0 <= 13 /\ 0 <= 21
  /\ pixel 13 21 = if Z.even (13 / 8 + 21 / 8) then 0xFF666666
                   else 0xFFEEEEEE.
Proof.
  split; [lia|]. split; [lia|].
  apply (pixel_squares_alternate 13 21); lia.
Defined.

(** ** The frame *)

Lemma fresh_pool (e : shm_env) (j : nat) :
  env_ok e -> pools e !! (j + next_object e)%nat = None.
Proof.
  intros (_ & Hp & _). destruct (pools e !! (j + next_object e)%nat) eqn:E;
    [|reflexivity].
  assert (H : is_Some (pools e !! (j + next_object e)%nat)) by eauto.
  apply Hp in H. lia.
Qed.

Lemma fresh_buffer (e : shm_env) (j : nat) :
  env_ok e -> buffers e !! (j + next_object e)%nat = None.
Proof.
  intros (_ & _ & Hb). destruct (buffers e !! (j + next_object e)%nat) eqn:E;
    [|reflexivity].
  assert (H : is_Some (buffers e !! (j + next_object e)%nat)) by eauto.
  apply Hb in H. lia.
Qed.

Lemma shm_mmap_cases (size fd : Z) (o : nat) (e : shm_env) :
  open_fds e !! fd = Some o ->
  (hd false (mmap_refused e) = true
   /\ mmap size fd e
      = Ok None (set_mmap_refused (tail (mmap_refused e)) e))
  \/ (hd false (mmap_refused e) = false
      /\ mmap size fd e
         = Ok (Some o)
             (set_mappings (o :: mappings e)
                (set_mmap_refused (tail (mmap_refused e)) e))).
Proof.
  intros Hfd. unfold mmap. rewrite Hfd.
  destruct (hd false (mmap_refused e)); auto.
Qed.

(** [draw_frame] on every path: it returns, or [state->wl_shm] is null
    and the null pointer reaches [wl_shm_create_pool] with the file open
    and mapped. *)
Lemma draw_frame_run (wl_shm : option nat) (e : shm_env) :
  env_ok e ->
  (exists buffer e',
     draw_frame wl_shm e = Ok buffer e'
     /\ shm_names e' = shm_names e /\ open_fds e' = open_fds e
     /\ mappings e' = mappings e /\ pools e' = pools e
     /\ (buffer = None
         <-> (exists e1, allocate_shm_file (640 * 4 * 480) e = Ok (-1) e1)
             \/ hd false (mmap_refused e) = true)
     /\ (is_Some wl_shm \/ buffer = None)
     /\ match buffer with
        | None => buffers e' = buffers e
        | Some b =>
            buffers e !! b = None
            /\ exists o ws,
                 buffers e'
                 = <[b := {| buf_object := o; buf_offset := 0;
                             buf_width := 640; buf_height := 480;
                             buf_stride := 2560;
                             buf_format := WL_SHM_FORMAT_XRGB8888;
                             buf_listening := true |}]> (buffers e)
                 /\ objects e' !! o = Some ws
                 /\ Z.of_nat (length ws) = 640 * 480
                 /\ forall x y,
                      0 <= x < 640 -> 0 <= y < 480 ->
                      ws !! Z.to_nat (y * 640 + x) = Some (pixel x y)
        end)
  \/ (wl_shm = None
      /\ (exists fd e1,
            allocate_shm_file (640 * 4 * 480) e = Ok fd e1 /\ fd <> -1)
      /\ hd false (mmap_refused e) = false
      /\ exists fd o e',
           draw_frame wl_shm e = Fault (NullArgument "wl_shm_create_pool") e'
           /\ open_fds e !! fd = None
           /\ open_fds e' = <[fd := o]> (open_fds e)
           /\ mappings e' = o :: mappings e
           /\ shm_names e' = shm_names e /\ pools e' = pools e
           /\ buffers e' = buffers e).
Proof.
  intros Hok. unfold draw_frame. cbv zeta.
  set (size := 640 * 4 * 480).
  destruct (allocate_shm_file_run e size Hok)
    as (fd & e1 & Hrun & Hn & Hm & Hp & Hb & Hr & Hres).
  rewrite (bind_ok _ _ _ _ _ Hrun).
  destruct Hres as [(-> & Ho & _)|(-> & Ho & Hob & Hnf & Hno & _)].
  { cbn [Z.eqb Pos.eqb]. left. exists None, e1. split; [reflexivity|].
    repeat (split; [assumption|]).
    split; [split; [intros _; left; exists e1; exact Hrun | reflexivity]|].
    split; [right; reflexivity | exact Hb]. }
  set (fd := Z.of_nat (next_fd e)) in *.
  set (o := next_object e) in *.
  set (zeros := replicate (Z.to_nat (size / 4)) 0) in *.
  replace (fd =? -1) with false by (symmetry; apply Z.eqb_neq; lia).
  assert (Hfd : open_fds e1 !! fd = Some o)
    by (rewrite Ho; apply lookup_insert_eq).
  assert (Hclose : delete fd (open_fds e1) = open_fds e)
    by (rewrite Ho; apply delete_insert_id, fresh_fd; exact Hok).
  destruct (shm_mmap_cases size fd o e1 Hfd) as [(Href & Hmap)|(Href & Hmap)];
    rewrite (bind_ok _ _ _ _ _ Hmap); rewrite Hr in Href.
  { left. unfold bind, close, modify, ret. eexists _, _.
    split; [reflexivity|].
    cbn [shm_names open_fds mappings pools buffers set_open_fds
         set_mmap_refused].
    repeat (split; [assumption|]).
    split; [split; [intros _; right; exact Href | reflexivity]|].
    split; [right; reflexivity | exact Hb]. }
  set (e2 := set_mappings (o :: mappings e1)
               (set_mmap_refused (tail (mmap_refused e1)) e1)).
  destruct wl_shm as [shm|].
  2: { right. split; [reflexivity|].
       split; [exists fd, e1; split; [exact Hrun | unfold fd; lia]|].
       split; [exact Href|].
       exists fd, o, e2. split; [reflexivity|].
       split; [apply fresh_fd; exact Hok|].
       split; [exact Ho|].
       split; [change (mappings e2) with (o :: mappings e1); rewrite Hm;
               reflexivity|].
       split; [exact Hn|]. split; [exact Hp | exact Hb]. }
  left.
  assert (Hpool : wl_shm_create_pool (Some shm) fd size e2
                  = Ok (S o)
                      (set_next_object (S (S o))
                         (set_pools (<[S o := o]> (pools e1)) e2))).
  { unfold wl_shm_create_pool.
    change (open_fds e2) with (open_fds e1). rewrite Hfd.
    change (next_object e2) with (next_object e1). rewrite Hno.
    reflexivity. }
  rewrite (bind_ok _ _ _ _ _ Hpool).
  set (e3 := set_next_object (S (S o))
               (set_pools (<[S o := o]> (pools e1)) e2)).
  set (made := {| buf_object := o; buf_offset := 0; buf_width := 640;
                  buf_height := 480; buf_stride := 640 * 4;
                  buf_format := WL_SHM_FORMAT_XRGB8888;
                  buf_listening := false |}).
  assert (Hbuf : wl_shm_pool_create_buffer (S o) 0 640 480 (640 * 4)
                   WL_SHM_FORMAT_XRGB8888 e3
                 = Ok (S (S o))
                     (set_next_object (S (S (S o)))
                        (set_buffers (<[S (S o) := made]> (buffers e1)) e3))).
  { unfold wl_shm_pool_create_buffer.
    change (pools e3) with (<[S o := o]> (pools e1)).
    rewrite lookup_insert_eq. reflexivity. }
  rewrite (bind_ok _ _ _ _ _ Hbuf).
  set (e4 := set_next_object (S (S (S o)))
               (set_buffers (<[S (S o) := made]> (buffers e1)) e3)).
  assert (Hdestroy : wl_shm_pool_destroy (S o) e4
                     = Ok tt (set_pools (pools e) e4)).
  { unfold wl_shm_pool_destroy.
    change (pools e4) with (<[S o := o]> (pools e1)).
    rewrite lookup_insert_eq. f_equal. f_equal.
    rewrite Hp. apply delete_insert_id.
    exact (fresh_pool e 1 Hok). }
  rewrite (bind_ok _ _ _ _ _ Hdestroy).
  assert (Hclosed : close fd (set_pools (pools e) e4)
                    = Ok tt (set_open_fds (open_fds e)
                               (set_pools (pools e) e4))).
  { unfold close, modify.
    change (open_fds (set_pools (pools e) e4)) with (open_fds e1).
    rewrite Hclose. reflexivity. }
  rewrite (bind_ok _ _ _ _ _ Hclosed).
  set (e5 := set_open_fds (open_fds e) (set_pools (pools e) e4)).
  assert (Hobj5 : objects e5 !! o = Some zeros)
    by (change (objects e5) with (objects e1); rewrite Hob;
        apply lookup_insert_eq).
  assert (Hmapped : o ∈ mappings e5)
    by (change (mappings e5) with (o :: mappings e1); apply elem_of_cons;
        left; reflexivity).
  assert (Hsize : Z.of_nat (length zeros) = 640 * 480).
  { unfold zeros. rewrite length_replicate, Z2Nat.id; [reflexivity|].
    apply Z.div_pos; unfold size; lia. }
  destruct (checkerboard_run o 640 480 e5 zeros Hobj5 Hmapped
              ltac:(lia) ltac:(lia) Hsize)
    as (ws & Hpaint & Hlen & Hpix).
  rewrite (bind_ok _ _ _ _ _ Hpaint).
  set (e6 := set_objects (<[o := ws]> (objects e5)) e5).
  assert (Hunmap : munmap o size e6
                   = Ok tt (set_mappings (mappings e) e6)).
  { unfold munmap, modify.
    change (mappings e6) with (o :: mappings e1).
    cbn [remove_one]. rewrite Nat.eqb_refl, Hm. reflexivity. }
  rewrite (bind_ok _ _ _ _ _ Hunmap).
  set (e7 := set_mappings (mappings e) e6).
  assert (Hlisten : wl_buffer_add_listener (S (S o)) e7
                    = Ok tt
                        (set_buffers
                           (<[S (S o) :=
                                {| buf_object := o; buf_offset := 0;
                                   buf_width := 640; buf_height := 480;
                                   buf_stride := 2560;
                                   buf_format := WL_SHM_FORMAT_XRGB8888;
                                   buf_listening := true |}]> (buffers e))
                           e7)).
  { unfold wl_buffer_add_listener.
    change (buffers e7) with (<[S (S o) := made]> (buffers e1)).
    rewrite lookup_insert_eq, insert_insert_eq, Hb. reflexivity. }
  rewrite (bind_ok _ _ _ _ _ Hlisten).
  eexists _, _. split; [reflexivity|].
  split; [exact Hn|]. split; [reflexivity|]. split; [reflexivity|].
  split; [reflexivity|].
  split.
  { split; [discriminate|]. intros [[e1' Hfail]|Hrefused].
    - rewrite Hrun in Hfail.
      injection Hfail as Hfail _. unfold fd in Hfail. lia.
    - congruence. }
  split; [left; eexists; reflexivity|].
  split; [exact (fresh_buffer e 2 Hok)|].
  exists o, ws. split; [reflexivity|].
  split; [change (<[o := ws]> (objects e5) !! o = Some ws);
          apply lookup_insert_eq|].
  split; [rewrite Hlen; exact Hsize | exact Hpix].
Qed.

(** X22.  [draw_frame] never tests [state->wl_shm].  When it returns,
    the descriptors that are open, the mappings, the pools and the names
    in the namespace are those from before the call; it returns [NULL]
    exactly when the file could not be allocated or the mapping was
    refused, and then no buffer has been made; and it returns on every
    path when [state->wl_shm] is set.  When [state->wl_shm] is null it
    returns on those two paths only: once the file is allocated and
    mapped the null pointer is handed to [wl_shm_create_pool], with the
    descriptor of the file still open and its mapping still in place. *)
Theorem draw_frame_releases_what_it_takes (wl_shm : option nat)
    (e : shm_env) :
  env_ok e ->
  (exists buffer e',
     draw_frame wl_shm e = Ok buffer e'
     /\ shm_names e' = shm_names e /\ open_fds e' = open_fds e
     /\ mappings e' = mappings e /\ pools e' = pools e
     /\ (buffer = None
         <-> (exists e1, allocate_shm_file (640 * 4 * 480) e = Ok (-1) e1)
             \/ hd false (mmap_refused e) = true)
     /\ (buffer = None -> buffers e' = buffers e)
     /\ (is_Some wl_shm \/ buffer = None))
  \/ (wl_shm = None
      /\ (exists fd e1,
            allocate_shm_file (640 * 4 * 480) e = Ok fd e1 /\ fd <> -1)
      /\ hd false (mmap_refused e) = false
      /\ exists fd o e',
           draw_frame wl_shm e = Fault (NullArgument "wl_shm_create_pool") e'
           /\ open_fds e !! fd = None
           /\ open_fds e' = <[fd := o]> (open_fds e)
           /\ mappings e' = o :: mappings e
           /\ shm_names e' = shm_names e /\ pools e' = pools e
           /\ buffers e' = buffers e).
Proof.
  intros Hok.
  destruct (draw_frame_run wl_shm e Hok)
    as [(buffer & e' & Hrun & Hn & Ho & Hm & Hp & Hnull & Hshm & Hres)
       |Hfault].
  - left. exists buffer, e'. repeat (split; [assumption|]).
    split; [intros ->; exact Hres | exact Hshm].
  - right. exact Hfault.
Qed.

Lemma draw_frame_releases_what_it_takes_witness :
  env_ok (set_mmap_refused [true] shm_env_empty)
  /\ (exists e',
        draw_frame (Some 0%nat) (set_mmap_refused [true] shm_env_empty)
        = Ok None e'
        /\ shm_names e' = ∅ /\ open_fds e' = ∅
        /\ mappings e' = [] /\ pools e' = ∅ /\ buffers e' = ∅)
  /\ env_ok shm_env_empty
  /\ exists fd o e',
       draw_frame None shm_env_empty
       = Fault (NullArgument "wl_shm_create_pool") e'
       /\ open_fds e' = <[fd := o]> ∅ /\ mappings e' = [o].
Proof.
  assert (Hok : env_ok (set_mmap_refused [true] shm_env_empty))
    by exact env_ok_empty.
  split; [exact Hok|]. split.
  - destruct (draw_frame_releases_what_it_takes (Some 0%nat)
                (set_mmap_refused [true] shm_env_empty) Hok)
      as [(buffer & e' & Hrun & Hn & Ho & Hm & Hp & Hnull & Hb & _)
         |(Hnone & _)]; [|discriminate Hnone].
    assert (Hnone : buffer = None) by (apply Hnull; right; reflexivity).
    subst buffer. exists e'. repeat (split; [assumption|]). apply Hb.
    reflexivity.
  - split; [exact env_ok_empty|].
    destruct (draw_frame_releases_what_it_takes None shm_env_empty
                env_ok_empty)
      as [(buffer & e' & Hrun & _ & _ & _ & _ & Hnull & _ & [[x Hx]|Hnone])
         |(_ & _ & _ & fd & o & e' & Hrun & _ & Ho & Hm & _)].
    + discriminate Hx.
    + exfalso. destruct (proj1 Hnull Hnone) as [[e1 Hfail]|Hrefused];
        [|discriminate Hrefused].
      destruct (allocate_shm_file_decided shm_env_empty (640 * 4 * 480)
                  0 [] env_ok_empty)
        as (fd & e2 & Hrun2 & _ & Hres2);
        [simpl; apply not_elem_of_empty | reflexivity | reflexivity
        | discriminate |].
      cbn [hd Z.eqb] in Hres2. destruct Hres2 as (Hfd & _).
      rewrite Hfail in Hrun2. injection Hrun2 as Hfd2 _. lia.
    + exists fd, o, e'. split; [exact Hrun|]. split; [exact Ho | exact Hm].
Defined.



End ShmFacts.

(** ** The keyboard focus in gettext.c *)

Module FocusFacts.
Section WithLib.
Context {lib : XkbLib}.

Lemma in_world_keeps_globals {G A} (m : M world A) (Q : G -> Prop) :
  preserves (in_world m : M (G * world) A) (fun s => Q (fst s)).
Proof.
  intros [g w] H. unfold in_world. cbn [fst snd] in *.
  destruct (m w); exact H.
Qed.

Lemma globals_set_keeps {G} (f : G -> G) (Q : G -> Prop) :
  (forall g, Q g -> Q (f g)) ->
  preserves (globals_set f : M (G * world) unit) (fun s => Q (fst s)).
Proof. intros Hf [g w] H. apply Hf. exact H. Qed.

Local Ltac keeps_focus focus :=
  repeat first
    [ apply preserves_bind; [|intros ?]
    | apply preserves_ret
    | apply preserves_when
    | apply preserves_globals_get
    | apply (in_world_keeps_globals _
               (fun g => Gettext.focused_surface g = focus))
    | apply (globals_set_keeps _
               (fun g => Gettext.focused_surface g = focus));
      intros ? ?; assumption
    | match goal with
      | |- preserves (match ?x with _ => _ end) _ => destruct x
      end ].

Lemma keymap_keeps_focus (format fd size : Z) (focus : option Z) :
  preserves (Gettext.keyboard_handle_keymap format fd size)
    (fun s => Gettext.focused_surface (fst s) = focus).
Proof.
  unfold Gettext.keyboard_handle_keymap, Gettext.errorOccurred.
  keeps_focus focus.
Qed.

Lemma key_keeps_focus (serial time key state : Z) (focus : option Z) :
  preserves (Gettext.keyboard_handle_key serial time key state)
    (fun s => Gettext.focused_surface (fst s) = focus).
Proof. unfold Gettext.keyboard_handle_key. cbv zeta. keeps_focus focus. Qed.

Lemma modifiers_keep_focus (serial d l k grp : Z) (focus : option Z) :
  preserves (Gettext.keyboard_handle_modifiers serial d l k grp)
    (fun s => Gettext.focused_surface (fst s) = focus).
Proof. unfold Gettext.keyboard_handle_modifiers. keeps_focus focus. Qed.

Lemma listener_focus (e : Gettext.event) (s : Gettext.globals * world) :
  Gettext.focused_surface (fst (final_state (Gettext.keyboard_listener e s)))
  = Gettext.focus_after [e] (Gettext.focused_surface (fst s)).
Proof.
  destruct e as [format fd size|serial surface keys|serial surface
                |serial time key state|serial d l k grp];
    cbn [Gettext.keyboard_listener Gettext.focus_after fold_left].
  - apply (keymap_keeps_focus format fd size _ s). reflexivity.
  - reflexivity.
  - reflexivity.
  - apply (key_keeps_focus serial time key state _ s). reflexivity.
  - apply (modifiers_keep_focus serial d l k grp _ s). reflexivity.
Qed.

(** X24.  gettext.c's focused surface follows the enter and leave events
    and nothing else: after a batch of events has been handled it is the
    surface of the last enter event that no leave event follows, or what
    it was when the batch has neither.  Keymap, key and modifiers events
    never touch it, and a leave event clears it whichever surface it
    names. *)
Theorem gettext_focus_follows_enter_and_leave (batch : list Gettext.event) :
  forall s s',
    Gettext.dispatch_all batch s = Ok tt s' ->
    Gettext.focused_surface (fst s')
    = Gettext.focus_after batch (Gettext.focused_surface (fst s)).
Proof.
  induction batch as [|e batch IH]; intros s s' Hrun.
  - injection Hrun as <-. reflexivity.
  - cbn [Gettext.dispatch_all] in Hrun. unfold bind in Hrun.
    pose proof (listener_focus e s) as He.
    destruct (Gettext.keyboard_listener e s) as [[] s1|f s1];
      [|discriminate].
    cbn [final_state] in He.
    rewrite (IH s1 s' Hrun), He. reflexivity.
Qed.

End WithLib.

Lemma gettext_focus_follows_enter_and_leave_witness :
  exists s',
    Gettext.dispatch_all (lib := Sample.lib)
      [Gettext.Enter 1 7 []; Gettext.Keymap 1 5 17; Gettext.Key 0 0 30 1;
       Gettext.Leave 2 9; Gettext.Enter 3 8 [30]; Gettext.Modifiers 0 1 0 0 0]
      (Sample.globals0, Sample.world0)
    = Ok tt s'
    /\ Gettext.focused_surface (fst s') = Some 8.
Proof.
  assert (H : exists s',
            Gettext.dispatch_all (lib := Sample.lib)
              [Gettext.Enter 1 7 []; Gettext.Keymap 1 5 17;
               Gettext.Key 0 0 30 1; Gettext.Leave 2 9;
               Gettext.Enter 3 8 [30]; Gettext.Modifiers 0 1 0 0 0]
              (Sample.globals0, Sample.world0)
            = Ok tt s')
    by (eexists; vm_compute; reflexivity).
  destruct H as [s' H]. exists s'. split; [exact H|].
  exact (gettext_focus_follows_enter_and_leave (lib := Sample.lib) _ _ _ H).
Defined.

End FocusFacts.

(** ** A failed keymap event inside its dispatch (gettext.c) *)

Module DispatchFacts.
Section WithLib.
Context {lib : XkbLib}.

Lemma holds_only_installed (km st : option nat) (w : world) :
  holds_only km st w -> installed km st w.
Proof.
  unfold holds_only, installed.
  destruct km as [k|], st as [s|]; try tauto.
  - intros (t & m & Hk & Hs). eexists _, _.
    split; [rewrite Hk; apply lookup_singleton_eq|].
    split; [rewrite Hs; apply lookup_singleton_eq|].
    split; [reflexivity | cbn; lia].
  - intros (t & Hk & _). rewrite Hk, lookup_singleton_eq. eauto.
Qed.

Local Ltac keeps_error :=
  repeat first
    [ apply preserves_bind; [|intros ?]
    | apply preserves_ret
    | apply preserves_when
    | apply preserves_globals_get
    | apply (FocusFacts.in_world_keeps_globals _
               (fun g => Gettext.error g = true))
    | apply (FocusFacts.globals_set_keeps _
               (fun g => Gettext.error g = true));
      intros ? ?; first [assumption | reflexivity]
    | match goal with
      | |- preserves (match ?x with _ => _ end) _ => destruct x
      end ].

(** No handler of the listener clears the error flag. *)
Lemma listener_keeps_error (e : Gettext.event) :
  preserves (Gettext.keyboard_listener e)
    (fun s => Gettext.error (fst s) = true).
Proof.
  destruct e as [format fd size|serial surface keys|serial surface
                |serial time key state|serial d l k grp];
    cbn [Gettext.keyboard_listener];
    unfold Gettext.keyboard_handle_keymap, Gettext.errorOccurred,
      Gettext.keyboard_handle_enter, Gettext.keyboard_handle_leave,
      Gettext.keyboard_handle_key, Gettext.keyboard_handle_modifiers;
    cbv zeta; keeps_error.
Qed.

Lemma dispatch_keeps_error (batch : list Gettext.event) :
  forall s s',
    Gettext.dispatch_all batch s = Ok tt s' ->
    Gettext.error (fst s) = true -> Gettext.error (fst s') = true.
Proof.
  induction batch as [|e batch IH]; intros s s' Hrun He.
  - injection Hrun as <-. exact He.
  - cbn [Gettext.dispatch_all] in Hrun. unfold bind in Hrun.
    pose proof (listener_keeps_error e s He) as He1.
    destruct (Gettext.keyboard_listener e s) as [[] s1|f s1];
      [|discriminate].
    exact (IH s1 s' Hrun He1).
Qed.

Lemma dispatch_all_app (pre post : list Gettext.event) :
  forall s,
    Gettext.dispatch_all (pre ++ post) s
    = bind (Gettext.dispatch_all pre) (fun _ => Gettext.dispatch_all post) s.
Proof.
  induction pre as [|e pre IH]; intros s.
  - reflexivity.
  - cbn [app Gettext.dispatch_all]. unfold bind.
    destruct (Gettext.keyboard_listener e s) as [[] s1|f s1];
      [|reflexivity].
    rewrite IH. reflexivity.
Qed.

(** C7, as amended.  gettext.c, a dispatch whose events are [pre], then a
    keymap event, then [post], started with an xkb context and a heap
    that holds the translator's pair and nothing else.  The events of
    [pre] have been handled, the descriptor of the keymap event maps, and
    its text does not compile or the state cannot be allocated.  Then the
    handler prints one diagnostic on stderr, sets the error flag and
    returns.  The events of [post] are still delivered.  If they are all
    handled, the flag is still set, the loop ends with this dispatch,
    what the connection still holds is not delivered, and [main] runs
    its cleanup, which prints nothing and leaves no keymap and no state.
    Otherwise a key or a modifiers event of [post] came while no state
    was installed and the null state has been handed to xkbcommon; no
    other fault is possible.  The events of [post] are all handled when
    they hold no key and no modifiers event. *)
Theorem keymap_failure_ends_the_loop (s0 : Gettext.globals * world)
    (pre post : list Gettext.event) (g : Gettext.globals) (w : world)
    (format fd size : Z) (f : file)
    (rest : list (option (list Gettext.event))) :
  Gettext.tidy s0 ->
  Gettext.dispatch_all pre s0 = Ok tt (g, w) ->
  fds w !! fd = Some f -> mappable f = true ->
  xkb_compiles (content f) = false
  \/ (exists r, state_alloc w = false :: r) ->
  exists g' w' diagnostic,
    Gettext.keyboard_handle_keymap format fd size (g, w) = Ok tt (g', w')
    /\ stderr w' = stderr w ++ [diagnostic]
    /\ diagnostic
       = (if xkb_compiles (content f)
          then String.append "Failed to create XKB state" nl
          else String.append "Failed to compile keymap" nl)
    /\ Gettext.error g' = true
    /\ match Gettext.dispatch_all post (g', w') with
       | Ok _ s1 =>
           Gettext.error (fst s1) = true
           /\ Gettext.event_loop
                (Some (pre ++ Gettext.Keymap format fd size :: post) :: rest)
                s0
              = Ok rest s1
           /\ exists w2,
                Gettext.main_loop
                  (Some (pre ++ Gettext.Keymap format fd size :: post)
                     :: rest) s0
                = Ok rest (fst s1, w2)
                /\ stderr w2 = stderr (snd s1)
                /\ keymaps w2 = ∅ /\ states w2 = ∅
       | Fault f1 s1 =>
           Gettext.xkb_state (fst s1) = None
           /\ (f1 = NullArgument "xkb_state_key_get_syms"
               \/ f1 = NullArgument "xkb_state_update_mask")
           /\ Gettext.event_loop
                (Some (pre ++ Gettext.Keymap format fd size :: post) :: rest)
                s0
              = Fault f1 s1
           /\ Gettext.main_loop
                (Some (pre ++ Gettext.Keymap format fd size :: post) :: rest)
                s0
              = Fault f1 s1
       end
    /\ ((forall e, e ∈ post ->
           match e with
           | Gettext.Key _ _ _ _ | Gettext.Modifiers _ _ _ _ _ => False
           | _ => True
           end) ->
        exists s1, Gettext.dispatch_all post (g', w') = Ok tt s1).
Proof.
  intros (Hctx0 & Hown0) Hpre Hf Hmp Hfail.
  (* the state in which the keymap event is handled *)
  assert (Ht : Gettext.tidy (g, w)).
  { destruct (HeapFacts.gettext_dispatch_step pre s0 Hown0)
      as [(s' & Hrun & Hown & Hc)
         |[(f1 & s' & Hrun & _)|(_ & s' & Hrun)]];
      rewrite Hrun in Hpre; [|discriminate|discriminate].
    injection Hpre as ->. split; [|exact Hown].
    rewrite Hc. exact Hctx0. }
  destruct Ht as (Hctx & Hh & Hheap). cbn [fst snd] in Hctx, Hh, Hheap.
  destruct (InstallFacts.keymap_failure_sets_the_flag g w format fd size f
              rest (holds_only_installed _ _ _ Hh) Hheap Hf Hmp Hctx Hfail)
    as (g' & w' & diagnostic & Hrun & Herr & Hdiag & He & _).
  destruct (HeapFacts.gettext_keymap_step g w format fd size
              (conj Hctx (conj Hh Hheap)))
    as (g2 & w2 & Hrun2 & Hsame & Ht' & _).
  rewrite Hrun in Hrun2. injection Hrun2 as <- <-.
  exists g', w', diagnostic.
  split; [exact Hrun|]. split; [exact Herr|]. split; [exact Hdiag|].
  split; [exact He|].
  assert (Hbatch : forall r,
            Gettext.dispatch_all post (g', w') = r ->
            Gettext.dispatch_all
              (pre ++ Gettext.Keymap format fd size :: post) s0 = r).
  { intros r Hr. rewrite dispatch_all_app.
    rewrite (bind_ok _ _ _ _ _ Hpre). cbn [Gettext.dispatch_all].
    change (Gettext.keyboard_listener (Gettext.Keymap format fd size))
      with (Gettext.keyboard_handle_keymap format fd size).
    rewrite (bind_ok _ _ _ _ _ Hrun). exact Hr. }
  destruct Ht' as (Hctx' & Hown').
  split.
  - destruct (HeapFacts.gettext_dispatch_step post (g', w') Hown')
      as [([g1 w1] & Hpost & Hown1 & _)
         |[(f1 & s1 & Hpost & Hnone & Hf1)|(Hnoctx & _)]].
    + rewrite Hpost.
      pose proof (dispatch_keeps_error post _ _ Hpost He) as He1.
      pose proof (InstallFacts.event_loop_stops_on_error _ rest _ _
                    (Hbatch _ Hpost) He1) as Hloop.
      split; [exact He1|]. split; [exact Hloop|].
      destruct (HeapFacts.gettext_cleanup_step g1 w1 Hown1)
        as (w2 & Hclean & Hk & Hs & Hout).
      exists w2. split.
      * unfold Gettext.main_loop. rewrite (bind_ok _ _ _ _ _ Hloop).
        rewrite (bind_ok _ _ _ _ _ Hclean). reflexivity.
      * apply InstallFacts.outside_heap_fields in Hout.
        cbn [snd]. split; [tauto|]. split; assumption.
    + rewrite Hpost. split; [exact Hnone|]. split; [exact Hf1|].
      assert (Hloop : Gettext.event_loop
                        (Some (pre ++ Gettext.Keymap format fd size :: post)
                           :: rest) s0
                      = Fault f1 s1).
      { cbn [Gettext.event_loop]. unfold bind at 1.
        rewrite (Hbatch _ Hpost). reflexivity. }
      split; [exact Hloop|].
      unfold Gettext.main_loop, bind at 1. rewrite Hloop. reflexivity.
    + exfalso. cbn [fst] in Hnoctx, Hctx'. rewrite Hnoctx in Hctx'.
      destruct Hctx' as [c Hc]. discriminate Hc.
  - clear Hbatch. revert Hown' Hctx'. generalize (g', w').
    induction post as [|e post IH]; intros s Hown Hc Hnone.
    + exists s. reflexivity.
    + assert (He0 : match e with
                    | Gettext.Key _ _ _ _
                    | Gettext.Modifiers _ _ _ _ _ => False
                    | _ => True
                    end) by (apply Hnone; left).
      cbn [Gettext.dispatch_all].
      destruct (HeapFacts.gettext_listener_step e s Hown)
        as [(s1 & Hstep & Hown1 & Hc1)
           |[(_ & f1 & Hstep & _)|(Hnoctx & _)]].
      * rewrite (bind_ok _ _ _ _ _ Hstep).
        apply (IH s1 Hown1); [rewrite Hc1; exact Hc|].
        intros e' He'. apply Hnone. right. exact He'.
      * exfalso.
        destruct e as [format' fd' size'|serial surface keys|serial surface
                      |serial time key state|serial d l k grp];
          try contradiction; cbn [Gettext.keyboard_listener] in Hstep.
        -- destruct (HeapFacts.gettext_keymap_step (fst s) (snd s)
                       format' fd' size')
             as (g3 & w3 & Hrun3 & _).
           { destruct s; exact (conj Hc Hown). }
           destruct s. cbn [fst snd] in Hrun3. congruence.
        -- discriminate Hstep.
        -- discriminate Hstep.
      * exfalso. rewrite Hnoctx in Hc. destruct Hc as [c Hc].
        discriminate Hc.
Qed.

End WithLib.

(** The theorem on the text that does not compile.  First between an
    enter and a leave event, with a key event waiting on the connection:
    the loop ends and the cleanup is reached.  Then with the key event in
    the same dispatch, before any keymap was installed. *)
Lemma keymap_failure_ends_the_loop_witness :
  Gettext.tidy (Sample.globals0, Sample.world0)
  /\ (exists g w,
        Gettext.dispatch_all (lib := Sample.lib) [Gettext.Enter 1 7 []]
          (Sample.globals0, Sample.world0) = Ok tt (g, w)
        /\ fds w !! 6 = Some Sample.bad_file
        /\ mappable Sample.bad_file = true
        /\ xkb_compiles (XkbLib := Sample.lib) (content Sample.bad_file)
           = false
        /\ exists g' w' w2,
             Gettext.keyboard_handle_keymap (lib := Sample.lib) 1 6 12 (g, w)
             = Ok tt (g', w')
             /\ stderr w' = [String.append "Failed to compile keymap" nl]
             /\ Gettext.error g' = true
             /\ Gettext.main_loop (lib := Sample.lib)
                  [Some [Gettext.Enter 1 7 []; Gettext.Keymap 1 6 12;
                         Gettext.Leave 2 7];
                   Some [Gettext.Key 0 0 30 1]]
                  (Sample.globals0, Sample.world0)
                = Ok [Some [Gettext.Key 0 0 30 1]]
                    (Gettext.set_focused_surface None g', w2)
             /\ stderr w2 = stderr w'
             /\ keymaps w2 = ∅ /\ states w2 = ∅)
  /\ Gettext.dispatch_all (lib := Sample.lib) []
       (Sample.globals0, Sample.world0)
     = Ok tt (Sample.globals0, Sample.world0)
  /\ fds Sample.world0 !! 6 = Some Sample.bad_file
  /\ exists g' w',
       Gettext.keyboard_handle_keymap (lib := Sample.lib) 1 6 12
         (Sample.globals0, Sample.world0) = Ok tt (g', w')
       /\ Gettext.error g' = true
       /\ Gettext.main_loop (lib := Sample.lib)
            [Some [Gettext.Keymap 1 6 12; Gettext.Key 0 0 30 1]]
            (Sample.globals0, Sample.world0)
          = Fault (NullArgument "xkb_state_key_get_syms") (g', w').
Proof.
  split; [exact HeapFacts.sample_world_tidy|]. split.
  - eexists _, _. split; [vm_compute; reflexivity|].
    split; [reflexivity|]. split; [reflexivity|]. split; [reflexivity|].
    destruct (keymap_failure_ends_the_loop (lib := Sample.lib)
                (Sample.globals0, Sample.world0)
                [Gettext.Enter 1 7 []] [Gettext.Leave 2 7] _ _ 1 6 12
                Sample.bad_file [Some [Gettext.Key 0 0 30 1]]
                HeapFacts.sample_world_tidy eq_refl eq_refl eq_refl
                (or_introl eq_refl))
      as (g' & w' & diagnostic & Hrun & Herr & Hdiag & He & Hpost & _).
    vm_compute in Hrun. injection Hrun as <- <-.
    cbn [Gettext.dispatch_all Gettext.keyboard_listener
         Gettext.keyboard_handle_leave bind globals_set in_world printf
         fst snd] in Hpost.
    destruct Hpost as (_ & _ & w2 & Hmain & Hstderr & Hk & Hs).
    eexists _, _, w2. split; [vm_compute; reflexivity|].
    split; [reflexivity|]. split; [reflexivity|].
    split; [exact Hmain|]. split; [exact Hstderr|]. split; assumption.
  - split; [reflexivity|]. split; [reflexivity|].
    destruct (keymap_failure_ends_the_loop (lib := Sample.lib)
                (Sample.globals0, Sample.world0)
                [] [Gettext.Key 0 0 30 1] _ _ 1 6 12
                Sample.bad_file [] HeapFacts.sample_world_tidy eq_refl
                eq_refl eq_refl (or_introl eq_refl))
      as (g' & w' & diagnostic & Hrun & Herr & Hdiag & He & Hpost & _).
    exists g', w'. split; [exact Hrun|]. split; [exact He|].
    vm_compute in Hrun. injection Hrun as <- <-.
    vm_compute in Hpost. destruct Hpost as (_ & _ & _ & Hmain).
    exact Hmain.
Defined.

End DispatchFacts.
